(** * RefineDet loss layer (Applications/RefineDet/refinedet_loss.cpp)

    A shallow embedding of the anchor generator, the IoU routine, the
    anchor matcher, the negative filter and hard-negative miner, the loss
    functions and their derivatives, and the per-batch drivers
    [forwarding] and [calcDerivative].

    Numbers are modelled as the code has them: C++ [float] is IEEE-754
    binary32 and [double] is binary64, both taken from the Standard
    Library's executable specification [SpecFloat] (round to nearest even,
    signed zeros, infinities and NaN).  [unsigned int] is a [Z] reduced
    modulo 2^32.  A tensor of shape [1,1,H,W] is a list of H rows of W
    floats; a [std::vector] is a list; the [std::set] of positive anchor
    indices is a [gset nat]. *)

From Stdlib Require Import ZArith QArith Qabs Floats.SpecFloat Sorting.Permutation Lia.
From stdpp Require Import base list gmap.

Local Open Scope Z_scope.

(** ** Machine numbers *)

Abbreviation float := spec_float (only parsing).
Abbreviation double := spec_float (only parsing).

(** [unsigned int]: arithmetic wraps modulo 2^32. *)
Definition wrap32 (z : Z) : Z := z mod 2 ^ 32.

Module F32.
Definition prec : Z := 24.
Definition emax : Z := 128.
Definition add : float -> float -> float := SFadd prec emax.
Definition sub : float -> float -> float := SFsub prec emax.
Definition mul : float -> float -> float := SFmul prec emax.
Definition div : float -> float -> float := SFdiv prec emax.
Definition opp : float -> float := SFopp.
Definition ltb : float -> float -> bool := SFltb.
Definition leb : float -> float -> bool := SFleb.
(** Conversion of an integer, as in [(float)n]. *)
Definition of_Z (z : Z) : float := binary_normalize prec emax z 0 false.
(** Conversion of a [double] to [float]: one rounding to nearest even. *)
Definition of_double (x : double) : float :=
  match x with
  | S754_finite s m e => binary_round prec emax s m e
  | _ => x
  end.
(** Conversion [float -> unsigned int]: truncation toward zero.  C++
    leaves the conversion undefined for NaN, infinities and values that
    do not fit; those are mapped to 0 or reduced modulo 2^32 here. *)
Definition to_unsigned (x : float) : Z :=
  match x with
  | S754_finite s m e =>
      wrap32 (if s then - Z.shiftl (Zpos m) e else Z.shiftl (Zpos m) e)
  | _ => 0
  end.
Definition zero : float := S754_zero false.
Definition one : float := of_Z 1.
Definition is_zero (x : float) : bool :=
  match x with S754_zero _ => true | _ => false end.
Definition is_finite (x : float) : bool :=
  match x with S754_zero _ | S754_finite _ _ _ => true | _ => false end.
Definition is_nan (x : float) : bool :=
  match x with S754_nan => true | _ => false end.
End F32.

Module F64.
Definition prec : Z := 53.
Definition emax : Z := 1024.
Definition add : double -> double -> double := SFadd prec emax.
Definition sub : double -> double -> double := SFsub prec emax.
Definition mul : double -> double -> double := SFmul prec emax.
Definition div : double -> double -> double := SFdiv prec emax.
Definition opp : double -> double := SFopp.
Definition sqrt : double -> double := SFsqrt prec emax.
Definition ltb : double -> double -> bool := SFltb.
Definition of_Z (z : Z) : double := binary_normalize prec emax z 0 false.
(** Promotion of a [float] to [double] (exact). *)
Definition of_float (x : float) : double :=
  match x with
  | S754_finite s m e => binary_round prec emax s m e
  | _ => x
  end.
(** Decimal literals: the correctly rounded quotient of two integers
    that are themselves exact doubles. *)
Definition lit_0_5 : double := div (of_Z 1) (of_Z 2).
Definition lit_0_99 : double := div (of_Z 99) (of_Z 100).
Definition lit_1e_20 : double := div (of_Z 1) (of_Z (10 ^ 20)).
End F64.

(** The exact rational value of a finite float (0 for the others). *)
Definition SF2Q (x : spec_float) : Q :=
  match x with
  | S754_finite s m e =>
      let v := if (0 <=? e)%Z then inject_Z (Zpos m * 2 ^ e)
               else (Zpos m # Z.to_pos (2 ^ (- e))) in
      if s then Qopp v else v
  | _ => 0%Q
  end.

#[global] Instance float_inhabited : Inhabited spec_float := populate F32.zero.

(** ** Tensor helpers

    Modelled from the spec: the tensor class ([nntrainer::Tensor]) is not
    part of the sources; its operations are taken as the external
    interface describes them: element-wise arithmetic, concatenation and
    splitting along an axis, reshape, batch slicing and axis-wise sums
    over row-major data. *)

Abbreviation row := (list spec_float) (only parsing).
Abbreviation tensor := (list (list spec_float)) (only parsing).

Definition tabulate {A} (n : nat) (f : nat -> A) : list A := map f (seq 0 n).

(** [Tensor(b, c, h, w)] filled by [setValue(i, j, k, l, f i j k l)]. *)
Definition tensor4 (b c h w : nat) (f : nat -> nat -> nat -> nat -> float)
  : list (list (list (list float))) :=
  tabulate b (fun i => tabulate c (fun j => tabulate h (fun k =>
    tabulate w (f i j k)))).

(** [reshape({1, 1, total / 2, 2})] of a row-major tensor whose last
    dimension already is 2: the rows are the innermost vectors in
    storage order. *)
Definition reshape_rows {A} (t : list (list (list A))) : list A :=
  concat (concat t).

(** Element-wise operations on [1,1,H,W] tensors. *)
Definition tmap (f : float -> float) (t : tensor) : tensor := map (map f) t.
Definition tzip (f : float -> float -> float) (x y : tensor) : tensor :=
  zip_with (zip_with f) x y.

(** [Tensor::cat(.., 3)]: concatenation along the width axis. *)
Definition cat_w (x y : tensor) : tensor := zip_with app x y.

(** ** Constants (lines 35-48) *)

Definition feature_map_size1 : nat := 28.
Definition feature_map_size2 : nat := 14.
Definition feature_map_size3 : nat := 4.
Definition feature_map_size4 : nat := 2.
Definition num_ratios : nat := 3.
Definition num_anchors : nat :=
  (num_ratios * (feature_map_size1 * feature_map_size1
                 + feature_map_size2 * feature_map_size2
                 + feature_map_size3 * feature_map_size3
                 + feature_map_size4 * feature_map_size4))%nat.
Definition num_classes : nat := 21.
Definition max_gt_boxes : nat := 5.
Definition positive_anchor_threshold : float := F32.of_double F64.lit_0_5.
Definition arm_conf_loss_divider : float := F32.of_Z 1.

(** ** Anchor generation (lines 80-132) *)

(** [anchor_ratios = {0.5, 1, 2}] as a [std::vector<float>]. *)
Definition anchor_ratios : list float :=
  [F32.of_double F64.lit_0_5; F32.of_Z 1; F32.of_Z 2].

(** [(float)pow(ratio, 0.5)].
    Modelled from the spec: libm's [pow] is not part of the sources; the
    spec writes the factor as [sqrt(r)], taken here as the correctly
    rounded binary64 square root. *)
Definition pow_half (ratio : float) : float :=
  F32.of_double (F64.sqrt (F64.of_float ratio)).

(** The value stored at [(b, h, w, c)] of [anchor_yx]:
    [((h + 0.5) * (1 - c % 2) + (w + 0.5) * (c % 2)) * stride],
    evaluated in [double] and stored as [float]. *)
Definition anchor_yx_value (stride : nat) (b h w c : nat) : float :=
  let sel1 := F64.of_Z (wrap32 (1 - Z.of_nat c mod 2)) in
  let sel2 := F64.of_Z (Z.of_nat c mod 2) in
  let hh := F64.add (F64.of_Z (Z.of_nat h)) F64.lit_0_5 in
  let ww := F64.add (F64.of_Z (Z.of_nat w)) F64.lit_0_5 in
  F32.of_double
    (F64.mul (F64.add (F64.mul hh sel1) (F64.mul ww sel2))
       (F64.of_Z (Z.of_nat stride))).

(** [priors]: one [{anchor_size * sqrt r, anchor_size / sqrt r}] per ratio. *)
Definition priors (anchor_size : nat) : list (list float) :=
  map (fun ratio =>
         [F32.mul (F32.of_Z (Z.of_nat anchor_size)) (pow_half ratio);
          F32.div (F32.of_Z (Z.of_nat anchor_size)) (pow_half ratio)])
      anchor_ratios.

Definition create_anchors_ (anchor_size stride feature_map_size : nat)
  : tensor * tensor :=
  let n := length anchor_ratios in
  let anchor_yx :=
    tensor4 n feature_map_size feature_map_size 2 (anchor_yx_value stride) in
  let priors := priors anchor_size in
  let anchor_hw :=
    tensor4 n feature_map_size feature_map_size 2
      (fun b h w c => (priors !!! b) !!! c) in
  (reshape_rows anchor_yx, reshape_rows anchor_hw).

(** [Tensor::cat(.., 2)] of the four scales: concatenation of the rows. *)
Definition create_anchors : tensor * tensor :=
  let anchors1 := create_anchors_ (8 * 4) 8 feature_map_size1 in
  let anchors2 := create_anchors_ (16 * 4) 16 feature_map_size2 in
  let anchors3 := create_anchors_ (32 * 4) 32 feature_map_size3 in
  let anchors4 := create_anchors_ (64 * 4) 64 feature_map_size4 in
  (anchors1.1 ++ anchors2.1 ++ anchors3.1 ++ anchors4.1,
   anchors1.2 ++ anchors2.2 ++ anchors3.2 ++ anchors4.2).

(** ** Scalar helpers used by the loss code *)

(** [Tensor::getValue(i)]: flat, row-major read. *)
Definition getValue (t : tensor) (i : nat) : float := concat t !!! i.

(** [std::min] and [std::max] as the standard defines them through [<]. *)
Definition std_min (a b : float) : float := if F32.ltb b a then b else a.
Definition std_max (a b : float) : float := if F32.ltb a b then b else a.

(** [ActiFunc::relu].
    Modelled from the spec: the activation library is not part of the
    sources; negative values are clamped to zero. *)
Definition relu (x : float) : float := if F32.leb x F32.zero then F32.zero else x.

(** [std::max_element]: the index of the first largest element. *)
Fixpoint max_element_from (largest : nat) (lv : float) (i : nat)
    (rest : list float) : nat :=
  match rest with
  | [] => largest
  | x :: r =>
      if F32.ltb lv x then max_element_from i x (S i) r
      else max_element_from largest lv (S i) r
  end.

Definition max_element (v : list float) : nat :=
  match v with
  | [] => 0%nat
  | x :: r => max_element_from 0 x 1 r
  end.

(** [x > c] for a [float] x and a [double] literal c. *)
Definition gt_double (x : float) (c : double) : bool :=
  F64.ltb c (F64.of_float x).

(** ** Intersection over union (lines 214-276) *)

(** The IoU of one row of [box1] against the single box [box2]. *)
Definition iou_row (yx hw : list float) (box2_yx box2_hw : tensor) : float :=
  let two := F32.of_Z 2 in
  let y := yx !!! 0%nat in let x := yx !!! 1%nat in
  let h := hw !!! 0%nat in let w := hw !!! 1%nat in
  (* corners of box1 *)
  let box1_y1 := F32.sub y (F32.div h two) in
  let box1_x1 := F32.sub x (F32.div w two) in
  let box1_y2 := F32.add y (F32.div h two) in
  let box1_x2 := F32.add x (F32.div w two) in
  (* corners of box2 *)
  let box2_y1 := F32.sub (getValue box2_yx 0) (F32.div (getValue box2_hw 0) two) in
  let box2_x1 := F32.sub (getValue box2_yx 1) (F32.div (getValue box2_hw 1) two) in
  let box2_y2 := F32.add (getValue box2_yx 0) (F32.div (getValue box2_hw 0) two) in
  let box2_x2 := F32.add (getValue box2_yx 1) (F32.div (getValue box2_hw 1) two) in
  let inter_x1 := std_max box1_x1 box2_x1 in
  let inter_x2 := std_min box1_x2 box2_x2 in
  let inter_y1 := std_max box1_y1 box2_y1 in
  let inter_y2 := std_min box1_y2 box2_y2 in
  (* unsigned int box2_h = box2_hw.getValue(0); unsigned int box2_w = ... *)
  let box2_h := F32.to_unsigned (getValue box2_hw 0) in
  let box2_w := F32.to_unsigned (getValue box2_hw 1) in
  let inter_area :=
    F32.mul (relu (F32.sub inter_x2 inter_x1)) (relu (F32.sub inter_y2 inter_y1)) in
  F32.div inter_area
    (F32.sub (F32.add (F32.mul h w) (F32.of_Z (wrap32 (box2_h * box2_w))))
       inter_area).

Definition calc_iou (box1_yx box1_hw box2_yx box2_hw : tensor) : list float :=
  zip_with (fun yx hw => iou_row yx hw box2_yx box2_hw) box1_yx box1_hw.

(** ** The layer state shared by [forwarding] and [calcDerivative]

    The member vectors of [RefineDetLoss], one entry per batch item. *)
Record RefineDetLoss := mkRefineDetLoss {
  positive_mask : list (list Z);
  pos_neg_mask : list (list Z);
  anchor_gt_label_yx : list (list (list spec_float));
  anchor_gt_label_hw : list (list (list spec_float));
  gt_class_labels : list (list Z);
  num_positive_anchors : list Z
}.

(** The locals of the matching loop of one batch item (lines 341-346). *)
Record match_state := mkMatch {
  positive_idx_set : gset nat;
  anchor_gt_label_idx : list Z;
  anchor_gt_label_iou : list spec_float;
  label_yx : list (list spec_float);
  label_hw : list (list spec_float)
}.

Definition truthy (v : Z) : bool := negb (v =? 0).

Section Layer.

(** External functions.  [softmax] is [nntrainer::ActiFunc::softmax]
    on a [1,1,H,W] tensor, [log] is libm's [log] on doubles and
    [std_sort] is [std::sort] with a comparator; none of them is part
    of the sources. *)
Variable softmax : list (list spec_float) -> list (list spec_float).
Variable log : spec_float -> spec_float.
Variable std_sort :
  (nat * spec_float -> nat * spec_float -> bool) ->
  list (nat * spec_float) -> list (nat * spec_float).

(** *** Loss functions (lines 134-211) *)

(** [log(p + 1e-20)], evaluated in [double]. *)
Definition log_eps (p : float) : double :=
  log (F64.add (F64.of_float p) F64.lit_1e_20).

(** [loss += d] for a [float] accumulator and a [double] term. *)
Definition acc_double (loss : float) (d : double) : float :=
  F32.of_double (F64.add (F64.of_float loss) d).

Definition cross_entropy (x : tensor) (l : list Z) : float :=
  let output := softmax x in
  let loss :=
    foldl (fun loss a =>
             acc_double loss (log_eps ((output !!! a) !!! Z.to_nat (l !!! a))))
      F32.zero (seq 0 (length x)) in
  F32.opp loss.

Definition cross_entropy_with_mask (x : tensor) (mask l : list Z) : float :=
  let output := softmax x in
  let loss :=
    foldl (fun loss a =>
             if truthy (mask !!! a)
             then acc_double loss
                    (log_eps ((output !!! a) !!! Z.to_nat (l !!! a)))
             else loss)
      F32.zero (seq 0 (length x)) in
  F32.opp loss.

(** The vector is constructed with [l.size()] value-initialised pairs
    and the per-anchor pairs are then appended with [push_back]. *)
Definition cross_entropy_per_anchor (x : tensor) (l : list Z)
  : list (nat * float) :=
  let output := softmax x in
  replicate (length l) (0%nat, F32.zero)
  ++ map (fun a =>
            (a, F32.of_double
                  (F64.opp (log_eps ((output !!! a) !!! Z.to_nat (l !!! a))))))
       (seq 0 (length x)).

(** The element function of [smooth_l1]; both branches are [double]
    expressions, stored back as [float]. *)
Definition smooth_l1_elem (val : float) : float :=
  let val := if F32.ltb val F32.zero then F32.opp val else val in
  if F32.ltb val (F32.of_Z 1)
  then F32.of_double
         (F64.mul (F64.mul F64.lit_0_5 (F64.of_float val)) (F64.of_float val))
  else F32.of_double (F64.sub (F64.of_float val) F64.lit_0_5).

(** [Tensor::sum] along one axis, accumulated in storage order. *)
Definition sum_list_f (r : list float) : float := foldl F32.add F32.zero r.

Definition smooth_l1 (x y : tensor) (l : list Z) : float :=
  let x := tzip F32.sub x y in
  let x := tmap smooth_l1_elem x in
  let x := map sum_list_f x in
  let x := imap (fun i v => if truthy (l !!! i) then v else F32.zero) x in
  sum_list_f x.

(** *** Matching (lines 341-375) *)

Definition match_init (anchors_num : nat) : match_state :=
  mkMatch ∅ (replicate anchors_num 0) (replicate anchors_num F32.zero)
    (replicate anchors_num [F32.zero; F32.zero])
    (replicate anchors_num [F32.zero; F32.zero]).

(** Lines 354-359: the best match of anchor [i] is overwritten when the
    IoU with ground truth [gt] is strictly larger than the recorded one. *)
Definition update_best (gt : nat) (anc_gt_iou : list float)
    (gt_yx_box gt_hw_box : list float) (st : match_state) (i : nat)
  : match_state :=
  if F32.ltb (anchor_gt_label_iou st !!! i) (anc_gt_iou !!! i)
  then mkMatch (positive_idx_set st)
         (<[i := Z.of_nat gt]> (anchor_gt_label_idx st))
         (<[i := anc_gt_iou !!! i]> (anchor_gt_label_iou st))
         (<[i := [gt_yx_box !!! 0%nat; gt_yx_box !!! 1%nat]]> (label_yx st))
         (<[i := [gt_hw_box !!! 0%nat; gt_hw_box !!! 1%nat]]> (label_hw st))
  else st.

(** Lines 362-367: the best anchor of the ground truth and every anchor
    with IoU above 0.5 become positive. *)
Definition mark_positive (anc_gt_iou : list float) (s : gset nat) (i : nat)
  : gset nat :=
  if gt_double (anc_gt_iou !!! i) F64.lit_0_5 then {[ i ]} ∪ s else s.

(** One iteration of the loop over ground truths (lines 350-367). *)
Definition match_gt (anchors : tensor * tensor) (gt_yx_boxes gt_hw_boxes : tensor)
    (st : match_state) (gt : nat) : match_state :=
  let anchors_num := length anchors.1 in
  let anc_gt_iou :=
    calc_iou anchors.1 anchors.2 [gt_yx_boxes !!! gt] [gt_hw_boxes !!! gt] in
  let max_idx := max_element anc_gt_iou in
  let st :=
    foldl (update_best gt anc_gt_iou (gt_yx_boxes !!! gt) (gt_hw_boxes !!! gt))
      st (seq 0 num_anchors) in
  let s := {[ max_idx ]} ∪ positive_idx_set st in
  let s := foldl (mark_positive anc_gt_iou) s (seq 0 anchors_num) in
  mkMatch s (anchor_gt_label_idx st) (anchor_gt_label_iou st)
    (label_yx st) (label_hw st).

(** The matching loop run over the first [n] ground truths. *)
Definition match_anchors (n : nat) (anchors : tensor * tensor)
    (gt_yx_ gt_hw_ : tensor) : match_state :=
  foldl (match_gt anchors gt_yx_ gt_hw_) (match_init (length anchors.1))
    (seq 0 n).

(** Lines 372-375. *)
Definition make_positive_mask (anchors_num : nat) (s : gset nat) : list Z :=
  foldl (fun m i => <[i := 1]> m) (replicate anchors_num 0) (elements s).

(** *** Negative filtering and hard negative mining (lines 408-432) *)

Definition negative_filter_step (positive_mask_b : list Z) (arm_conf_ : tensor)
    (st : list Z * Z) (i : nat) : list Z * Z :=
  let v := wrap32 (1 - positive_mask_b !!! i) in
  if gt_double (getValue arm_conf_ (2 * i + 1)) F64.lit_0_99 && truthy v
  then (<[i := 0]> st.1, wrap32 (st.2 - 1))
  else (<[i := v]> st.1, st.2).

Definition negative_filter (anchors_num : nat) (num_positive : Z)
    (positive_mask_b : list Z) (arm_conf_ : tensor) : list Z * Z :=
  foldl (negative_filter_step positive_mask_b arm_conf_)
    (replicate anchors_num 0, wrap32 (Z.of_nat anchors_num - num_positive))
    (seq 0 anchors_num).

(** The mining loop: it walks the sorted pairs while the negative count
    exceeds three times the positive count. *)
Fixpoint mining_loop (num_positive : Z) (sorted : list (nat * float))
    (st : list Z * Z) : list Z * Z :=
  match sorted with
  | [] => st
  | (idx, _) :: rest =>
      if wrap32 (3 * num_positive) <? st.2
      then mining_loop num_positive rest
             (if truthy (st.1 !!! idx)
              then (<[idx := 0]> st.1, wrap32 (st.2 - 1))
              else st)
      else st
  end.

Definition hard_negative_mining (num_positive : Z) (positive_mask_b : list Z)
    (arm_conf_ : tensor) (st : list Z * Z) : list Z * Z :=
  let arm_loss_per_anchor := cross_entropy_per_anchor arm_conf_ positive_mask_b in
  let arm_loss_per_anchor :=
    std_sort (fun v1 v2 => F32.ltb v1.2 v2.2) arm_loss_per_anchor in
  if wrap32 (3 * num_positive) <? st.2
  then mining_loop num_positive arm_loss_per_anchor st
  else st.

(** *** ODM mask and class labels (lines 458-478) *)

Definition odm_labels (anchors_num : nat) (positive_mask_b negative_mask : list Z)
    (idx : list Z) (gt_class_ : tensor) : list Z * list Z :=
  foldl (fun (st : list Z * list Z) i =>
           (<[i := wrap32 (positive_mask_b !!! i + negative_mask !!! i)]> st.1,
            if truthy (negative_mask !!! i)
            then <[i := 0]> st.2
            else <[i := Z.of_nat (max_element (gt_class_ !!! Z.to_nat (idx !!! i)))]>
                   st.2))
    (replicate anchors_num 0, replicate anchors_num 0) (seq 0 anchors_num).

(** *** Splitting the input and label tensors *)

(** One field of [Tensor::split({..}, 3)]: [n] columns from column [off]. *)
Definition split_w (off n : nat) (t : tensor) : tensor :=
  map (fun r => take n (drop off r)) t.

Definition arm_yx_of (input_b : tensor) : tensor := split_w 0 2 input_b.
Definition arm_hw_of (input_b : tensor) : tensor := split_w 2 2 input_b.
Definition arm_conf_of (input_b : tensor) : tensor := split_w 4 2 input_b.
Definition odm_yx_of (input_b : tensor) : tensor := split_w 6 2 input_b.
Definition odm_hw_of (input_b : tensor) : tensor := split_w 8 2 input_b.
Definition odm_conf_of (input_b : tensor) : tensor :=
  split_w 10 num_classes input_b.

Definition gt_is_label_of (gt_b : tensor) : tensor := split_w 0 1 gt_b.
Definition gt_class_of (gt_b : tensor) : tensor := split_w 5 num_classes gt_b.

(** Lines 302-305: corners to centre and size, in place. *)
Definition gt_yx_of (gt_b : tensor) : tensor :=
  tzip (fun a b => F32.div (F32.add a b) (F32.of_Z 2))
    (split_w 1 2 gt_b) (split_w 3 2 gt_b).
Definition gt_hw_of (gt_b : tensor) : tensor :=
  tzip (fun b c => F32.mul (F32.sub b c) (F32.of_Z 2))
    (split_w 3 2 gt_b) (gt_yx_of gt_b).

(** Lines 310-318: the presence flags are read by flat index from the
    label tensor of the whole batch; the loop stops at the first zero. *)
Fixpoint count_gt_boxes (gt_is_label : list float) (idxs : list nat) : nat :=
  match idxs with
  | [] => 0%nat
  | i :: rest =>
      if SFeqb (gt_is_label !!! i) F32.zero then 0%nat
      else S (count_gt_boxes gt_is_label rest)
  end.

Definition num_gt_boxes_of (gt : list (list (list spec_float))) : nat :=
  count_gt_boxes (concat (concat (map gt_is_label_of gt))) (seq 0 max_gt_boxes).

(** *** Regression targets (lines 395-399 and 658-662) *)

Definition gt_yx_ratio (anchors : tensor * tensor) (lab_yx : tensor) : tensor :=
  tzip F32.div (tzip F32.sub lab_yx anchors.1) anchors.2.

(** [log_] of [forwarding]: [(float)log(1e-20 + val)]. *)
Definition gt_hw_log (anchors : tensor * tensor) (lab_hw : tensor) : tensor :=
  tmap (fun val => F32.of_double (log (F64.add F64.lit_1e_20 (F64.of_float val))))
    (tzip F32.div lab_hw anchors.2).

(** [log_] of [calcDerivative]: [(float)log(val + 1e-20)]. *)
Definition gt_hw_log' (anchors : tensor * tensor) (lab_hw : tensor) : tensor :=
  tmap (fun val => F32.of_double (log_eps val)) (tzip F32.div lab_hw anchors.2).

(** *** One batch item of [forwarding] (lines 329-508) *)

Record item_result := mkItem {
  it_positive_mask : list Z;
  it_pos_neg_mask : list Z;
  it_label_yx : list (list spec_float);
  it_label_hw : list (list spec_float);
  it_gt_class_labels : list Z;
  it_num_positive : Z;
  it_negative_mask : list Z;
  it_num_negative : Z;
  it_output : spec_float
}.

(** [if (n) output.add_i(v / n)]. *)
Definition add_if_positive (n : Z) (output v : float) : float :=
  if truthy n then F32.add output (F32.div v (F32.of_Z n)) else output.

Definition forwarding_item (num_gt_boxes : nat) (anchors : tensor * tensor)
    (input_b gt_b : tensor) (output : float) : item_result :=
  let anchors_num := length anchors.1 in
  let arm_conf_ := arm_conf_of input_b in
  let odm_conf_ := odm_conf_of input_b in
  (* matching *)
  let m := match_anchors num_gt_boxes anchors (gt_yx_of gt_b) (gt_hw_of gt_b) in
  let num_positive := wrap32 (Z.of_nat (size (positive_idx_set m))) in
  let positive_mask_b := make_positive_mask anchors_num (positive_idx_set m) in
  (* ARM loss *)
  let output :=
    if truthy num_positive
    then F32.add output
           (F32.div (F32.div (cross_entropy arm_conf_ positive_mask_b)
                       (F32.of_Z num_positive)) arm_conf_loss_divider)
    else output in
  let gt_yxhw :=
    cat_w (gt_yx_ratio anchors (label_yx m)) (gt_hw_log anchors (label_hw m)) in
  let arm_yxhw := cat_w (arm_yx_of input_b) (arm_hw_of input_b) in
  let output :=
    add_if_positive num_positive output (smooth_l1 arm_yxhw gt_yxhw positive_mask_b) in
  (* ODM loss: negative filtering, hard negative mining *)
  let neg := negative_filter anchors_num num_positive positive_mask_b arm_conf_ in
  let neg := hard_negative_mining num_positive positive_mask_b arm_conf_ neg in
  let odm_yxhw := cat_w (odm_yx_of input_b) (odm_hw_of input_b) in
  let lab :=
    odm_labels anchors_num positive_mask_b neg.1 (anchor_gt_label_idx m)
      (gt_class_of gt_b) in
  let output :=
    add_if_positive num_positive output
      (cross_entropy_with_mask odm_conf_ lab.1 lab.2) in
  let output :=
    add_if_positive num_positive output (smooth_l1 odm_yxhw gt_yxhw positive_mask_b) in
  mkItem positive_mask_b lab.1 (label_yx m) (label_hw m) lab.2 num_positive
    neg.1 neg.2 output.

(** *** [forwarding] (lines 278-539) *)

Definition empty_state : RefineDetLoss := mkRefineDetLoss [] [] [] [] [] [].

(** The [push_back]s of one batch item. *)
Definition push_item (st : RefineDetLoss) (r : item_result) : RefineDetLoss :=
  mkRefineDetLoss
    (positive_mask st ++ [it_positive_mask r])
    (pos_neg_mask st ++ [it_pos_neg_mask r])
    (anchor_gt_label_yx st ++ [it_label_yx r])
    (anchor_gt_label_hw st ++ [it_label_hw r])
    (gt_class_labels st ++ [it_gt_class_labels r])
    (num_positive_anchors st ++ [it_num_positive r]).

Definition forwarding_step (num_gt_boxes : nat) (anchors : tensor * tensor)
    (input gt : list (list (list spec_float)))
    (acc : RefineDetLoss * spec_float) (b : nat) : RefineDetLoss * spec_float :=
  let r := forwarding_item num_gt_boxes anchors (input !!! b) (gt !!! b) acc.2 in
  (push_item acc.1 r, it_output r).

(** The new layer state and the loss handed to [updateLoss]. *)
Definition forwarding (input gt : list (list (list spec_float)))
  : RefineDetLoss * spec_float :=
  let anchors := create_anchors in
  let num_gt_boxes := num_gt_boxes_of gt in
  let acc :=
    foldl (forwarding_step num_gt_boxes anchors input gt)
      (empty_state, F32.zero) (seq 0 (length input)) in
  (acc.1, F32.div acc.2 (F32.of_Z (Z.of_nat (length input)))).

(** *** Derivatives (lines 542-604) *)

(** The one-hot [label] tensor: [l.size()] rows of [x.width()] zeros
    with a 1 written at column [l[i]]. *)
Definition one_hot (width : nat) (l : list Z) : tensor :=
  map (fun v => <[Z.to_nat v := F32.of_Z 1]> (replicate width F32.zero)) l.

Definition tensor_width (x : tensor) : nat := length (x !!! 0%nat).

Definition cross_entropy_derivative (x : tensor) (l : list Z)
    (num_positive_anchors : Z) : tensor :=
  let x_deriv := softmax x in
  let label := one_hot (tensor_width x) l in
  let x_deriv := tzip F32.sub x_deriv label in
  tmap (fun v => F32.div v (F32.of_Z num_positive_anchors)) x_deriv.

(** Rows whose mask entry is zero are overwritten with zeros. *)
Definition zero_rows (mask : list Z) (x : tensor) : tensor :=
  imap (fun i r => if truthy (mask !!! i) then r else map (fun _ => F32.zero) r) x.

Definition cross_entropy_with_mask_derivative (x : tensor) (mask l : list Z)
    (num_positive_anchors : Z) : tensor :=
  let x_deriv := softmax x in
  let label := one_hot (tensor_width x) l in
  let x_deriv := tzip F32.sub x_deriv label in
  let x_deriv := zero_rows mask x_deriv in
  tmap (fun v => F32.div v (F32.of_Z num_positive_anchors)) x_deriv.

(** The element function of [smooth_l1_derivative]. *)
Definition smooth_l1_derivative_elem (val : float) : float :=
  if F32.ltb (F32.of_Z (-1)) val && F32.ltb val (F32.of_Z 1) then val
  else if F32.ltb val F32.zero then F32.of_Z (-1)
  else if F32.ltb F32.zero val then F32.of_Z 1
  else F32.zero.

(** The two halves of the width returned through [x_deriv1], [x_deriv2]. *)
Definition smooth_l1_derivative (x y : tensor) (l : list Z) : tensor * tensor :=
  let x := tzip F32.sub x y in
  let x := tmap smooth_l1_derivative_elem x in
  let x := zero_rows l x in
  let half := (tensor_width x / 2)%nat in
  (split_w 0 half x, split_w half half x).

(** [Tensor::divide_i(value)] and [Tensor::setZero()].  The tensor class
    is not part of the sources; [divide_i] is taken as the element-wise
    binary32 division, whatever the divisor. *)
Definition divide_i (t : tensor) (value : float) : tensor :=
  tmap (fun v => F32.div v value) t.

Definition setZero (t : tensor) : tensor := tmap (fun _ => F32.zero) t.

(** *** [calcDerivative] (lines 606-690) *)

(** Lines 676-684: the four box-regression blocks of one batch item. *)
Definition box_derivatives (arm_yxhw odm_yxhw gt_yxhw : tensor)
    (positive_mask_b : list Z) (num_positive : Z)
  : (tensor * tensor) * (tensor * tensor) :=
  let arm := smooth_l1_derivative arm_yxhw gt_yxhw positive_mask_b in
  let arm_yx_deriv_ := divide_i arm.1 (F32.of_Z num_positive) in
  let arm_hw_deriv_ := divide_i arm.2 (F32.of_Z num_positive) in
  let odm := smooth_l1_derivative odm_yxhw gt_yxhw positive_mask_b in
  let odm_yx_deriv_ := divide_i odm.1 (F32.of_Z num_positive) in
  let odm_hw_deriv_ := divide_i odm.2 (F32.of_Z num_positive) in
  let odm_hw_deriv_ := setZero odm_hw_deriv_ in
  ((arm_yx_deriv_, arm_hw_deriv_), (odm_yx_deriv_, odm_hw_deriv_)).

Record item_derivative := mkDeriv {
  arm_yx_deriv_ : list (list spec_float);
  arm_hw_deriv_ : list (list spec_float);
  arm_conf_deriv_ : list (list spec_float);
  odm_yx_deriv_ : list (list spec_float);
  odm_hw_deriv_ : list (list spec_float);
  odm_conf_deriv_ : list (list spec_float)
}.

Definition calcDerivative_item (self : RefineDetLoss) (anchors : tensor * tensor)
    (input_b : tensor) (b : nat) : item_derivative :=
  let num_positive := num_positive_anchors self !!! b in
  let positive_mask_b := positive_mask self !!! b in
  (* the divisor is passed as [unsigned int]: count * divider, truncated *)
  let arm_conf_d :=
    cross_entropy_derivative (arm_conf_of input_b) positive_mask_b
      (F32.to_unsigned (F32.mul (F32.of_Z num_positive) arm_conf_loss_divider)) in
  let gt_yxhw :=
    cat_w (gt_yx_ratio anchors (anchor_gt_label_yx self !!! b))
      (gt_hw_log' anchors (anchor_gt_label_hw self !!! b)) in
  let arm_yxhw := cat_w (arm_yx_of input_b) (arm_hw_of input_b) in
  let odm_yxhw := cat_w (odm_yx_of input_b) (odm_hw_of input_b) in
  let box := box_derivatives arm_yxhw odm_yxhw gt_yxhw positive_mask_b num_positive in
  let odm_conf_d :=
    cross_entropy_with_mask_derivative (odm_conf_of input_b)
      (pos_neg_mask self !!! b) (gt_class_labels self !!! b) num_positive in
  mkDeriv box.1.1 box.1.2 arm_conf_d box.2.1 box.2.2 odm_conf_d.

(** [Tensor::cat({...}, 3)] of the six blocks of one item. *)
Definition cat_item (d : item_derivative) : tensor :=
  cat_w (cat_w (cat_w (cat_w (cat_w (arm_yx_deriv_ d) (arm_hw_deriv_ d))
    (arm_conf_deriv_ d)) (odm_yx_deriv_ d)) (odm_hw_deriv_ d)) (odm_conf_deriv_ d).

(** The outgoing derivative, one [1,1,A,31] slice per batch item. *)
Definition calcDerivative (self : RefineDetLoss)
    (input : list (list (list spec_float))) : list (list (list spec_float)) :=
  let anchors := create_anchors in
  map (fun b => cat_item (calcDerivative_item self anchors (input !!! b) b))
    (seq 0 (length input)).

End Layer.

(** * Vocabulary of the statements *)

Local Close Scope Z_scope.
Local Open Scope nat_scope.

(** ** Anchor grid *)

(** The four scales of [create_anchors]: anchor size, stride, grid size. *)
Definition scale_table : list (nat * nat * nat) :=
  [(32, 8, 28); (64, 16, 14); (128, 32, 4); (256, 64, 2)].

(** The number of anchors of the scales before scale [s]. *)
Definition scale_offset (s : nat) : nat :=
  sum_list (take s (map (fun p => 3 * p.2 * p.2) scale_table)).

(** The position of (scale, ratio, row, column) in the generated tensors. *)
Definition anchor_index (s fm k h w : nat) : nat :=
  scale_offset s + (k * fm + h) * fm + w.

(** [c] is finite and its exact value is [(i + 1/2) * stride]. *)
Definition center_exact (c : spec_float) (i stride : nat) : Prop :=
  F32.is_finite c = true /\
  (SF2Q c == (inject_Z (Z.of_nat i) + (1 # 2)) * inject_Z (Z.of_nat stride))%Q.

Definition center_exactb (c : spec_float) (i stride : nat) : bool :=
  F32.is_finite c &&
  Qeq_bool (SF2Q c) ((inject_Z (Z.of_nat i) + (1 # 2)) * inject_Z (Z.of_nat stride))%Q.

Definition centers_okb (stride fm : nat) : bool :=
  forallb (fun h => forallb (fun w =>
     center_exactb (anchor_yx_value stride 0 h w 0) h stride
     && center_exactb (anchor_yx_value stride 0 h w 1) w stride) (seq 0 fm))
    (seq 0 fm).

(** The sizes of ratio [r] at anchor size [base], as the code computes them. *)
Definition prior_hw (base : nat) (r : spec_float) : list spec_float :=
  [F32.mul (F32.of_Z (Z.of_nat base)) (pow_half r);
   F32.div (F32.of_Z (Z.of_nat base)) (pow_half r)].

(** [sh] and [sw] are [base * sqrt r] and [base / sqrt r] up to the
    rounding of binary32: their squares are within a relative 2^-21 of
    [base^2 * r] and [base^2 / r]. *)
Definition size_close (base : nat) (r sh sw : spec_float) : Prop :=
  let b2 := (inject_Z (Z.of_nat base) * inject_Z (Z.of_nat base))%Q in
  F32.is_finite sh = true /\ F32.is_finite sw = true /\
  (Qabs (SF2Q sh * SF2Q sh - b2 * SF2Q r) <= b2 * SF2Q r * (1 # 2097152))%Q /\
  (Qabs (SF2Q sw * SF2Q sw * SF2Q r - b2) <= b2 * (1 # 2097152))%Q.

Definition size_closeb (base : nat) (r sh sw : spec_float) : bool :=
  let b2 := (inject_Z (Z.of_nat base) * inject_Z (Z.of_nat base))%Q in
  F32.is_finite sh && F32.is_finite sw &&
  Qle_bool (Qabs (SF2Q sh * SF2Q sh - b2 * SF2Q r)) (b2 * SF2Q r * (1 # 2097152)) &&
  Qle_bool (Qabs (SF2Q sw * SF2Q sw * SF2Q r - b2)) (b2 * (1 # 2097152)).

(** The ordering (scale, row, column, ratio): the anchor of cell (h, w)
    and ratio k of a scale would sit at offset [(h * fm + w) * 3 + k]. *)
Definition ratio_fastest_layout : Prop :=
  forall s base stride fm k r h w,
    scale_table !! s = Some (base, stride, fm) ->
    anchor_ratios !! k = Some r -> h < fm -> w < fm ->
    exists cy cx,
      create_anchors.1 !! (scale_offset s + (h * fm + w) * 3 + k) = Some [cy; cx] /\
      center_exact cy h stride /\ center_exact cx w stride /\
      create_anchors.2 !! (scale_offset s + (h * fm + w) * 3 + k)
        = Some [F32.mul (F32.of_Z (Z.of_nat base)) (pow_half r);
                F32.div (F32.of_Z (Z.of_nat base)) (pow_half r)].

(** ** The order of [SFcompare] *)

(** A float that is not NaN, as a point of a lexicographic order:
    class (-2 for -inf, -1 negative, 0 zero, 1 positive, 2 for +inf),
    then exponent, then mantissa, the last two negated for negative
    numbers. *)
Definition rank (x : spec_float) : option (Z * Z * Z) :=
  match x with
  | S754_nan => None
  | S754_zero _ => Some (0, 0, 0)%Z
  | S754_infinity true => Some (-2, 0, 0)%Z
  | S754_infinity false => Some (2, 0, 0)%Z
  | S754_finite false m e => Some (1, e, Zpos m)%Z
  | S754_finite true m e => Some (-1, - e, - Zpos m)%Z
  end.

Definition lex_lt (a b : Z * Z * Z) : Prop :=
  (a.1.1 < b.1.1 \/ (a.1.1 = b.1.1 /\ (a.1.2 < b.1.2 \/ (a.1.2 = b.1.2 /\ a.2 < b.2))))%Z.

Definition lex_le (a b : Z * Z * Z) : Prop := lex_lt a b \/ a = b.

(** ** Matching *)

(** The recorded match of anchor [i]: ground-truth index, IoU, target
    centre and target size. *)
Definition entry (st : match_state) (i : nat)
  : Z * spec_float * list spec_float * list spec_float :=
  (anchor_gt_label_idx st !!! i, anchor_gt_label_iou st !!! i,
   label_yx st !!! i, label_hw st !!! i).

(** The match the loop records for ground truth [gt]. *)
Definition entry_of_gt (gt : nat) (v : spec_float) (gt_yx_ gt_hw_ : list (list spec_float))
  : Z * spec_float * list spec_float * list spec_float :=
  (Z.of_nat gt, v,
   [(gt_yx_ !!! gt) !!! 0; (gt_yx_ !!! gt) !!! 1],
   [(gt_hw_ !!! gt) !!! 0; (gt_hw_ !!! gt) !!! 1]).

(** The entry of an anchor no ground truth has been recorded for. *)
Definition entry_none : Z * spec_float * list spec_float * list spec_float :=
  (0%Z, F32.zero, [F32.zero; F32.zero], [F32.zero; F32.zero]).

Definition arrays_sized (A : nat) (st : match_state) : Prop :=
  length (anchor_gt_label_idx st) = A /\ length (anchor_gt_label_iou st) = A /\
  length (label_yx st) = A /\ length (label_hw st) = A.

(** The IoU of anchor [i] with ground truth [j], as the loop reads it. *)
Definition iou_at (anchors : list (list spec_float) * list (list spec_float))
    (gt_yx_ gt_hw_ : list (list spec_float)) (j i : nat) : spec_float :=
  calc_iou anchors.1 anchors.2 [gt_yx_ !!! j] [gt_hw_ !!! j] !!! i.

(** After a prefix of [k >= 1] ground truths every anchor records the
    earliest ground truth of maximal IoU: its index, IoU, centre and size. *)
Definition records_best_ground_truth : Prop :=
  forall (gt_yx_ gt_hw_ : list (list spec_float)) (k i : nat),
    0 < k -> i < num_anchors ->
    exists j, j < k /\
      (forall j', j' < k ->
         F32.ltb (iou_at create_anchors gt_yx_ gt_hw_ j i)
           (iou_at create_anchors gt_yx_ gt_hw_ j' i) = false) /\
      (forall j', j' < j ->
         F32.leb (iou_at create_anchors gt_yx_ gt_hw_ j i)
           (iou_at create_anchors gt_yx_ gt_hw_ j' i) = false) /\
      entry (match_anchors k create_anchors gt_yx_ gt_hw_) i
        = entry_of_gt j (iou_at create_anchors gt_yx_ gt_hw_ j i) gt_yx_ gt_hw_.

(** Centres and sizes of five ground-truth slots: a box of centre
    (175, 175) and size (50, 50) followed by four empty slots. *)
Definition far_gt_yx : list (list spec_float) :=
  [F32.of_Z 175; F32.of_Z 175] :: replicate 4 [F32.zero; F32.zero].
Definition far_gt_hw : list (list spec_float) :=
  [F32.of_Z 50; F32.of_Z 50] :: replicate 4 [F32.zero; F32.zero].

(** ** Masks and counts *)

(** The number of non-zero entries of a mask. *)
Definition count_nz (l : list Z) : nat := length (filter (fun v => v <> 0%Z) l).

(** The number of zero entries. *)
Definition count_z (l : list Z) : nat := length l - count_nz l.

Definition is_mask (l : list Z) : Prop := Forall (fun v => v = 0%Z \/ v = 1%Z) l.

(** The test of line 413 on anchor [i]. *)
Definition confident (arm_conf_ : list (list spec_float)) (i : nat) : bool :=
  gt_double (getValue arm_conf_ (2 * i + 1)) F64.lit_0_99.

(** The non-positive anchors among the first [n] that pass the test. *)
Definition filtered_out (positive_mask_b : list Z)
    (arm_conf_ : list (list spec_float)) (n : nat) : list nat :=
  filter (fun i => positive_mask_b !!! i = 0%Z /\ confident arm_conf_ i = true)
    (seq 0 n).

(** The state of the filter loop after [n] anchors. *)
Definition filter_inv (A : nat) (positive_mask_b : list Z)
    (arm_conf_ : list (list spec_float)) (n : nat) (st : list Z * Z) : Prop :=
  length st.1 = A /\ is_mask st.1 /\
  (forall i, n <= i -> i < A -> st.1 !!! i = 0%Z) /\
  (forall i, i < n ->
     st.1 !!! i = if decide (positive_mask_b !!! i = 0%Z)
                  then (if confident arm_conf_ i then 0%Z else 1%Z) else 0%Z) /\
  (st.2 = Z.of_nat A - Z.of_nat (count_nz positive_mask_b)
          - Z.of_nat (count_z (take n positive_mask_b))
          + Z.of_nat (count_nz st.1))%Z /\
  (st.2 = Z.of_nat A - Z.of_nat (count_nz positive_mask_b)
          - Z.of_nat (length (filtered_out positive_mask_b arm_conf_ n)))%Z.

(** What the miner keeps true of the negative mask and its count. *)
Definition mining_inv (A : nat) (positive_mask_b : list Z) (st : list Z * Z) : Prop :=
  length st.1 = A /\ is_mask st.1 /\ st.2 = Z.of_nat (count_nz st.1) /\
  forall i, i < A -> st.1 !!! i <> 0%Z -> positive_mask_b !!! i = 0%Z.

(** The background probability of anchor [i] under a softmax. *)
Definition background_probability
    (softmax : list (list spec_float) -> list (list spec_float))
    (arm_conf_ : list (list spec_float)) (i : nat) : spec_float :=
  (softmax arm_conf_ !!! i) !!! 0.

(** No positive anchor. *)
Definition no_positive_mask : list Z := replicate 3000 0%Z.

(** ARM confidence logits of [num_anchors] anchors: (5, 5) at anchor 0,
    (0, 5) at anchor 1, (5, 0) at anchor 2 and (5, 5) at the others;
    channel 0 is the background class, channel 1 the object class. *)
Definition probe_logits : list (list spec_float) :=
  [F32.of_Z 5; F32.of_Z 5] :: [F32.zero; F32.of_Z 5] :: [F32.of_Z 5; F32.zero]
  :: replicate 2997 [F32.of_Z 5; F32.of_Z 5].

(** ** Gradients *)

Definition has_width (w : nat) (t : list (list spec_float)) : Prop :=
  Forall (fun r => length r = w) t.

(** The gradient element of lines 579-595 followed by the division of
    lines 677-683: the clamped difference, zeroed where the mask is zero,
    divided by the positive count. *)
Definition masked_grad (mask : list Z) (n : Z) (i : nat) (pred target : spec_float)
  : spec_float :=
  F32.div (if truthy (mask !!! i)
           then smooth_l1_derivative_elem (F32.sub pred target)
           else F32.zero)
    (F32.of_Z n).

(** ** Batches *)

(** The positive count [forwarding] stores for an item matched against
    its first [n] ground-truth slots. *)
Definition item_num_positive (n : nat) (gt_b : list (list spec_float)) : Z :=
  wrap32 (Z.of_nat (size (positive_idx_set
    (match_anchors n create_anchors (gt_yx_of gt_b) (gt_hw_of gt_b))))).

(** A prediction item: [num_anchors] rows of 31 zeros. *)
Definition zero_item : list (list spec_float) := replicate 3000 (replicate 31 F32.zero).

(** A label item without boxes: 5 rows of 26 zeros (presence flag 0). *)
Definition no_box_item : list (list spec_float) := replicate 5 (replicate 26 F32.zero).

(** A label item with one present box, corners (50, 50) and (150, 150),
    class 1. *)
Definition one_box_item : list (list spec_float) :=
  ([F32.of_Z 1; F32.of_Z 50; F32.of_Z 50; F32.of_Z 150; F32.of_Z 150]
     ++ <[1 := F32.of_Z 1]> (replicate 21 F32.zero))
  :: replicate 4 (replicate 26 F32.zero).

(** The float nearest to [a / b]. *)
Definition f32_q (a b : Z) : spec_float := F32.div (F32.of_Z a) (F32.of_Z b).

(** A label item with one present box, corners (16, 16) and (144, 144),
    class 1: the box of anchor 2966 (scale 128, ratio 1, cell (2, 2)). *)
Definition anchor_box_item : list (list spec_float) :=
  ([F32.of_Z 1; F32.of_Z 16; F32.of_Z 16; F32.of_Z 144; F32.of_Z 144]
     ++ <[1 := F32.of_Z 1]> (replicate 21 F32.zero))
  :: replicate 4 (replicate 26 F32.zero).

(** The predictions of one anchor: ARM centre offsets (1/2, -1/2), ARM
    size offsets (2, -3), zero ARM logits, ODM centre offsets (1/4, 3), ODM
    size offsets (3, -3), zero class logits. *)
Definition probe_row : list spec_float :=
  [f32_q 1 2; f32_q (-1) 2; F32.of_Z 2; F32.of_Z (-3); F32.zero; F32.zero;
   f32_q 1 4; F32.of_Z 3; F32.of_Z 3; F32.of_Z (-3)]
  ++ replicate 21 F32.zero.

(** A prediction item: [probe_row] at anchor 2966, zeros elsewhere. *)
Definition probe_item : list (list spec_float) := <[2966 := probe_row]> zero_item.

(** ** Stand-ins for the external functions in concrete evaluations *)

(** An insertion sort, one admissible behaviour of [std::sort]. *)
Fixpoint insert_by {A} (cmp : A -> A -> bool) (x : A) (l : list A) : list A :=
  match l with
  | [] => [x]
  | y :: r => if cmp x y then x :: l else y :: insert_by cmp x r
  end.

Definition insertion_sort {A} (cmp : A -> A -> bool) (l : list A) : list A :=
  foldr (insert_by cmp) [] l.

(** The exponential as a truncated Taylor series evaluated in [double]. *)
Definition exp_series (x : spec_float) : spec_float :=
  (foldl (fun (st : spec_float * spec_float) k =>
            let term := F64.div (F64.mul st.2 x) (F64.of_Z (Z.of_nat k)) in
            (F64.add st.1 term, term))
     (F64.of_Z 1, F64.of_Z 1) (seq 1 30)).1.

(** A softmax over one row: the maximum of the row is subtracted, the
    exponentials are normalised by their sum.
    Modelled from the spec: [ActiFunc::softmax] is not part of the sources. *)
Definition softmax_row (r : list spec_float) : list spec_float :=
  let m := foldl std_max (r !!! 0) r in
  let e := map (fun v => exp_series (F64.of_float (F32.sub v m))) r in
  let s := foldl F64.add (S754_zero false) e in
  map (fun ev => F32.of_double (F64.div ev s)) e.

Definition softmax_ref (x : list (list spec_float)) : list (list spec_float) :=
  map softmax_row x.

(** ** Shapes, tables and boxes of the further properties *)

(** A tensor of [h] rows of [w] columns. *)
Definition has_shape (h w : nat) (t : list (list spec_float)) : Prop :=
  length t = h /\ has_width w t.

(** The six cached vectors hold one entry per batch item; the masks and
    labels of an item have one entry per anchor and its targets are
    [A] rows of two columns. *)
Definition cache_shape (B A : nat) (st : RefineDetLoss) : Prop :=
  (length (positive_mask st) = B /\
   Forall (fun m => length m = A) (positive_mask st)) /\
  (length (pos_neg_mask st) = B /\ Forall (fun m => length m = A) (pos_neg_mask st)) /\
  (length (anchor_gt_label_yx st) = B /\ Forall (has_shape A 2) (anchor_gt_label_yx st)) /\
  (length (anchor_gt_label_hw st) = B /\ Forall (has_shape A 2) (anchor_gt_label_hw st)) /\
  (length (gt_class_labels st) = B /\ Forall (fun m => length m = A) (gt_class_labels st)) /\
  length (num_positive_anchors st) = B.

Definition zero_quotient_okb (k : nat) : bool :=
  match F32.div F32.zero (F32.of_Z (Z.of_nat (S k))) with
  | S754_zero false => true
  | _ => false
  end.

(** The centre and the size lines 302-305 compute from the corner
    coordinates [a] and [b] of one axis. *)
Definition centre_of (a b : spec_float) : spec_float :=
  F32.div (F32.add a b) (F32.of_Z 2).

Definition size_of (a b : spec_float) : spec_float :=
  F32.mul (F32.sub b (centre_of a b)) (F32.of_Z 2).

(** Both are finite and exact: [(a + b) / 2] and [b - a]. *)
Definition conversion_exact (a b : nat) : Prop :=
  let fa := F32.of_Z (Z.of_nat a) in
  let fb := F32.of_Z (Z.of_nat b) in
  F32.is_finite (centre_of fa fb) = true /\
  F32.is_finite (size_of fa fb) = true /\
  (SF2Q (centre_of fa fb) == (inject_Z (Z.of_nat a) + inject_Z (Z.of_nat b)) / 2)%Q /\
  (SF2Q (size_of fa fb) == inject_Z (Z.of_nat b) - inject_Z (Z.of_nat a))%Q.

(** The pixel coordinates 0 .. 224 (28 cells of stride 8) as floats. *)
Definition pixel_floats : list (nat * spec_float) :=
  map (fun a => (a, F32.of_Z (Z.of_nat a))) (seq 0 225).

Definition conversion_exactb (p q : nat * spec_float) : bool :=
  let c := centre_of p.2 q.2 in
  let s := F32.mul (F32.sub q.2 c) (F32.of_Z 2) in
  F32.is_finite c && F32.is_finite s &&
  Qeq_bool (SF2Q c) ((inject_Z (Z.of_nat p.1) + inject_Z (Z.of_nat q.1)) / 2)%Q &&
  Qeq_bool (SF2Q s) (inject_Z (Z.of_nat q.1) - inject_Z (Z.of_nat p.1))%Q.

(** A row of two finite floats above zero. *)
Definition positive_pair (r : list spec_float) : Prop :=
  exists a b, r = [a; b] /\
    F32.is_finite a = true /\ F32.is_finite b = true /\
    F32.ltb F32.zero a = true /\ F32.ltb F32.zero b = true.

Definition positive_pairb (r : list spec_float) : bool :=
  match r with
  | [a; b] => F32.is_finite a && F32.is_finite b
              && F32.ltb F32.zero a && F32.ltb F32.zero b
  | _ => false
  end.

(** * Tensors built by tabulation *)

Lemma lookup_tabulate {A} (n : nat) (f : nat -> A) (i : nat) :
  i < n -> tabulate n f !! i = Some (f i).
Proof.
  intros Hi. unfold tabulate.
  change (map f (seq 0 n)) with (f <$> seq 0 n).
  rewrite list_lookup_fmap, lookup_seq_lt by done. done.
Qed.

Lemma length_tabulate {A} (n : nat) (f : nat -> A) : length (tabulate n f) = n.
Proof. unfold tabulate. now rewrite length_map, length_seq. Qed.

Lemma lookup_concat_blocks {A} (ls : list (list A)) (m i j : nat) (l : list A) :
  Forall (fun l => length l = m) ls -> ls !! i = Some l -> j < m ->
  concat ls !! (i * m + j) = l !! j.
Proof.
  intros Hall. revert i. induction Hall as [|x ls Hx Hall IH]; intros i Hl Hj.
  - done.
  - destruct i as [|i]; simpl in *.
    + injection Hl as ->. rewrite lookup_app_l by lia. done.
    + rewrite lookup_app_r by lia.
      replace (m + i * m + j - length x) with (i * m + j) by lia. auto.
Qed.

Lemma length_concat_blocks {A} (ls : list (list A)) (m : nat) :
  Forall (fun l => length l = m) ls -> length (concat ls) = length ls * m.
Proof. induction 1; simpl; [done|]. rewrite length_app. lia. Qed.

Lemma Forall_tabulate {A} (P : A -> Prop) (n : nat) (f : nat -> A) :
  (forall i, i < n -> P (f i)) -> Forall P (tabulate n f).
Proof.
  intros H. apply Forall_forall. intros x Hx. unfold tabulate in Hx.
  apply list_elem_of_In, in_map_iff in Hx. destruct Hx as (i & <- & Hi).
  apply in_seq in Hi. apply H. lia.
Qed.

Lemma Forall_concat_blocks {A} (P : A -> Prop) (ls : list (list A)) :
  Forall (Forall P) ls -> Forall P (concat ls).
Proof. induction 1; simpl; [constructor|]. apply Forall_app; auto. Qed.

Lemma lookup_reshape_tensor4 (n c h : nat) f (b i j : nat) :
  b < n -> i < c -> j < h ->
  reshape_rows (tensor4 n c h 2 f) !! ((b * c + i) * h + j)
  = Some [f b i j 0; f b i j 1].
Proof.
  intros Hb Hi Hj. unfold reshape_rows, tensor4.
  rewrite (lookup_concat_blocks _ h ((b * c) + i) j
             (tabulate h (fun k => tabulate 2 (f b i k)))).
  - rewrite lookup_tabulate by done. done.
  - apply Forall_concat_blocks, Forall_tabulate. intros b' _.
    apply Forall_tabulate. intros i' _. apply length_tabulate.
  - rewrite (lookup_concat_blocks _ c b i
               (tabulate c (fun j0 => tabulate h (fun k => tabulate 2 (f b j0 k))))).
    + rewrite lookup_tabulate by done. done.
    + apply Forall_tabulate. intros b' _. apply length_tabulate.
    + rewrite lookup_tabulate by done. done.
    + done.
  - done.
Qed.

Lemma length_reshape_tensor4 (n c h : nat) f :
  length (reshape_rows (tensor4 n c h 2 f)) = n * c * h.
Proof.
  unfold reshape_rows, tensor4.
  rewrite (length_concat_blocks _ h).
  - rewrite (length_concat_blocks _ c).
    + now rewrite length_tabulate.
    + apply Forall_tabulate. intros b' _. apply length_tabulate.
  - apply Forall_concat_blocks, Forall_tabulate. intros b' _.
    apply Forall_tabulate. intros i' _. apply length_tabulate.
Qed.

(** * Anchor centres *)

Lemma center_exactb_spec c i stride :
  center_exactb c i stride = true -> center_exact c i stride.
Proof.
  unfold center_exactb, center_exact. intros H.
  apply andb_true_iff in H as [H1 H2]. split; [done|]. now apply Qeq_bool_iff.
Qed.

Lemma forallb_seq_lt (P : nat -> bool) (n i : nat) :
  forallb P (seq 0 n) = true -> i < n -> P i = true.
Proof.
  intros H Hi. rewrite forallb_forall in H. apply H, in_seq. lia.
Qed.

Lemma centers_ok_table :
  forallb (fun p => centers_okb p.1.2 p.2) scale_table = true.
Proof. vm_compute. reflexivity. Qed.

Lemma anchor_yx_value_exact s base stride fm b h w :
  scale_table !! s = Some (base, stride, fm) -> h < fm -> w < fm ->
  center_exact (anchor_yx_value stride b h w 0) h stride /\
  center_exact (anchor_yx_value stride b h w 1) w stride.
Proof.
  intros Hs Hh Hw.
  pose proof centers_ok_table as H. rewrite forallb_forall in H.
  specialize (H (base, stride, fm)). simpl in H.
  assert (Hin : In (base, stride, fm) scale_table).
  { apply list_elem_of_In. eapply list_elem_of_lookup_2; eauto. }
  specialize (H Hin). unfold centers_okb in H.
  pose proof (forallb_seq_lt _ _ h H Hh) as H1. simpl in H1.
  pose proof (forallb_seq_lt _ _ w H1 Hw) as H2. simpl in H2.
  apply andb_true_iff in H2 as [Ha Hb].
  split; apply center_exactb_spec; assumption.
Qed.

(** * Anchor positions *)

Lemma priors_lookup base k r :
  anchor_ratios !! k = Some r -> priors base !! k = Some (prior_hw base r).
Proof.
  intros Hk. unfold priors.
  change (map ?f anchor_ratios) with (f <$> anchor_ratios).
  rewrite list_lookup_fmap, Hk. done.
Qed.

Lemma create_anchors__lookup base stride fm k r h w :
  anchor_ratios !! k = Some r -> h < fm -> w < fm ->
  (create_anchors_ base stride fm).1 !! ((k * fm + h) * fm + w)
    = Some [anchor_yx_value stride k h w 0; anchor_yx_value stride k h w 1] /\
  (create_anchors_ base stride fm).2 !! ((k * fm + h) * fm + w)
    = Some (prior_hw base r).
Proof.
  intros Hk Hh Hw.
  assert (Hlt : k < length anchor_ratios) by (eapply lookup_lt_Some; eauto).
  unfold create_anchors_. cbn [fst snd]. split.
  - now rewrite lookup_reshape_tensor4.
  - rewrite lookup_reshape_tensor4 by done.
    rewrite (list_lookup_total_correct _ _ _ (priors_lookup base k r Hk)). done.
Qed.

Lemma create_anchors__length base stride fm :
  length (create_anchors_ base stride fm).1 = 3 * fm * fm /\
  length (create_anchors_ base stride fm).2 = 3 * fm * fm.
Proof.
  unfold create_anchors_. cbn [fst snd]. rewrite !length_reshape_tensor4. done.
Qed.

Lemma create_anchors_length :
  length create_anchors.1 = num_anchors /\ length create_anchors.2 = num_anchors.
Proof.
  unfold create_anchors. cbn [fst snd]. rewrite !length_app.
  rewrite !(proj1 (create_anchors__length _ _ _)).
  rewrite !(proj2 (create_anchors__length _ _ _)). done.
Qed.

(** The anchor stored at [anchor_index]. *)
Lemma create_anchors_lookup s base stride fm k r h w :
  scale_table !! s = Some (base, stride, fm) ->
  anchor_ratios !! k = Some r -> h < fm -> w < fm ->
  create_anchors.1 !! anchor_index s fm k h w
    = Some [anchor_yx_value stride k h w 0; anchor_yx_value stride k h w 1] /\
  create_anchors.2 !! anchor_index s fm k h w = Some (prior_hw base r).
Proof.
  intros Hs Hk Hh Hw.
  assert (Hlt : k < 3) by (apply lookup_lt_Some in Hk; exact Hk).
  assert (Hloc : (k * fm + h) * fm + w < 3 * fm * fm) by nia.
  pose proof (create_anchors__lookup base stride fm k r h w Hk Hh Hw) as [H1 H2].
  unfold anchor_index, create_anchors. cbn [fst snd].
  destruct s as [|[|[|[|s]]]]; try discriminate Hs;
    injection Hs as <- <- <-;
    [change (scale_offset 0) with 0 | change (scale_offset 1) with 2352
    | change (scale_offset 2) with 2940 | change (scale_offset 3) with 2988];
    unfold feature_map_size1, feature_map_size2, feature_map_size3, feature_map_size4 in *.
  - rewrite !lookup_app_l; [done| |].
    + rewrite (proj2 (create_anchors__length _ _ _)). lia.
    + rewrite (proj1 (create_anchors__length _ _ _)). lia.
  - split.
    + rewrite lookup_app_r; rewrite (proj1 (create_anchors__length _ _ _)); [|lia].
      rewrite lookup_app_l; [|rewrite (proj1 (create_anchors__length _ _ _)); lia].
      rewrite <- H1. f_equal. lia.
    + rewrite lookup_app_r; rewrite (proj2 (create_anchors__length _ _ _)); [|lia].
      rewrite lookup_app_l; [|rewrite (proj2 (create_anchors__length _ _ _)); lia].
      rewrite <- H2. f_equal. lia.
  - split.
    + rewrite lookup_app_r; rewrite (proj1 (create_anchors__length _ _ _)); [|lia].
      rewrite lookup_app_r; rewrite (proj1 (create_anchors__length _ _ _)); [|lia].
      rewrite lookup_app_l; [|rewrite (proj1 (create_anchors__length _ _ _)); lia].
      rewrite <- H1. f_equal. lia.
    + rewrite lookup_app_r; rewrite (proj2 (create_anchors__length _ _ _)); [|lia].
      rewrite lookup_app_r; rewrite (proj2 (create_anchors__length _ _ _)); [|lia].
      rewrite lookup_app_l; [|rewrite (proj2 (create_anchors__length _ _ _)); lia].
      rewrite <- H2. f_equal. lia.
  - split.
    + rewrite lookup_app_r; rewrite (proj1 (create_anchors__length _ _ _)); [|lia].
      rewrite lookup_app_r; rewrite (proj1 (create_anchors__length _ _ _)); [|lia].
      rewrite lookup_app_r; rewrite (proj1 (create_anchors__length _ _ _)); [|lia].
      rewrite <- H1. f_equal. lia.
    + rewrite lookup_app_r; rewrite (proj2 (create_anchors__length _ _ _)); [|lia].
      rewrite lookup_app_r; rewrite (proj2 (create_anchors__length _ _ _)); [|lia].
      rewrite lookup_app_r; rewrite (proj2 (create_anchors__length _ _ _)); [|lia].
      rewrite <- H2. f_equal. lia.
Qed.

Lemma anchor_index_lt s base stride fm k h w :
  scale_table !! s = Some (base, stride, fm) -> k < 3 -> h < fm -> w < fm ->
  anchor_index s fm k h w < num_anchors.
Proof.
  intros Hs Hk Hh Hw. unfold anchor_index.
  assert (Hloc : (k * fm + h) * fm + w < 3 * fm * fm) by nia.
  destruct s as [|[|[|[|s]]]]; try discriminate Hs;
    injection Hs as <- <- <-;
    [change (scale_offset 0) with 0 | change (scale_offset 1) with 2352
    | change (scale_offset 2) with 2940 | change (scale_offset 3) with 2988];
    change num_anchors with 3000; lia.
Qed.

(** * Anchor sizes and layout *)

Lemma size_closeb_spec base r sh sw :
  size_closeb base r sh sw = true -> size_close base r sh sw.
Proof.
  unfold size_closeb, size_close. cbv zeta. intros H.
  repeat (apply andb_true_iff in H as [H ?]).
  repeat split; try assumption; now apply Qle_bool_iff.
Qed.

Lemma sizes_ok_table :
  forallb (fun p => forallb (fun r =>
     size_closeb p.1.1 r (prior_hw p.1.1 r !!! 0) (prior_hw p.1.1 r !!! 1))
     anchor_ratios) scale_table = true.
Proof. vm_compute. reflexivity. Qed.

Lemma prior_hw_close s base stride fm k r :
  scale_table !! s = Some (base, stride, fm) -> anchor_ratios !! k = Some r ->
  size_close base r (F32.mul (F32.of_Z (Z.of_nat base)) (pow_half r))
    (F32.div (F32.of_Z (Z.of_nat base)) (pow_half r)).
Proof.
  intros Hs Hk. pose proof sizes_ok_table as H. rewrite forallb_forall in H.
  assert (Hin : In (base, stride, fm) scale_table).
  { apply list_elem_of_In. eapply list_elem_of_lookup_2; eauto. }
  specialize (H _ Hin). rewrite forallb_forall in H.
  assert (Hr : In r anchor_ratios).
  { apply list_elem_of_In. eapply list_elem_of_lookup_2; eauto. }
  apply size_closeb_spec. exact (H _ Hr).
Qed.

(** C10: anchor generation takes no argument and reads no state, so two
    calls give the same tensors; it produces 3 * (28^2 + 14^2 + 4^2 + 2^2)
    anchors; and for every scale (sizes 32/64/128/256, strides 8/16/32/64),
    grid cell (h, w) and ratio r in {0.5, 1, 2} there is an anchor whose
    centre is exactly ((h + 1/2) * stride, (w + 1/2) * stride), the same for
    all ratios, and whose size is (base * sqrt r, base / sqrt r) as computed
    in binary32, which agrees with the real values up to rounding. *)
Theorem anchor_grid_generate :
  (let first_call := create_anchors in
   let second_call := create_anchors in first_call = second_call) /\
  num_anchors = 3 * (28 * 28 + 14 * 14 + 4 * 4 + 2 * 2) /\
  length create_anchors.1 = num_anchors /\
  length create_anchors.2 = num_anchors /\
  forall s base stride fm k r h w,
    scale_table !! s = Some (base, stride, fm) ->
    anchor_ratios !! k = Some r -> h < fm -> w < fm ->
    exists i cy cx sh sw,
      i < num_anchors /\
      create_anchors.1 !! i = Some [cy; cx] /\
      create_anchors.2 !! i = Some [sh; sw] /\
      center_exact cy h stride /\ center_exact cx w stride /\
      sh = F32.mul (F32.of_Z (Z.of_nat base)) (pow_half r) /\
      sw = F32.div (F32.of_Z (Z.of_nat base)) (pow_half r) /\
      size_close base r sh sw.
Proof.
  split; [reflexivity|]. split; [reflexivity|].
  split; [apply create_anchors_length|]. split; [apply create_anchors_length|].
  intros s base stride fm k r h w Hs Hk Hh Hw.
  destruct (create_anchors_lookup s base stride fm k r h w Hs Hk Hh Hw) as [H1 H2].
  destruct (anchor_yx_value_exact s base stride fm k h w Hs Hh Hw) as [Hy Hx].
  eexists (anchor_index s fm k h w), _, _, _, _.
  split. { eapply anchor_index_lt; eauto. eapply lookup_lt_Some in Hk. exact Hk. }
  split; [exact H1|]. split; [exact H2|].
  split; [exact Hy|]. split; [exact Hx|].
  split; [reflexivity|]. split; [reflexivity|].
  eapply prior_hw_close; eauto.
Qed.

(** The anchor of scale 1 (size 64, stride 16), ratio 2, cell (3, 5). *)
Lemma anchor_grid_generate_witness :
  exists i cy cx sh sw,
    i < num_anchors /\
    create_anchors.1 !! i = Some [cy; cx] /\
    create_anchors.2 !! i = Some [sh; sw] /\
    center_exact cy 3 16 /\ center_exact cx 5 16 /\
    sh = F32.mul (F32.of_Z 64) (pow_half (F32.of_Z 2)) /\
    sw = F32.div (F32.of_Z 64) (pow_half (F32.of_Z 2)) /\
    size_close 64 (F32.of_Z 2) sh sw.
Proof.
  apply (proj2 (proj2 (proj2 (proj2 anchor_grid_generate))) 1 64 16 14 2 (F32.of_Z 2) 3 5);
    first [reflexivity | lia].
Defined.

(** C7 (amended): the four scales are concatenated finest grid first, and
    within a scale of grid size fm the anchor of ratio number k, row h and
    column w sits at offset (k * fm + h) * fm + w: consecutive indices vary
    the column fastest, then the row, then the ratio. *)
Theorem anchor_index_layout :
  forall s base stride fm k r h w,
    scale_table !! s = Some (base, stride, fm) ->
    anchor_ratios !! k = Some r -> h < fm -> w < fm ->
    exists cy cx,
      create_anchors.1 !! (scale_offset s + (k * fm + h) * fm + w) = Some [cy; cx] /\
      center_exact cy h stride /\ center_exact cx w stride /\
      create_anchors.2 !! (scale_offset s + (k * fm + h) * fm + w)
        = Some [F32.mul (F32.of_Z (Z.of_nat base)) (pow_half r);
                F32.div (F32.of_Z (Z.of_nat base)) (pow_half r)].
Proof.
  intros s base stride fm k r h w Hs Hk Hh Hw.
  destruct (create_anchors_lookup s base stride fm k r h w Hs Hk Hh Hw) as [H1 H2].
  destruct (anchor_yx_value_exact s base stride fm k h w Hs Hh Hw) as [Hy Hx].
  eexists _, _. split; [exact H1|]. split; [exact Hy|]. split; [exact Hx|]. exact H2.
Qed.

(** The anchor of scale 2 (size 128, stride 32), ratio 1, cell (3, 2). *)
Lemma anchor_index_layout_witness :
  exists cy cx,
    create_anchors.1 !! (scale_offset 2 + (1 * 4 + 3) * 4 + 2) = Some [cy; cx] /\
    center_exact cy 3 32 /\ center_exact cx 2 32 /\
    create_anchors.2 !! (scale_offset 2 + (1 * 4 + 3) * 4 + 2)
      = Some [F32.mul (F32.of_Z 128) (pow_half (F32.of_Z 1));
              F32.div (F32.of_Z 128) (pow_half (F32.of_Z 1))].
Proof.
  apply (anchor_index_layout 2 128 32 4 1 (F32.of_Z 1) 3 2); first [reflexivity | lia].
Defined.

(** C7 as stated fails: with the ratio varying fastest, index 1 would hold
    cell (0, 0) at ratio 1; it holds cell (0, 1) at ratio 0.5, whose x
    centre is 12 and not 4. *)
Lemma ratio_fastest_layout_counterexample : ~ ratio_fastest_layout.
Proof.
  intros H.
  destruct (H 0 32 8 28 1 (F32.of_Z 1) 0 0) as (cy & cx & H1 & _ & [_ Hx] & _);
    try first [reflexivity | lia].
  (* index 1 holds ratio 0.5 at cell (0, 1), whose x centre is 12, not 4 *)
  destruct (create_anchors_lookup 0 32 8 28 0 (F32.of_double F64.lit_0_5) 0 1)
    as [H1' _]; try first [reflexivity | lia].
  change (anchor_index 0 28 0 0 1) with 1 in H1'.
  change (scale_offset 0 + (0 * 28 + 0) * 3 + 1) with 1 in H1.
  rewrite H1' in H1.
  assert (Hcx : cx = anchor_yx_value 8 0 0 1 1) by congruence.
  rewrite Hcx in Hx. vm_compute in Hx. discriminate Hx.
Qed.

(** * Comparison of floats *)

Local Open Scope Z_scope.

Lemma SFltb_rank (x y : spec_float) :
  SFltb x y = true <-> exists a b, rank x = Some a /\ rank y = Some b /\ lex_lt a b.
Proof.
  unfold SFltb, SFcompare, lex_lt.
  destruct x as [sx|sx| |sx mx ex], y as [sy|sy| |sy my ey];
    try destruct sx; try destruct sy; simpl;
    try (split; [discriminate | intros (a & b & Ha & Hb & H); simplify_eq/=; lia]);
    try (split; [intros _; eexists _, _; split; [reflexivity|]; split; [reflexivity|]; simpl; lia | reflexivity]);
    try (split; [discriminate | intros (a & b & Ha & Hb & H); discriminate]).
  - rewrite Pos.compare_cont_spec. unfold Pos.switch_Eq.
    destruct (Z.compare_spec ex ey), (Pos.compare_spec mx my); simpl;
      (split; [ first [ discriminate
                      | intros _; eexists _, _; split; [reflexivity|]; split; [reflexivity|]; simpl; lia ]
              | first [ reflexivity
                      | intros (a & b & Ha & Hb & Hlex); simplify_eq/=; lia ] ]).
  - rewrite Pos.compare_cont_spec. unfold Pos.switch_Eq.
    destruct (Z.compare_spec ex ey), (Pos.compare_spec mx my); simpl;
      (split; [ first [ discriminate
                      | intros _; eexists _, _; split; [reflexivity|]; split; [reflexivity|]; simpl; lia ]
              | first [ reflexivity
                      | intros (a & b & Ha & Hb & Hlex); simplify_eq/=; lia ] ]).
Qed.

Lemma SFleb_rank (x y : spec_float) :
  SFleb x y = true <-> exists a b, rank x = Some a /\ rank y = Some b /\ lex_le a b.
Proof.
  unfold SFleb, SFcompare, lex_le, lex_lt.
  destruct x as [sx|sx| |sx mx ex], y as [sy|sy| |sy my ey];
    try destruct sx; try destruct sy; simpl;
    try (split; [discriminate | intros (a & b & Ha & Hb & H); simplify_eq/=; destruct H as [H|H]; [lia|discriminate]]);
    try (split; [intros _; eexists _, _; split; [reflexivity|]; split; [reflexivity|]; simpl; first [right; reflexivity | left; lia] | reflexivity]);
    try (split; [discriminate | intros (a & b & Ha & Hb & H); discriminate]).
  - rewrite Pos.compare_cont_spec. unfold Pos.switch_Eq.
    destruct (Z.compare_spec ex ey), (Pos.compare_spec mx my); simpl;
      (split; [ first [ discriminate
                      | intros _; eexists _, _; split; [reflexivity|]; split; [reflexivity|]; simpl;
                        first [right; congruence | left; lia] ]
              | first [ reflexivity
                      | intros (a & b & Ha & Hb & Hlex); simplify_eq/=; destruct Hlex as [Hlex|Hlex]; [lia|simplify_eq/=; lia] ] ]).
  - rewrite Pos.compare_cont_spec. unfold Pos.switch_Eq.
    destruct (Z.compare_spec ex ey), (Pos.compare_spec mx my); simpl;
      (split; [ first [ discriminate
                      | intros _; eexists _, _; split; [reflexivity|]; split; [reflexivity|]; simpl;
                        first [right; congruence | left; lia] ]
              | first [ reflexivity
                      | intros (a & b & Ha & Hb & Hlex); simplify_eq/=; destruct Hlex as [Hlex|Hlex]; [lia|simplify_eq/=; lia] ] ]).
Qed.

Lemma ltb_irrefl (x : spec_float) : F32.ltb x x = false.
Proof.
  apply not_true_is_false. intros H. apply SFltb_rank in H as (a & b & Ha & Hb & H).
  simplify_eq. unfold lex_lt in H. lia.
Qed.

Lemma ltb_trans (x y z : spec_float) :
  F32.ltb x y = true -> F32.ltb y z = true -> F32.ltb x z = true.
Proof.
  intros H1 H2. apply SFltb_rank in H1 as (a & b & Ha & Hb & H1).
  apply SFltb_rank in H2 as (b' & c & Hb' & Hc & H2). simplify_eq.
  apply SFltb_rank. exists a, c. repeat split; try done. unfold lex_lt in *. lia.
Qed.

Lemma ltb_leb_trans (x y z : spec_float) :
  F32.ltb x y = true -> F32.leb y z = true -> F32.ltb x z = true.
Proof.
  intros H1 H2. apply SFltb_rank in H1 as (a & b & Ha & Hb & H1).
  apply SFleb_rank in H2 as (b' & c & Hb' & Hc & H2). simplify_eq.
  apply SFltb_rank. exists a, c. repeat split; try done.
  destruct H2 as [H2| ->]; [|done]. unfold lex_lt in *. lia.
Qed.

Lemma leb_ltb_trans (x y z : spec_float) :
  F32.leb x y = true -> F32.ltb y z = true -> F32.ltb x z = true.
Proof.
  intros H1 H2. apply SFleb_rank in H1 as (a & b & Ha & Hb & H1).
  apply SFltb_rank in H2 as (b' & c & Hb' & Hc & H2). simplify_eq.
  apply SFltb_rank. exists a, c. repeat split; try done.
  destruct H1 as [H1| ->]; [|done]. unfold lex_lt in *. lia.
Qed.

Local Close Scope Z_scope.
Local Open Scope nat_scope.

(** * Anchor matching *)

Lemma match_init_sized A : arrays_sized A (match_init A).
Proof. unfold arrays_sized, match_init; simpl. rewrite !length_replicate. done. Qed.

Lemma match_init_entry A i : i < A -> entry (match_init A) i = entry_none.
Proof.
  intros Hi. unfold entry, match_init, entry_none; simpl.
  rewrite !lookup_total_replicate_2 by done. done.
Qed.

Lemma update_best_sized A g v yx hw st i :
  arrays_sized A st -> arrays_sized A (update_best g v yx hw st i).
Proof.
  unfold arrays_sized, update_best. intros (H1 & H2 & H3 & H4).
  destruct (F32.ltb _ _); simpl; rewrite ?length_insert; done.
Qed.

Lemma update_best_set g v yx hw st i :
  positive_idx_set (update_best g v yx hw st i) = positive_idx_set st.
Proof. unfold update_best. destruct (F32.ltb _ _); done. Qed.

Lemma update_best_entry_ne g v yx hw st i j :
  i <> j -> entry (update_best g v yx hw st i) j = entry st j.
Proof.
  intros Hne. unfold entry, update_best. destruct (F32.ltb _ _); simpl; [|done].
  rewrite !list_lookup_total_insert_ne by done. done.
Qed.

Lemma update_best_entry_eq A g v yx hw st i :
  arrays_sized A st -> i < A ->
  entry (update_best g v yx hw st i) i =
    if F32.ltb (entry st i).1.1.2 (v !!! i)
    then (Z.of_nat g, v !!! i, [yx !!! 0; yx !!! 1], [hw !!! 0; hw !!! 1])
    else entry st i.
Proof.
  intros (H1 & H2 & H3 & H4) Hi. unfold entry, update_best. simpl.
  destruct (F32.ltb _ _); simpl; [|done].
  rewrite !list_lookup_total_insert_eq by lia. done.
Qed.

Lemma fold_update_best A g v yx hw st n i :
  arrays_sized A st -> i < A ->
  let st' := foldl (update_best g v yx hw) st (seq 0 n) in
  arrays_sized A st' /\ positive_idx_set st' = positive_idx_set st /\
  entry st' i = if decide (i < n) then entry (update_best g v yx hw st i) i
                else entry st i.
Proof.
  intros Hs Hi. cbv zeta. induction n as [|n IH].
  - simpl. repeat split; try done; apply Hs.
  - rewrite seq_S, foldl_app. simpl. destruct IH as (IH1 & IH2 & IH3).
    split; [by apply update_best_sized|]. split; [by rewrite update_best_set|].
    destruct (decide (i = n)) as [->|Hne].
    + rewrite decide_False in IH3 by lia. rewrite decide_True by lia.
      rewrite !(update_best_entry_eq A) by done. rewrite IH3. done.
    + rewrite update_best_entry_ne by done. rewrite IH3.
      destruct (decide (i < n)), (decide (i < S n)); try lia; done.
Qed.

Section Matching.
Variable anchors : list (list spec_float) * list (list spec_float).
Variables gt_yx_ gt_hw_ : list (list spec_float).

Lemma match_gt_entry st g i :
  arrays_sized (length anchors.1) st -> i < length anchors.1 -> i < num_anchors ->
  let st' := match_gt anchors gt_yx_ gt_hw_ st g in
  arrays_sized (length anchors.1) st' /\
  entry st' i = if F32.ltb (entry st i).1.1.2 (iou_at anchors gt_yx_ gt_hw_ g i)
                then entry_of_gt g (iou_at anchors gt_yx_ gt_hw_ g i) gt_yx_ gt_hw_
                else entry st i.
Proof.
  intros Hs Hi. unfold match_gt, iou_at. cbv zeta.
  generalize num_anchors. intros n Hn.
  set (v := calc_iou _ _ _ _).
  destruct (fold_update_best (length anchors.1) g v (gt_yx_ !!! g) (gt_hw_ !!! g)
              st n i Hs Hi) as (H1 & H2 & H3).
  unfold arrays_sized, entry in *.
  cbn [anchor_gt_label_idx anchor_gt_label_iou label_yx label_hw] in *.
  split; [exact H1|].
  rewrite H3, decide_True by done.
  pose proof (update_best_entry_eq (length anchors.1) g v (gt_yx_ !!! g)
                (gt_hw_ !!! g) st i Hs Hi) as H4.
  unfold entry in H4. cbn [fst snd] in H4. exact H4.
Qed.

Lemma match_anchors_S k :
  match_anchors (S k) anchors gt_yx_ gt_hw_
  = match_gt anchors gt_yx_ gt_hw_ (match_anchors k anchors gt_yx_ gt_hw_) k.
Proof. unfold match_anchors. rewrite seq_S, foldl_app. done. Qed.

Lemma match_anchors_sized k :
  arrays_sized (length anchors.1) (match_anchors k anchors gt_yx_ gt_hw_).
Proof.
  induction k as [|k IH]; [apply match_init_sized|].
  rewrite match_anchors_S. unfold match_gt. cbv zeta.
  generalize num_anchors. intros n.
  set (v := calc_iou _ _ _ _).
  destruct (length anchors.1) as [|A] eqn:HA.
  - (* no anchor: the arrays are empty and stay so *)
    clear -IH. set (f := update_best _ _ _ _).
    assert (H : forall l st, arrays_sized 0 st -> arrays_sized 0 (foldl f st l)).
    { induction l; simpl; [done|]. intros st Hst. apply IHl. by apply update_best_sized. }
    unfold arrays_sized in *.
    cbn [anchor_gt_label_idx anchor_gt_label_iou label_yx label_hw] in *.
    apply (H _ _ IH).
  - destruct (fold_update_best (S A) k v (gt_yx_ !!! k) (gt_hw_ !!! k) _
                n 0 IH) as [H _]; [lia|].
    unfold arrays_sized in *.
    cbn [anchor_gt_label_idx anchor_gt_label_iou label_yx label_hw] in *. exact H.
Qed.

(** The recorded match of every anchor after the first [k] ground truths. *)
Lemma best_match k i :
  i < length anchors.1 -> i < num_anchors ->
  let st := match_anchors k anchors gt_yx_ gt_hw_ in
  (forall j, j < k -> F32.ltb (entry st i).1.1.2 (iou_at anchors gt_yx_ gt_hw_ j i) = false) /\
  ((entry st i = entry_none /\
    forall j, j < k -> F32.ltb F32.zero (iou_at anchors gt_yx_ gt_hw_ j i) = false)
   \/
   (exists j, j < k /\ entry st i = entry_of_gt j (iou_at anchors gt_yx_ gt_hw_ j i) gt_yx_ gt_hw_ /\
      F32.ltb F32.zero (iou_at anchors gt_yx_ gt_hw_ j i) = true /\
      forall j', j' < j -> F32.leb (iou_at anchors gt_yx_ gt_hw_ j i) (iou_at anchors gt_yx_ gt_hw_ j' i) = false)).
Proof.
  intros Hi Hn. induction k as [|k IH]; cbv zeta.
  - split; [intros j Hj; lia|]. left. split; [|intros j Hj; lia].
    apply match_init_entry. done.
  - rewrite match_anchors_S.
    destruct (match_gt_entry (match_anchors k anchors gt_yx_ gt_hw_) k i
                (match_anchors_sized k) Hi Hn) as [_ He].
    cbv zeta in IH. destruct IH as [Hmax Hcase]. rewrite He. clear He.
    set (e := entry (match_anchors k anchors gt_yx_ gt_hw_) i) in *.
    destruct (F32.ltb e.1.1.2 (iou_at anchors gt_yx_ gt_hw_ k i)) eqn:Hlt.
    + (* overwritten by ground truth k *)
      assert (Hearlier : forall j, j < k -> F32.leb (iou_at anchors gt_yx_ gt_hw_ k i) (iou_at anchors gt_yx_ gt_hw_ j i) = false).
      { intros j Hj. apply not_true_is_false. intros Hle.
        pose proof (ltb_leb_trans _ _ _ Hlt Hle) as Hc. rewrite Hmax in Hc by done.
        discriminate. }
      split.
      * intros j Hj. unfold entry_of_gt; simpl.
        destruct (decide (j = k)) as [->|Hne]; [apply ltb_irrefl|].
        apply not_true_is_false. intros Hc.
        pose proof (ltb_trans _ _ _ Hlt Hc) as Hc'. rewrite Hmax in Hc' by lia.
        discriminate.
      * right. exists k. split; [lia|]. split; [done|]. split; [|done].
        destruct Hcase as [[He _]|(j & Hj & He & Hpos & _)].
        -- rewrite He in Hlt. exact Hlt.
        -- rewrite He in Hlt. simpl in Hlt. eapply ltb_trans; eauto.
    + (* kept *)
      split.
      * intros j Hj. destruct (decide (j = k)) as [->|Hne]; [done|]. apply Hmax. lia.
      * destruct Hcase as [[He Hz]|(j & Hj & He & Hpos & Hties)].
        -- left. split; [done|]. intros j Hj.
           destruct (decide (j = k)) as [->|Hne]; [|apply Hz; lia].
           rewrite He in Hlt. exact Hlt.
        -- right. exists j. repeat split; try done. lia.
Qed.
End Matching.

(** * Masks *)

Lemma count_nz_app l1 l2 : count_nz (l1 ++ l2) = count_nz l1 + count_nz l2.
Proof. unfold count_nz. now rewrite filter_app, length_app. Qed.

Lemma count_nz_cons v l :
  count_nz (v :: l) = (if decide (v <> 0%Z) then 1 else 0) + count_nz l.
Proof. unfold count_nz. rewrite filter_cons. destruct (decide _); done. Qed.

Lemma count_nz_le l : count_nz l <= length l.
Proof. apply length_filter. Qed.

Lemma count_nz_replicate n : count_nz (replicate n 0%Z) = 0.
Proof. induction n; simpl; [done|]. rewrite count_nz_cons, IHn. by rewrite decide_False by lia. Qed.

Lemma count_nz_zero l : (forall i, i < length l -> l !!! i = 0%Z) -> count_nz l = 0.
Proof.
  induction l as [|v l IH]; intros H; [done|].
  rewrite count_nz_cons, IH.
  - pose proof (H 0 ltac:(simpl; lia)) as H0. simpl in H0. subst v.
    by rewrite decide_False by lia.
  - intros i Hi. apply (H (S i)). simpl. lia.
Qed.

Lemma count_nz_insert (l : list Z) (i : nat) (v : Z) :
  i < length l ->
  count_nz (<[i := v]> l) + (if decide (l !!! i <> 0%Z) then 1 else 0)
  = count_nz l + (if decide (v <> 0%Z) then 1 else 0).
Proof.
  intros Hi. destruct (lookup_lt_is_Some_2 l i Hi) as [x Hx].
  rewrite (list_lookup_total_correct _ _ _ Hx).
  rewrite insert_take_drop by done.
  rewrite <- (take_drop_middle l i x Hx) at 3.
  rewrite !count_nz_app, !count_nz_cons. lia.
Qed.

Lemma is_mask_insert l i v : is_mask l -> v = 0%Z \/ v = 1%Z -> is_mask (<[i := v]> l).
Proof. intros Hl Hv. unfold is_mask in *. by apply Forall_insert. Qed.

Lemma is_mask_lookup l i : is_mask l -> i < length l -> l !!! i = 0%Z \/ l !!! i = 1%Z.
Proof.
  intros Hl Hi. destruct (lookup_lt_is_Some_2 l i Hi) as [x Hx].
  rewrite (list_lookup_total_correct _ _ _ Hx).
  unfold is_mask in Hl. rewrite Forall_lookup in Hl. eauto.
Qed.

Lemma is_mask_replicate n : is_mask (replicate n 0%Z).
Proof. apply Forall_replicate. by left. Qed.

(** ** The positive mask *)

Lemma positive_mask_of_list (A : nat) (l : list nat) :
  NoDup l -> Forall (fun i => i < A) l ->
  let m := foldl (fun m i => <[i := 1%Z]> m) (replicate A 0%Z) l in
  length m = A /\ is_mask m /\ count_nz m = length l /\
  forall i, i < A -> m !!! i = if decide (i ∈ l) then 1%Z else 0%Z.
Proof.
  intros Hnd Hall. cbv zeta. induction l as [|x l IH] using rev_ind.
  - cbn [foldl]. split; [apply length_replicate|]. split; [apply is_mask_replicate|].
    split; [apply count_nz_replicate|]. intros i Hi.
    rewrite lookup_total_replicate_2 by done.
    destruct (decide (i ∈ [])) as [Hin|Hin]; [|done]. by apply elem_of_nil in Hin.
  - rewrite foldl_snoc. apply NoDup_app in Hnd as (Hnd & Hx & _).
    apply Forall_app in Hall as [Hall Hxa]. rewrite Forall_singleton in Hxa.
    destruct (IH Hnd Hall) as (Hlen & Hmask & Hcnt & Hlk).
    set (m := foldl _ _ l) in *.
    assert (Hxl : x ∉ l).
    { intros Hin. apply (Hx x Hin). by apply list_elem_of_singleton. }
    split; [by rewrite length_insert|]. split; [apply is_mask_insert; auto|].
    split.
    + pose proof (count_nz_insert m x 1%Z ltac:(lia)) as Hc.
      rewrite Hlk in Hc by done. rewrite (decide_False (P := x ∈ l)) in Hc by done.
      rewrite decide_False in Hc by (intros Hc'; by apply Hc').
      rewrite decide_True in Hc by lia.
      rewrite length_app. simpl. lia.
    + intros i Hi. destruct (decide (i = x)) as [->|Hne].
      * rewrite list_lookup_total_insert_eq by lia. rewrite decide_True; [done|].
        apply elem_of_app. right. by apply list_elem_of_singleton.
      * rewrite list_lookup_total_insert_ne by done. rewrite Hlk by done.
        destruct (decide (i ∈ l)) as [H1|H1], (decide (i ∈ l ++ [x])) as [H2|H2]; try done.
        -- exfalso. apply H2, elem_of_app. by left.
        -- exfalso. apply elem_of_app in H2 as [H2|H2]; [done|].
           apply list_elem_of_singleton in H2. done.
Qed.

Lemma make_positive_mask_spec (A : nat) (s : gset nat) :
  (forall i, i ∈ s -> i < A) ->
  let m := make_positive_mask A s in
  length m = A /\ is_mask m /\ count_nz m = size s /\
  forall i, i < A -> m !!! i = if decide (i ∈ s) then 1%Z else 0%Z.
Proof.
  intros Hs. cbv zeta. unfold make_positive_mask.
  destruct (positive_mask_of_list A (elements s)) as (H1 & H2 & H3 & H4).
  - apply NoDup_elements.
  - apply Forall_forall. intros i Hi. apply Hs. by apply elem_of_elements.
  - split; [done|]. split; [done|]. split; [done|].
    intros i Hi. rewrite H4 by done.
    destruct (decide (i ∈ elements s)) as [Hin|Hin], (decide (i ∈ s)) as [Hin'|Hin'];
      try done; rewrite elem_of_elements in Hin; done.
Qed.

(** ** [std::max_element] stays inside the vector *)

Lemma max_element_from_lt rest largest lv i :
  largest < i -> max_element_from largest lv i rest < i + length rest.
Proof.
  revert largest lv i. induction rest as [|x r IH]; intros largest lv i Hl; simpl.
  - lia.
  - destruct (F32.ltb lv x).
    + specialize (IH i x (S i) ltac:(lia)). lia.
    + specialize (IH largest lv (S i) ltac:(lia)). lia.
Qed.

Lemma max_element_lt v : v <> [] -> max_element v < length v.
Proof.
  destruct v as [|x r]; [done|]. intros _. simpl.
  pose proof (max_element_from_lt r 0 x 1 ltac:(lia)). lia.
Qed.

(** ** The positive set only holds anchor indices *)

Lemma fold_mark_positive v s n i :
  i ∈ foldl (mark_positive v) s (seq 0 n) -> i ∈ s \/ i < n.
Proof.
  induction n as [|n IH]; [simpl; auto|].
  rewrite seq_S, foldl_app. simpl. unfold mark_positive at 1.
  destruct (gt_double _ _); [|intros H; destruct (IH H); auto].
  rewrite elem_of_union, elem_of_singleton. intros [->|H]; [auto|].
  destruct (IH H); auto.
Qed.

Lemma fold_update_best_set g v yx hw st l :
  positive_idx_set (foldl (update_best g v yx hw) st l) = positive_idx_set st.
Proof.
  revert st. induction l as [|x l IH]; intros st; simpl; [done|].
  rewrite IH. apply update_best_set.
Qed.

Lemma match_anchors_set_bound anchors gt_yx_ gt_hw_ k i :
  anchors.1 <> [] -> length anchors.2 = length anchors.1 ->
  i ∈ positive_idx_set (match_anchors k anchors gt_yx_ gt_hw_) ->
  i < length anchors.1.
Proof.
  intros Hne Hlen. induction k as [|k IH].
  - unfold match_anchors; simpl. set_solver.
  - rewrite match_anchors_S. unfold match_gt. cbv zeta.
    cbn [positive_idx_set]. intros H.
    apply fold_mark_positive in H as [H|H]; [|done].
    rewrite fold_update_best_set in H.
    apply elem_of_union in H as [H|H]; [|auto].
    apply elem_of_singleton in H. subst i.
    set (v := calc_iou _ _ _ _).
    assert (Hv : length v = length anchors.1).
    { unfold v, calc_iou. rewrite length_zip_with. lia. }
    rewrite <- Hv. apply max_element_lt. intros Hnil. rewrite Hnil in Hv.
    destruct anchors.1; [done|discriminate].
Qed.

(** * The confidence filter *)

Lemma wrap32_small (z : Z) : (0 <= z < 2 ^ 32)%Z -> wrap32 z = z.
Proof. intros H. unfold wrap32. by apply Z.mod_small. Qed.

Lemma truthy_spec (v : Z) : truthy v = true <-> v <> 0%Z.
Proof. unfold truthy. rewrite negb_true_iff, Z.eqb_neq. done. Qed.

Lemma truthy_false (v : Z) : truthy v = false <-> v = 0%Z.
Proof. unfold truthy. rewrite negb_false_iff, Z.eqb_eq. done. Qed.

Lemma count_nz_take_S (l : list Z) (n : nat) :
  n < length l ->
  count_nz (take (S n) l)
  = count_nz (take n l) + (if decide (l !!! n <> 0%Z) then 1 else 0).
Proof.
  intros Hn. destruct (lookup_lt_is_Some_2 l n Hn) as [x Hx].
  rewrite (take_S_r _ _ _ Hx), (list_lookup_total_correct _ _ _ Hx).
  rewrite count_nz_app, count_nz_cons. change (count_nz []) with 0. lia.
Qed.

Lemma count_z_take_S (l : list Z) (n : nat) :
  n < length l ->
  count_z (take (S n) l)
  = count_z (take n l) + (if decide (l !!! n <> 0%Z) then 0 else 1).
Proof.
  intros Hn. unfold count_z. rewrite count_nz_take_S by done.
  rewrite !length_take. pose proof (count_nz_le (take n l)) as Hle.
  rewrite length_take in Hle. destruct (decide _); lia.
Qed.

Lemma count_z_take_le (l : list Z) (n : nat) : count_z (take n l) <= count_z l.
Proof.
  unfold count_z. rewrite <- (take_drop n l) at 3 4.
  rewrite count_nz_app, length_app.
  pose proof (count_nz_le (take n l)). pose proof (count_nz_le (drop n l)). lia.
Qed.

Section Filter.
Variable A : nat.
Variable positive_mask_b : list Z.
Variable arm_conf_ : list (list spec_float).
Hypothesis HA : (3 * Z.of_nat A < 2 ^ 32)%Z.
Hypothesis Hlen : length positive_mask_b = A.
Hypothesis Hmask : is_mask positive_mask_b.

Local Abbreviation np := (Z.of_nat (count_nz positive_mask_b)).

Lemma count_z_total : (Z.of_nat (count_z positive_mask_b) = Z.of_nat A - np)%Z.
Proof.
  unfold count_z. pose proof (count_nz_le positive_mask_b). lia.
Qed.

Lemma negative_filter_step_inv n st :
  n < A -> filter_inv A positive_mask_b arm_conf_ n st ->
  filter_inv A positive_mask_b arm_conf_ (S n) (negative_filter_step positive_mask_b arm_conf_ st n).
Proof.
  intros Hn (Hl & Hm & Hz & Hp & Hc & Hr).
  assert (Hfo : length (filtered_out positive_mask_b arm_conf_ (S n))
                = length (filtered_out positive_mask_b arm_conf_ n)
                  + (if decide (positive_mask_b !!! n = 0%Z /\ confident arm_conf_ n = true)
                     then 1 else 0)).
  { unfold filtered_out. rewrite seq_S, filter_app, length_app. cbn [Nat.add].
    rewrite filter_cons, filter_nil. destruct (decide _); done. }
  pose proof (is_mask_lookup _ n Hmask ltac:(lia)) as Hpm.
  pose proof (count_z_take_S positive_mask_b n ltac:(lia)) as Hcz.
  pose proof (count_z_take_le positive_mask_b (S n)) as Hle.
  pose proof count_z_total as Htot.
  pose proof (count_nz_le st.1) as Hcl.
  assert (Hnp : (0 <= np)%Z) by lia.
  pose proof (count_nz_insert st.1 n 0%Z ltac:(lia)) as Hi0.
  pose proof (count_nz_insert st.1 n 1%Z ltac:(lia)) as Hi1.
  rewrite (Hz n) in Hi0, Hi1 by lia.
  rewrite decide_False in Hi0, Hi1 by (intros Hc'; by apply Hc').
  rewrite decide_True in Hi1 by lia.
  unfold negative_filter_step. fold (confident arm_conf_ n).
  assert (Hv : wrap32 (1 - positive_mask_b !!! n)
               = if decide (positive_mask_b !!! n = 0%Z) then 1%Z else 0%Z).
  { destruct Hpm as [-> | ->]; reflexivity. }
  rewrite Hv.
  assert (Hpoint : forall x i, i < S n ->
            x = (if decide (positive_mask_b !!! n = 0%Z)
                 then (if confident arm_conf_ n then 0%Z else 1%Z) else 0%Z) ->
            <[n := x]> st.1 !!! i
            = if decide (positive_mask_b !!! i = 0%Z)
              then (if confident arm_conf_ i then 0%Z else 1%Z) else 0%Z).
  { intros x i Hi ->. destruct (decide (i = n)) as [->|Hne].
    - by rewrite list_lookup_total_insert_eq by lia.
    - rewrite list_lookup_total_insert_ne by done. apply Hp. lia. }
  destruct (decide (positive_mask_b !!! n = 0%Z)) as [H0|H1];
    destruct (confident arm_conf_ n) eqn:Hconf; cbn [andb truthy Z.eqb negb fst snd];
    unfold filter_inv; cbn [fst snd].
  - (* removed by the filter *)
    rewrite decide_False in Hcz by (intros Hc'; by apply Hc').
    split; [by rewrite length_insert|].
    split; [apply is_mask_insert; auto|].
    split. { intros i Hi Hi'. rewrite list_lookup_total_insert_ne by lia. apply Hz; lia. }
    split. { intros i Hi. apply Hpoint; [done|]. first [done | by rewrite ?Hconf, ?decide_True, ?decide_False by done]. }
    rewrite decide_True in Hfo by done.
    rewrite wrap32_small; [|lia]. lia.
  - rewrite decide_False in Hcz by (intros Hc'; by apply Hc').
    split; [by rewrite length_insert|].
    split; [apply is_mask_insert; auto|].
    split. { intros i Hi Hi'. rewrite list_lookup_total_insert_ne by lia. apply Hz; lia. }
    split. { intros i Hi. apply Hpoint; [done|]. first [done | by rewrite ?Hconf, ?decide_True, ?decide_False by done]. }
    rewrite decide_False in Hfo by (intros [? ?]; congruence).
    lia.
  - rewrite decide_True in Hcz by done.
    split; [by rewrite length_insert|].
    split; [apply is_mask_insert; auto|].
    split. { intros i Hi Hi'. rewrite list_lookup_total_insert_ne by lia. apply Hz; lia. }
    split. { intros i Hi. apply Hpoint; [done|]. first [done | by rewrite ?Hconf, ?decide_True, ?decide_False by done]. }
    rewrite decide_False in Hfo by (intros [? ?]; congruence).
    lia.
  - rewrite decide_True in Hcz by done.
    split; [by rewrite length_insert|].
    split; [apply is_mask_insert; auto|].
    split. { intros i Hi Hi'. rewrite list_lookup_total_insert_ne by lia. apply Hz; lia. }
    split. { intros i Hi. apply Hpoint; [done|]. first [done | by rewrite ?Hconf, ?decide_True, ?decide_False by done]. }
    rewrite decide_False in Hfo by (intros [? ?]; congruence).
    lia.
Qed.

Lemma negative_filter_inv n :
  n <= A ->
  filter_inv A positive_mask_b arm_conf_ n
    (foldl (negative_filter_step positive_mask_b arm_conf_)
       (replicate A 0%Z, wrap32 (Z.of_nat A - np)) (seq 0 n)).
Proof.
  induction n as [|n IH]; intros Hn.
  - cbn [seq foldl]. unfold filter_inv. cbn [fst snd].
    split; [apply length_replicate|]. split; [apply is_mask_replicate|].
    split. { intros i _ Hi. by rewrite lookup_total_replicate_2. }
    split. { intros i Hi. lia. }
    rewrite count_nz_replicate, take_0. unfold count_z, filtered_out. simpl.
    pose proof count_z_total. assert (Hnp : (0 <= np)%Z) by lia.
    rewrite wrap32_small; lia.
  - rewrite seq_S, foldl_app. cbn [foldl Nat.add].
    apply negative_filter_step_inv; [lia|]. apply IH. lia.
Qed.

(** The negative mask and count after the filter of lines 408-417. *)
Lemma negative_filter_spec :
  let st := negative_filter A np positive_mask_b arm_conf_ in
  length st.1 = A /\ is_mask st.1 /\
  st.2 = Z.of_nat (count_nz st.1) /\
  (st.2 = Z.of_nat A - np - Z.of_nat (length (filtered_out positive_mask_b arm_conf_ A)))%Z /\
  forall i, i < A ->
    st.1 !!! i = if decide (positive_mask_b !!! i = 0%Z)
                 then (if confident arm_conf_ i then 0%Z else 1%Z) else 0%Z.
Proof.
  cbv zeta. unfold negative_filter.
  destruct (negative_filter_inv A ltac:(lia)) as (H1 & H2 & _ & H4 & H5 & H6).
  split; [done|]. split; [done|]. split; [|done].
  rewrite H5. rewrite take_ge by lia. pose proof count_z_total. lia.
Qed.
End Filter.

(** * Hard negative mining *)

Section Mining.
Variable A : nat.
Variable positive_mask_b : list Z.
Variable num_positive : Z.
Hypothesis HA : (3 * Z.of_nat A < 2 ^ 32)%Z.
Hypothesis Hnp : (0 <= num_positive <= Z.of_nat A)%Z.

Lemma mining_loop_spec (sorted : list (nat * spec_float)) (st : list Z * Z) :
  mining_inv A positive_mask_b st ->
  Forall (fun p => p.1 < A) sorted ->
  let st' := mining_loop num_positive sorted st in
  mining_inv A positive_mask_b st' /\
  (forall i, i < A -> st.1 !!! i = 0%Z -> st'.1 !!! i = 0%Z) /\
  ((st'.2 <= 3 * num_positive)%Z \/ Forall (fun p => st'.1 !!! p.1 = 0%Z) sorted).
Proof.
  intros Hinv Hall. cbv zeta. revert st Hinv.
  induction Hall as [|[idx x] rest Hidx Hall IH]; intros st Hinv.
  - cbn [mining_loop]. split; [done|]. split; [done|]. right. constructor.
  - cbn [mining_loop]. rewrite (wrap32_small (3 * num_positive)) by lia.
    destruct (3 * num_positive <? st.2)%Z eqn:Hcond.
    + set (st1 := if truthy (st.1 !!! idx)
                  then (<[idx := 0%Z]> st.1, wrap32 (st.2 - 1)) else st).
      assert (H1 : mining_inv A positive_mask_b st1 /\ st1.1 !!! idx = 0%Z /\
                   forall i, i < A -> st.1 !!! i = 0%Z -> st1.1 !!! i = 0%Z).
      { destruct Hinv as (Hl & Hm & Hc & Hp). cbn [fst] in Hidx. unfold st1.
        destruct (truthy (st.1 !!! idx)) eqn:Ht.
        - apply truthy_spec in Ht. cbn [fst snd].
          pose proof (count_nz_insert st.1 idx 0%Z ltac:(lia)) as Hi.
          rewrite decide_True in Hi by done.
          rewrite decide_False in Hi by (intros Hc'; by apply Hc').
          pose proof (count_nz_le st.1).
          split; [|split].
          + unfold mining_inv. cbn [fst snd].
            split; [by rewrite length_insert|].
            split; [apply is_mask_insert; auto|].
            split; [rewrite wrap32_small; lia|].
            intros i Hi' Hne. destruct (decide (i = idx)) as [->|Hd].
            * rewrite list_lookup_total_insert_eq in Hne by lia. done.
            * rewrite list_lookup_total_insert_ne in Hne by done. by apply Hp.
          + by rewrite list_lookup_total_insert_eq by lia.
          + intros i Hi' Hz. destruct (decide (i = idx)) as [->|Hd].
            * by rewrite list_lookup_total_insert_eq by lia.
            * by rewrite list_lookup_total_insert_ne by done.
        - apply truthy_false in Ht. split; [done|]. split; done. }
      destruct H1 as (Hinv1 & Hz1 & Hmono1).
      destruct (IH st1 Hinv1) as (Hinv' & Hmono' & Hres).
      split; [done|]. split; [auto|].
      destruct Hres as [Hres|Hres]; [by left|]. right.
      constructor; [|done]. cbn [fst]. apply Hmono'; done.
    + split; [done|]. split; [done|]. left. apply Z.ltb_ge in Hcond. done.
Qed.
End Mining.

Section Item.
Variable softmax : list (list spec_float) -> list (list spec_float).
Variable log : spec_float -> spec_float.
Variable std_sort :
  (nat * spec_float -> nat * spec_float -> bool) ->
  list (nat * spec_float) -> list (nat * spec_float).
Hypothesis std_sort_perm : forall cmp l, Permutation (std_sort cmp l) l.

Lemma cross_entropy_per_anchor_indices (x : list (list spec_float)) (l : list Z) :
  length l = length x ->
  let r := cross_entropy_per_anchor softmax log x l in
  Forall (fun p => p.1 < length x) r /\
  forall i, i < length x -> exists v, (i, v) ∈ r.
Proof.
  intros Hl. cbv zeta. unfold cross_entropy_per_anchor. split.
  - apply Forall_app. split.
    + apply Forall_forall. intros p Hp. apply elem_of_replicate in Hp as [-> Hn].
      cbn [fst]. lia.
    + apply Forall_forall. intros p Hp.
      apply list_elem_of_In, in_map_iff in Hp as (a & <- & Ha).
      apply in_seq in Ha. cbn [fst]. lia.
  - intros i Hi. eexists. apply elem_of_app. right.
    apply list_elem_of_In, in_map_iff. exists i. split; [reflexivity|].
    apply in_seq. lia.
Qed.

Lemma hard_negative_mining_spec (positive_mask_b : list Z)
    (arm_conf_ : list (list spec_float)) (num_positive : Z) (st : list Z * Z) :
  (3 * Z.of_nat (length arm_conf_) < 2 ^ 32)%Z ->
  (0 <= num_positive <= Z.of_nat (length arm_conf_))%Z ->
  length positive_mask_b = length arm_conf_ ->
  mining_inv (length arm_conf_) positive_mask_b st ->
  let st' := hard_negative_mining softmax log std_sort num_positive
               positive_mask_b arm_conf_ st in
  mining_inv (length arm_conf_) positive_mask_b st' /\
  (st'.2 <= 3 * num_positive)%Z /\
  forall i, i < length arm_conf_ -> st.1 !!! i = 0%Z -> st'.1 !!! i = 0%Z.
Proof.
  intros HA Hnp Hl Hinv. cbv zeta. unfold hard_negative_mining.
  rewrite (wrap32_small (3 * num_positive)) by lia.
  destruct (3 * num_positive <? st.2)%Z eqn:Hcond.
  - set (sorted := std_sort _ _).
    destruct (cross_entropy_per_anchor_indices arm_conf_ positive_mask_b Hl)
      as [Hidx Hall].
    assert (Hperm : Permutation sorted
              (cross_entropy_per_anchor softmax log arm_conf_ positive_mask_b))
      by apply std_sort_perm.
    assert (Hidx' : Forall (fun p => p.1 < length arm_conf_) sorted).
    { eapply Permutation_Forall; [symmetry; exact Hperm | exact Hidx]. }
    destruct (mining_loop_spec (length arm_conf_) positive_mask_b num_positive
                HA Hnp sorted st Hinv Hidx') as (Hinv' & Hmono & Hres).
    split; [done|]. split; [|done].
    destruct Hres as [Hres|Hres]; [done|].
    destruct Hinv' as (Hl' & Hm' & Hc' & Hp').
    rewrite Hc', count_nz_zero; [lia|].
    intros i Hi. rewrite Hl' in Hi. destruct (Hall i Hi) as [v Hv].
    rewrite <- Hperm in Hv. rewrite Forall_forall in Hres.
    apply (Hres _ Hv).
  - split; [done|]. split; [|done]. apply Z.ltb_ge in Hcond. done.
Qed.

Lemma odm_labels_mask (A : nat) (pm nm idx : list Z)
    (gt_class_ : list (list spec_float)) (n : nat) :
  let f := fun (st : list Z * list Z) i =>
    (<[i := wrap32 (pm !!! i + nm !!! i)]> st.1,
     if truthy (nm !!! i) then <[i := 0%Z]> st.2
     else <[i := Z.of_nat (max_element (gt_class_ !!! Z.to_nat (idx !!! i)))]> st.2) in
  n <= A ->
  let st := foldl f (replicate A 0%Z, replicate A 0%Z) (seq 0 n) in
  length st.1 = A /\
  forall i, i < n -> st.1 !!! i = wrap32 (pm !!! i + nm !!! i).
Proof.
  intros f. induction n as [|n IH]; intros Hn; cbv zeta.
  - cbn [seq foldl fst]. split; [apply length_replicate|]. intros i Hi. lia.
  - rewrite seq_S, foldl_app. cbn [foldl Nat.add].
    destruct (IH ltac:(lia)) as [Hl Hp]. clear IH.
    set (st := foldl f _ (seq 0 n)) in *.
    change ((f st n).1) with (<[n := wrap32 (pm !!! n + nm !!! n)]> st.1).
    split; [by rewrite length_insert|].
    intros i Hi. destruct (decide (i = n)) as [->|Hne].
    + by rewrite list_lookup_total_insert_eq by lia.
    + rewrite list_lookup_total_insert_ne by done. apply Hp. lia.
Qed.

Lemma split_w_length off n (t : list (list spec_float)) :
  length (split_w off n t) = length t.
Proof. unfold split_w. apply length_map. Qed.

(** The masks and counts of one batch item. *)
Lemma forwarding_item_masks (num_gt_boxes : nat)
    (anchors : list (list spec_float) * list (list spec_float))
    (input_b gt_b : list (list spec_float)) (output : spec_float) :
  anchors.1 <> [] -> length anchors.2 = length anchors.1 ->
  (3 * Z.of_nat (length anchors.1) < 2 ^ 32)%Z ->
  length input_b = length anchors.1 ->
  let r := forwarding_item softmax log std_sort num_gt_boxes anchors
             input_b gt_b output in
  (it_num_negative r <= 3 * it_num_positive r)%Z /\
  it_num_negative r = Z.of_nat (count_nz (it_negative_mask r)) /\
  it_num_positive r = Z.of_nat (count_nz (it_positive_mask r)) /\
  forall i, i < length anchors.1 ->
    it_pos_neg_mask r !!! i
      = (it_positive_mask r !!! i + it_negative_mask r !!! i)%Z /\
    (it_positive_mask r !!! i = 0%Z \/ it_positive_mask r !!! i = 1%Z) /\
    (it_negative_mask r !!! i = 0%Z \/ it_negative_mask r !!! i = 1%Z) /\
    (it_positive_mask r !!! i <> 0%Z -> it_negative_mask r !!! i = 0%Z).
Proof.
  intros Hne Hlen2 HA Hin. cbv zeta. unfold forwarding_item. cbv zeta.
  cbn [it_num_negative it_num_positive it_negative_mask it_positive_mask
       it_pos_neg_mask].
  set (A := length anchors.1) in *.
  set (m := match_anchors num_gt_boxes anchors _ _).
  assert (Hset : forall i, i ∈ positive_idx_set m -> i < A).
  { intros i Hi. eapply match_anchors_set_bound; eauto. }
  destruct (make_positive_mask_spec A (positive_idx_set m) Hset)
    as (Hpl & Hpm & Hpc & Hpk).
  set (pm := make_positive_mask A (positive_idx_set m)) in *.
  assert (Hsize : size (positive_idx_set m) <= A).
  { rewrite <- Hpc, <- Hpl. apply count_nz_le. }
  rewrite (wrap32_small (Z.of_nat (size (positive_idx_set m)))) by lia.
  rewrite <- Hpc.
  set (arm_conf_ := arm_conf_of input_b).
  assert (Hcl : length arm_conf_ = A) by (unfold arm_conf_, arm_conf_of; by rewrite split_w_length).
  destruct (negative_filter_spec A pm arm_conf_ HA Hpl Hpm) as (Hfl & Hfm & Hfc & _ & Hfk).
  set (neg0 := negative_filter A _ pm arm_conf_) in *.
  assert (Hinv0 : mining_inv A pm neg0).
  { split; [done|]. split; [done|]. split; [done|].
    intros i Hi Hnz. rewrite Hfk in Hnz by done.
    destruct (decide (pm !!! i = 0%Z)); done. }
  rewrite <- Hcl in HA, Hinv0, Hpl.
  destruct (hard_negative_mining_spec pm arm_conf_ (Z.of_nat (count_nz pm)) neg0 HA
              ltac:(pose proof (count_nz_le pm); lia) Hpl Hinv0)
    as (Hinv & Hcap & _).
  set (neg := hard_negative_mining _ _ _ _ pm arm_conf_ neg0) in *.
  rewrite Hcl in *. destruct Hinv as (Hnl & Hnm & Hnc & Hnp).
  split; [done|]. split; [done|]. split; [done|].
  intros i Hi.
  destruct (odm_labels_mask A pm neg.1 (anchor_gt_label_idx m) (gt_class_of gt_b) A
              ltac:(lia)) as [_ Hlab].
  unfold odm_labels. rewrite Hlab by done.
  pose proof (is_mask_lookup pm i Hpm ltac:(lia)) as Hpi.
  pose proof (is_mask_lookup neg.1 i Hnm ltac:(lia)) as Hni.
  assert (Himp : pm !!! i <> 0%Z -> neg.1 !!! i = 0%Z).
  { intros Hp. destruct (decide (neg.1 !!! i = 0%Z)) as [|Hn]; [done|].
    exfalso. apply Hp. by apply Hnp. }
  split; [|done].
  rewrite wrap32_small; [done|].
  destruct Hpi as [Hpi | Hpi], Hni as [Hni | Hni]; lia.
Qed.
End Item.

(** * Box regression gradients *)

(** ** The element function of the smooth-L1 derivative *)

Lemma leb_not_ltb (x y : spec_float) : F32.leb x y = true -> F32.ltb y x = false.
Proof.
  intros Hle. apply not_true_is_false. intros Hlt.
  pose proof (ltb_leb_trans _ _ _ Hlt Hle) as H. rewrite ltb_irrefl in H. discriminate.
Qed.

Lemma smooth_l1_derivative_elem_cases (d : spec_float) :
  (F32.ltb (F32.of_Z (-1)) d = true -> F32.ltb d (F32.of_Z 1) = true ->
   smooth_l1_derivative_elem d = d) /\
  (F32.leb d (F32.of_Z (-1)) = true -> smooth_l1_derivative_elem d = F32.of_Z (-1)) /\
  (F32.leb (F32.of_Z 1) d = true -> smooth_l1_derivative_elem d = F32.of_Z 1).
Proof.
  unfold smooth_l1_derivative_elem. split; [|split].
  - intros -> ->. done.
  - intros Hle. rewrite (leb_not_ltb _ _ Hle). cbn [andb].
    assert (Hlt : F32.ltb d F32.zero = true).
    { eapply leb_ltb_trans; [exact Hle|]. vm_compute. reflexivity. }
    by rewrite Hlt.
  - intros Hle. rewrite (leb_not_ltb _ _ Hle), andb_false_r.
    assert (Hnlt : F32.ltb d F32.zero = false).
    { apply not_true_is_false. intros Hlt.
      pose proof (leb_ltb_trans _ _ _ Hle Hlt) as H. vm_compute in H. discriminate. }
    assert (Hgt : F32.ltb F32.zero d = true).
    { eapply ltb_leb_trans; [|exact Hle]. vm_compute. reflexivity. }
    by rewrite Hnlt, Hgt.
Qed.

Lemma lookup_total_row (t : list (list spec_float)) (i : nat) (r : list spec_float) :
  t !! i = Some r -> t !!! i = r.
Proof. apply list_lookup_total_correct. Qed.

Lemma split_w_lookup_total (off n : nat) (t : list (list spec_float)) (i : nat) :
  i < length t -> split_w off n t !!! i = take n (drop off (t !!! i)).
Proof.
  intros Hi. unfold split_w. change (map ?f t) with (f <$> t).
  by rewrite (list_lookup_total_fmap (fun r : list spec_float => take n (drop off r))).
Qed.

Lemma smooth_l1_derivative_lookup (x y : list (list spec_float)) (l : list Z)
    (i c : nat) :
  has_width 4 x -> has_width 4 y -> length y = length x ->
  i < length x -> c < 2 ->
  let d := smooth_l1_derivative x y l in
  let g := fun k =>
    if truthy (l !!! i)
    then smooth_l1_derivative_elem (F32.sub ((x !!! i) !!! k) ((y !!! i) !!! k))
    else F32.zero in
  (d.1 !!! i) !!! c = g c /\ (d.2 !!! i) !!! c = g (2 + c) /\
  length d.1 = length x /\ length d.2 = length x /\
  has_width 2 d.1 /\ has_width 2 d.2.
Proof.
  intros Hx Hy Hlen Hi Hc. cbv zeta. unfold smooth_l1_derivative. cbv zeta.
  set (x3 := zero_rows l (tmap smooth_l1_derivative_elem (tzip F32.sub x y))).
  assert (Hrow : forall j, j < length x ->
            exists a0 a1 a2 a3 b0 b1 b2 b3,
              x !! j = Some [a0; a1; a2; a3] /\ y !! j = Some [b0; b1; b2; b3] /\
              x3 !! j = Some (map (fun v => if truthy (l !!! j)
                                            then smooth_l1_derivative_elem v else F32.zero)
                                [F32.sub a0 b0; F32.sub a1 b1; F32.sub a2 b2; F32.sub a3 b3])).
  { intros j Hj.
    destruct (lookup_lt_is_Some_2 x j Hj) as [rx Hrx].
    destruct (lookup_lt_is_Some_2 y j ltac:(lia)) as [ry Hry].
    pose proof (Forall_lookup_1 _ _ _ _ Hx Hrx) as Hlx. cbv beta in Hlx.
    pose proof (Forall_lookup_1 _ _ _ _ Hy Hry) as Hly. cbv beta in Hly.
    destruct rx as [|a0 [|a1 [|a2 [|a3 [|]]]]]; try discriminate Hlx.
    destruct ry as [|b0 [|b1 [|b2 [|b3 [|]]]]]; try discriminate Hly.
    exists a0, a1, a2, a3, b0, b1, b2, b3. split; [done|]. split; [done|].
    unfold x3, zero_rows, tmap, tzip. rewrite list_lookup_imap.
    change (map ?f (zip_with ?g x y)) with (f <$> zip_with g x y).
    rewrite list_lookup_fmap, lookup_zip_with, Hrx, Hry. cbn.
    destruct (truthy (l !!! j)); done. }
  assert (Hw : tensor_width x3 = 4).
  { unfold tensor_width. destruct (Hrow 0 ltac:(lia)) as (?&?&?&?&?&?&?&?&_&_&H0).
    rewrite (lookup_total_row _ _ _ H0). done. }
  rewrite Hw. change (4 / 2) with 2.
  assert (Hl3 : length x3 = length x).
  { unfold x3, zero_rows, tmap, tzip.
    rewrite length_imap, length_map, length_zip_with. lia. }
  destruct (Hrow i Hi) as (a0&a1&a2&a3&b0&b1&b2&b3&Hxi&Hyi&H3).
  rewrite (lookup_total_row _ _ _ Hxi), (lookup_total_row _ _ _ Hyi).
  cbn [fst snd]. rewrite !split_w_lookup_total by lia.
  rewrite (lookup_total_row _ _ _ H3). unfold split_w.
  change (map ?f x3) with (f <$> x3).
  split; [|split; [|split; [|split; [|split]]]].
  - destruct c as [|[|c]]; [| |lia]; cbn; destruct (truthy (l !!! i)); done.
  - destruct c as [|[|c]]; [| |lia]; cbn; destruct (truthy (l !!! i)); done.
  - by rewrite length_fmap.
  - by rewrite length_fmap.
  - apply Forall_forall. intros r Hr. apply list_elem_of_fmap in Hr as (r' & -> & Hr').
    apply list_elem_of_lookup in Hr' as [j Hj].
    destruct (Hrow j) as (?&?&?&?&?&?&?&?&_&_&H0).
    { apply lookup_lt_Some in Hj. lia. }
    rewrite H0 in Hj. injection Hj as <-. done.
  - apply Forall_forall. intros r Hr. apply list_elem_of_fmap in Hr as (r' & -> & Hr').
    apply list_elem_of_lookup in Hr' as [j Hj].
    destruct (Hrow j) as (?&?&?&?&?&?&?&?&_&_&H0).
    { apply lookup_lt_Some in Hj. lia. }
    rewrite H0 in Hj. injection Hj as <-. done.
Qed.

Lemma tmap_lookup (f : spec_float -> spec_float) (t : list (list spec_float))
    (i c w : nat) :
  has_width w t -> i < length t -> c < w ->
  (tmap f t !!! i) !!! c = f ((t !!! i) !!! c).
Proof.
  intros Hw Hi Hc. unfold tmap.
  destruct (lookup_lt_is_Some_2 t i Hi) as [r Hr].
  pose proof (Forall_lookup_1 _ _ _ _ Hw Hr) as Hl. cbv beta in Hl.
  change (map (map f) t) with (map f <$> t).
  rewrite (list_lookup_total_fmap (A:=list spec_float) (B:=list spec_float) (map f))
    by done.
  rewrite (lookup_total_row _ _ _ Hr).
  change (map f r) with (f <$> r).
  rewrite (list_lookup_total_fmap (A:=spec_float) (B:=spec_float) f) by lia. done.
Qed.

Lemma tmap_shape (f : spec_float -> spec_float) (t : list (list spec_float)) (w : nat) :
  has_width w t -> has_width w (tmap f t) /\ length (tmap f t) = length t.
Proof.
  intros Hw. unfold tmap. split; [|apply length_map].
  apply Forall_forall. intros r Hr.
  apply list_elem_of_In, in_map_iff in Hr as (r' & <- & Hr').
  rewrite length_map. unfold has_width in Hw. rewrite Forall_forall in Hw.
  apply Hw. by apply list_elem_of_In.
Qed.

(** The four blocks [calcDerivative] derives from the box predictions of
    one item: both ARM blocks and the ODM centre block hold the masked,
    scaled element gradients; the ODM size block is reset to zero. *)
Lemma box_derivatives_lookup
    (arm_yxhw odm_yxhw gt_yxhw : list (list spec_float))
    (positive_mask_b : list Z) (num_positive : Z) (i c : nat) :
  has_width 4 arm_yxhw -> has_width 4 odm_yxhw -> has_width 4 gt_yxhw ->
  length arm_yxhw = length gt_yxhw -> length odm_yxhw = length gt_yxhw ->
  i < length gt_yxhw -> c < 2 ->
  let d := box_derivatives arm_yxhw odm_yxhw gt_yxhw positive_mask_b num_positive in
  let grad := masked_grad positive_mask_b num_positive i in
  (d.1.1 !!! i) !!! c
    = grad ((arm_yxhw !!! i) !!! c) ((gt_yxhw !!! i) !!! c) /\
  (d.1.2 !!! i) !!! c
    = grad ((arm_yxhw !!! i) !!! (2 + c)) ((gt_yxhw !!! i) !!! (2 + c)) /\
  (d.2.1 !!! i) !!! c
    = grad ((odm_yxhw !!! i) !!! c) ((gt_yxhw !!! i) !!! c) /\
  (d.2.2 !!! i) !!! c = F32.zero.
Proof.
  intros Ha Ho Hg Hla Hlo Hi Hc. cbv zeta. unfold box_derivatives. cbv zeta.
  cbn [fst snd].
  destruct (smooth_l1_derivative_lookup arm_yxhw gt_yxhw positive_mask_b i c
              Ha Hg ltac:(lia) ltac:(lia) Hc) as (A1 & A2 & A3 & A4 & A5 & A6).
  destruct (smooth_l1_derivative_lookup odm_yxhw gt_yxhw positive_mask_b i c
              Ho Hg ltac:(lia) ltac:(lia) Hc) as (O1 & O2 & O3 & O4 & O5 & O6).
  unfold masked_grad.
  unfold divide_i, setZero.
  rewrite !(tmap_lookup _ _ _ _ 2) by (first [done | lia]).
  rewrite A1, A2, O1.
  split; [done|]. split; [done|]. split; [done|].
  destruct (tmap_shape (fun v => F32.div v (F32.of_Z num_positive)) _ 2 O6)
    as [Hw Hl].
  rewrite (tmap_lookup _ _ _ _ 2); [done|exact Hw|lia|done].
Qed.

(** * The batch loop *)

Lemma insert_by_perm {A} (cmp : A -> A -> bool) (x : A) (l : list A) :
  Permutation (insert_by cmp x l) (x :: l).
Proof.
  induction l as [|y r IH]; simpl; [done|].
  destruct (cmp x y); [done|]. rewrite IH. apply perm_swap.
Qed.

Lemma insertion_sort_perm {A} (cmp : A -> A -> bool) (l : list A) :
  Permutation (insertion_sort cmp l) l.
Proof.
  induction l as [|x l IH]; simpl; [done|].
  rewrite insert_by_perm. by constructor.
Qed.

Section Forward.
Variable softmax : list (list spec_float) -> list (list spec_float).
Variable log : spec_float -> spec_float.
Variable std_sort :
  (nat * spec_float -> nat * spec_float -> bool) ->
  list (nat * spec_float) -> list (nat * spec_float).

Lemma forwarding_fold_counts (n : nat) (input gt : list (list (list spec_float)))
    (k : nat) :
  let acc := foldl (forwarding_step softmax log std_sort n create_anchors input gt)
               (empty_state, F32.zero) (seq 0 k) in
  num_positive_anchors acc.1
    = map (fun b => item_num_positive n (gt !!! b)) (seq 0 k).
Proof.
  cbv zeta. induction k as [|k IH]; [done|].
  rewrite seq_S, foldl_app, map_app. cbn [foldl map Nat.add].
  unfold forwarding_step at 1. cbn [fst snd push_item num_positive_anchors].
  rewrite IH. f_equal.
Qed.

Lemma forwarding_counts (input gt : list (list (list spec_float))) :
  num_positive_anchors (forwarding softmax log std_sort input gt).1
    = map (fun b => item_num_positive (num_gt_boxes_of gt) (gt !!! b))
        (seq 0 (length input)).
Proof. unfold forwarding. cbv zeta. cbn [fst]. apply forwarding_fold_counts. Qed.

(** The positive mask stored for each item. *)
Lemma forwarding_fold_masks (n : nat) (input gt : list (list (list spec_float)))
    (k : nat) :
  let acc := foldl (forwarding_step softmax log std_sort n create_anchors input gt)
               (empty_state, F32.zero) (seq 0 k) in
  positive_mask acc.1
    = map (fun b => make_positive_mask (length create_anchors.1)
                      (positive_idx_set
                         (match_anchors n create_anchors (gt_yx_of (gt !!! b))
                            (gt_hw_of (gt !!! b)))))
        (seq 0 k).
Proof.
  cbv zeta. induction k as [|k IH]; [reflexivity|].
  rewrite seq_S, foldl_app, map_app. cbn [foldl map Nat.add].
  unfold forwarding_step at 1. cbn [fst snd push_item positive_mask].
  rewrite IH. f_equal.
Qed.

Lemma forwarding_masks (input gt : list (list (list spec_float))) :
  positive_mask (forwarding softmax log std_sort input gt).1
    = map (fun b => make_positive_mask (length create_anchors.1)
                      (positive_idx_set
                         (match_anchors (num_gt_boxes_of gt) create_anchors
                            (gt_yx_of (gt !!! b)) (gt_hw_of (gt !!! b)))))
        (seq 0 (length input)).
Proof. unfold forwarding. cbv zeta. cbn [fst]. apply forwarding_fold_masks. Qed.

(** An item without positive anchors leaves the accumulated loss as it is. *)
Lemma forwarding_item_no_positive (n : nat) anchors
    (input_b gt_b : list (list spec_float)) (output : spec_float) :
  it_num_positive (forwarding_item softmax log std_sort n anchors input_b gt_b output)
    = 0%Z ->
  it_output (forwarding_item softmax log std_sort n anchors input_b gt_b output)
    = output.
Proof.
  unfold forwarding_item. cbv zeta. cbn [it_num_positive it_output].
  intros ->. unfold add_if_positive. cbn [truthy Z.eqb negb]. done.
Qed.
End Forward.

Lemma make_positive_mask_empty (A : nat) :
  make_positive_mask A ∅ = replicate A 0%Z.
Proof. unfold make_positive_mask. rewrite elements_empty. reflexivity. Qed.

(** * Mining on the generated anchors *)

Lemma num_anchors_eq : num_anchors = 3000.
Proof. reflexivity. Qed.

Lemma create_anchors_nonempty : create_anchors.1 <> [].
Proof.
  intros H. pose proof (proj1 create_anchors_length) as Hl. rewrite H in Hl.
  rewrite num_anchors_eq in Hl. discriminate Hl.
Qed.

(** C8: for a batch item processed on the generated anchors, with a sort
    that permutes its input, the negative count left by the miner is at
    most three times the positive count; both counts are the numbers of set
    entries of their masks; and every anchor of the positive mask is in the
    final pos_neg_mask and in no case in the negative mask. *)
Theorem hard_negative_mining_cap
    (softmax : list (list spec_float) -> list (list spec_float))
    (log : spec_float -> spec_float)
    (std_sort : (nat * spec_float -> nat * spec_float -> bool) ->
                list (nat * spec_float) -> list (nat * spec_float))
    (num_gt_boxes : nat) (input_b gt_b : list (list spec_float))
    (output : spec_float) :
  (forall cmp l, Permutation (std_sort cmp l) l) ->
  length input_b = num_anchors ->
  let r := forwarding_item softmax log std_sort num_gt_boxes create_anchors
             input_b gt_b output in
  (it_num_negative r <= 3 * it_num_positive r)%Z /\
  it_num_negative r = Z.of_nat (count_nz (it_negative_mask r)) /\
  it_num_positive r = Z.of_nat (count_nz (it_positive_mask r)) /\
  forall i, i < num_anchors ->
    it_positive_mask r !!! i <> 0%Z ->
    it_pos_neg_mask r !!! i <> 0%Z /\ it_negative_mask r !!! i = 0%Z.
Proof.
  intros Hperm Hlen.
  pose proof create_anchors_length as [Hl1 Hl2].
  destruct (forwarding_item_masks softmax log std_sort Hperm num_gt_boxes
              create_anchors input_b gt_b output create_anchors_nonempty)
    as (H1 & H2 & H3 & H4).
  - congruence.
  - rewrite Hl1, num_anchors_eq. lia.
  - congruence.
  - cbv zeta. split; [exact H1|]. split; [exact H2|]. split; [exact H3|].
    intros i Hi Hp. rewrite <- Hl1 in Hi.
    destruct (H4 i Hi) as (Hsum & Hpm & Hnm & Himp).
    split; [|by apply Himp]. rewrite Hsum, (Himp Hp). lia.
Qed.

(** An item of zero predictions and an empty label, with the reference
    softmax, the identity for [log] and insertion sort. *)
Lemma hard_negative_mining_cap_witness :
  let input_b := replicate 3000 (replicate 31 F32.zero) in
  let gt_b := replicate 5 (replicate 26 F32.zero) in
  let r := forwarding_item softmax_ref (fun x => x) insertion_sort 0 create_anchors
             input_b gt_b F32.zero in
  (it_num_negative r <= 3 * it_num_positive r)%Z /\
  it_num_negative r = Z.of_nat (count_nz (it_negative_mask r)) /\
  it_num_positive r = Z.of_nat (count_nz (it_positive_mask r)) /\
  forall i, i < num_anchors ->
    it_positive_mask r !!! i <> 0%Z ->
    it_pos_neg_mask r !!! i <> 0%Z /\ it_negative_mask r !!! i = 0%Z.
Proof.
  apply (hard_negative_mining_cap softmax_ref (fun x => x) insertion_sort 0
           (replicate 3000 (replicate 31 F32.zero))
           (replicate 5 (replicate 26 F32.zero)) F32.zero).
  - intros cmp l. apply insertion_sort_perm.
  - apply length_replicate.
Defined.

(** * Best matches *)

Lemma far_gt_iou_0 : iou_at create_anchors far_gt_yx far_gt_hw 0 0 = F32.zero.
Proof. vm_compute. reflexivity. Qed.

(** C9 (amended): after the first k ground truths no processed ground
    truth has an IoU above the recorded one at anchor i; the anchor either
    still holds its initial record (index 0, IoU 0, zero targets), and then
    no processed ground truth has a positive IoU with it, or it records the
    earliest processed ground truth of maximal IoU, which is positive; and
    the next ground truth overwrites the record exactly when its IoU is
    strictly larger. *)
Theorem best_match_invariant (gt_yx_ gt_hw_ : list (list spec_float)) (k i : nat) :
  i < num_anchors ->
  let iou := fun j => iou_at create_anchors gt_yx_ gt_hw_ j i in
  let st := match_anchors k create_anchors gt_yx_ gt_hw_ in
  let st' := match_anchors (S k) create_anchors gt_yx_ gt_hw_ in
  (* no processed ground truth exceeds the recorded IoU *)
  (forall j, j < k -> F32.ltb (entry st i).1.1.2 (iou j) = false) /\
  (* the anchor is unmatched, or holds the earliest best ground truth *)
  ((entry st i = entry_none /\ forall j, j < k -> F32.ltb F32.zero (iou j) = false)
   \/
   (exists j, j < k /\ entry st i = entry_of_gt j (iou j) gt_yx_ gt_hw_ /\
      F32.ltb F32.zero (iou j) = true /\
      forall j', j' < j -> F32.leb (iou j) (iou j') = false)) /\
  (* the next ground truth overwrites the record only on a strictly larger IoU *)
  entry st' i = if F32.ltb (entry st i).1.1.2 (iou k)
                then entry_of_gt k (iou k) gt_yx_ gt_hw_
                else entry st i.
Proof.
  intros Hi. cbv zeta.
  assert (Hi' : i < length create_anchors.1) by (by rewrite (proj1 create_anchors_length)).
  destruct (best_match create_anchors gt_yx_ gt_hw_ k i Hi' Hi) as [H1 H2].
  split; [exact H1|]. split; [exact H2|].
  rewrite match_anchors_S.
  apply (match_gt_entry create_anchors gt_yx_ gt_hw_ _ k i
           (match_anchors_sized create_anchors gt_yx_ gt_hw_ k) Hi' Hi).
Qed.

(** Anchor 0 and the far box, after one ground truth. *)
Lemma best_match_invariant_witness :
  let iou := fun j => iou_at create_anchors far_gt_yx far_gt_hw j 0 in
  let st := match_anchors 1 create_anchors far_gt_yx far_gt_hw in
  let st' := match_anchors 2 create_anchors far_gt_yx far_gt_hw in
  (forall j, j < 1 -> F32.ltb (entry st 0).1.1.2 (iou j) = false) /\
  ((entry st 0 = entry_none /\ forall j, j < 1 -> F32.ltb F32.zero (iou j) = false)
   \/
   (exists j, j < 1 /\ entry st 0 = entry_of_gt j (iou j) far_gt_yx far_gt_hw /\
      F32.ltb F32.zero (iou j) = true /\
      forall j', j' < j -> F32.leb (iou j) (iou j') = false)) /\
  entry st' 0 = if F32.ltb (entry st 0).1.1.2 (iou 1)
                then entry_of_gt 1 (iou 1) far_gt_yx far_gt_hw
                else entry st 0.
Proof.
  apply (best_match_invariant far_gt_yx far_gt_hw 1 0).
  rewrite num_anchors_eq. lia.
Defined.

(** C9 as stated fails: the box of centre (175, 175) and size (50, 50)
    does not overlap anchor 0; after it has been processed the anchor holds
    the zero targets, not the centre and size of the box. *)
Lemma records_best_ground_truth_counterexample : ~ records_best_ground_truth.
Proof.
  intros H.
  assert (H0 : 0 < num_anchors) by (rewrite num_anchors_eq; lia).
  destruct (H far_gt_yx far_gt_hw 1 0 ltac:(lia) H0) as (j & Hj & _ & _ & He).
  assert (j = 0) by lia. subst j.
  assert (H0' : 0 < length create_anchors.1) by (by rewrite (proj1 create_anchors_length)).
  destruct (best_match create_anchors far_gt_yx far_gt_hw 1 0 H0' H0) as (_ & Hcase).
  destruct Hcase as [[Hnone _] | (j & Hj' & _ & Hpos & _)].
  - rewrite Hnone in He.
    apply (f_equal (fun e => e.1.2)) in He. vm_compute in He. discriminate He.
  - assert (j = 0) by lia. subst j. rewrite far_gt_iou_0 in Hpos.
    vm_compute in Hpos. discriminate Hpos.
Qed.

(** * Concrete batches *)


(** C6 (the code diverges): the vector is created with one
    value-initialised pair per label and the loop appends to it, so the
    result has [length l + length x] entries: first [length l] pairs
    (0, 0.0), then one pair (a, -log(softmax(x)_a[l_a] + 1e-20)) per
    anchor. *)
Theorem cross_entropy_per_anchor_entries
    (softmax : list (list spec_float) -> list (list spec_float))
    (log : spec_float -> spec_float)
    (x : list (list spec_float)) (l : list Z) :
  let r := cross_entropy_per_anchor softmax log x l in
  length r = length l + length x /\
  take (length l) r = replicate (length l) (0, F32.zero) /\
  drop (length l) r
    = map (fun a => (a, F32.of_double (F64.opp
             (log_eps log ((softmax x !!! a) !!! Z.to_nat (l !!! a))))))
        (seq 0 (length x)).
Proof.
  cbv zeta. unfold cross_entropy_per_anchor.
  split; [|split].
  - rewrite length_app, length_replicate, length_map, length_seq. reflexivity.
  - rewrite take_app_length'; [reflexivity | symmetry; apply length_replicate].
  - rewrite drop_app_length'; [reflexivity | symmetry; apply length_replicate].
Qed.

(** C4 (the code diverges): the height and width of the second box are
    read into [unsigned int] and lose their fraction. A box of size
    (1.5, 1.5) has IoU 2.25 with itself; boxes of sizes (2, 2) and
    (1.5, 1.5) at one centre have IoU 9/11 in one order and 9/16 in the
    other; a ground truth equal to anchor 0 has an IoU above 1 with it. *)
Theorem calc_iou_truncates_box2 :
  (* a box of centre (1, 1) and size (1.5, 1.5) against itself: 2.25 *)
  calc_iou [[F32.of_Z 1; F32.of_Z 1]] [[f32_q 3 2; f32_q 3 2]]
           [[F32.of_Z 1; F32.of_Z 1]] [[f32_q 3 2; f32_q 3 2]]
    = [f32_q 9 4] /\
  (* sizes (2, 2) and (1.5, 1.5) at the same centre: 9/11 one way, 9/16 the other *)
  calc_iou [[F32.zero; F32.zero]] [[F32.of_Z 2; F32.of_Z 2]]
           [[F32.zero; F32.zero]] [[f32_q 3 2; f32_q 3 2]]
    = [f32_q 9 11] /\
  calc_iou [[F32.zero; F32.zero]] [[f32_q 3 2; f32_q 3 2]]
           [[F32.zero; F32.zero]] [[F32.of_Z 2; F32.of_Z 2]]
    = [f32_q 9 16] /\
  (* a ground truth equal to anchor 0: above 1 *)
  F32.ltb (F32.of_Z 1)
    (calc_iou create_anchors.1 create_anchors.2
       [create_anchors.1 !!! 0] [create_anchors.2 !!! 0] !!! 0) = true.
Proof. vm_compute. repeat split; reflexivity. Qed.


Lemma mark_positive_mono v s l i :
  i ∈ s -> i ∈ foldl (mark_positive v) s l.
Proof.
  revert s. induction l as [|x l IH]; intros s Hi; [exact Hi|].
  cbn [foldl]. apply IH. unfold mark_positive. destruct (gt_double _ _); [|exact Hi].
  apply elem_of_union. right. exact Hi.
Qed.

Lemma match_anchors_positive anchors gt_yx_ gt_hw_ k :
  1 <= size (positive_idx_set (match_anchors (S k) anchors gt_yx_ gt_hw_)).
Proof.
  rewrite match_anchors_S. unfold match_gt. cbv zeta. cbn [positive_idx_set].
  set (v := calc_iou _ _ _ _). set (s := {[max_element v]} ∪ _).
  assert (Hin : max_element v ∈ foldl (mark_positive v) s (seq 0 (length anchors.1))).
  { apply mark_positive_mono. unfold s. apply elem_of_union. left.
    apply elem_of_singleton. reflexivity. }
  destruct (decide (size (foldl (mark_positive v) s (seq 0 (length anchors.1))) = 0))
    as [Hz|Hnz]; [|lia].
  apply size_empty_inv in Hz. exfalso. apply Hz in Hin.
  exact (not_elem_of_empty (C:=gset nat) _ Hin).
Qed.

(** C5 (the code diverges): the number of present ground-truth boxes is
    counted once, from the presence flags of batch item 0, and used for
    every item. In a batch whose item 0 has no box and whose item 1 has one
    present box, item 1 is matched against no box at all and gets no
    positive anchor, while its own box would give it at least one. *)
Theorem presence_flags_of_first_item
    (softmax : list (list spec_float) -> list (list spec_float))
    (log : spec_float -> spec_float)
    (std_sort : (nat * spec_float -> nat * spec_float -> bool) ->
                list (nat * spec_float) -> list (nat * spec_float)) :
  let input := [zero_item; zero_item] in
  let gt := [no_box_item; one_box_item] in
  (* item 1 carries one present box of its own *)
  num_gt_boxes_of [one_box_item] = 1 /\
  (* the count used for every item is read from item 0 *)
  num_gt_boxes_of gt = 0 /\
  (* so item 1 gets no positive anchor *)
  num_positive_anchors (forwarding softmax log std_sort input gt).1 = [0%Z; 0%Z] /\
  (* matching item 1 against its own box would give at least one *)
  1 <= size (positive_idx_set
               (match_anchors (num_gt_boxes_of [one_box_item]) create_anchors
                  (gt_yx_of one_box_item) (gt_hw_of one_box_item))).
Proof.
  cbv zeta.
  assert (H1 : num_gt_boxes_of [one_box_item] = 1) by (vm_compute; reflexivity).
  assert (H0 : num_gt_boxes_of [no_box_item; one_box_item] = 0)
    by (vm_compute; reflexivity).
  split; [exact H1|]. split; [exact H0|]. split.
  - rewrite forwarding_counts, H0. reflexivity.
  - rewrite H1. apply match_anchors_positive.
Qed.


Lemma div_by_zero_not_finite (v : spec_float) :
  F32.is_finite (F32.div v (F32.of_Z 0)) = false.
Proof. destruct v as [s|s| |s m e]; reflexivity. Qed.

Lemma tmap_Forall (f : spec_float -> spec_float) (P : spec_float -> Prop)
    (t : list (list spec_float)) :
  (forall v, P (f v)) -> Forall (Forall P) (tmap f t).
Proof.
  intros H. unfold tmap. apply Forall_forall. intros r Hr.
  apply list_elem_of_In, in_map_iff in Hr as (r' & <- & _).
  apply Forall_forall. intros v Hv.
  apply list_elem_of_In, in_map_iff in Hv as (v' & <- & _). apply H.
Qed.

(** With the reference softmax, the ARM confidence block of an item of
    zero logits and background labels holds -1/2 and 1/2 at anchor 0
    before the division by the positive count. *)
Lemma undivided_arm_conf_gradient :
  tzip F32.sub (softmax_ref (arm_conf_of zero_item))
    (one_hot (tensor_width (arm_conf_of zero_item)) (replicate 3000 0%Z)) !!! 0
  = [f32_q (-1) 2; f32_q 1 2].
Proof. vm_compute. reflexivity. Qed.

(** C1 (the code diverges): a batch of one item whose label has no present
    box has zero positive anchors. In the forward pass the four loss terms
    are guarded by the count and the loss stays zero. In the backward pass
    the count is used as a divisor without a test: the ARM confidence block
    of the item is softmax minus one-hot labels, every element divided by
    the zero count, so no element of it is finite, while before the
    division it is not zero either (-1/2 and 1/2 at anchor 0 under the
    reference softmax). The slice of the gradient is not all zeros. *)
Theorem zero_positive_item
    (softmax : list (list spec_float) -> list (list spec_float))
    (log : spec_float -> spec_float)
    (std_sort : (nat * spec_float -> nat * spec_float -> bool) ->
                list (nat * spec_float) -> list (nat * spec_float)) :
  let input := [zero_item] in
  let gt := [no_box_item] in
  let fw := forwarding softmax log std_sort input gt in
  let d := calcDerivative_item softmax log fw.1 create_anchors zero_item 0 in
  (* forward: no positive anchor, and the loss stays zero *)
  num_positive_anchors fw.1 = [0%Z] /\
  positive_mask fw.1 = [replicate 3000 0%Z] /\
  fw.2 = F32.zero /\
  (* backward: the ARM confidence block is divided by the zero count *)
  arm_conf_deriv_ d
    = divide_i
        (tzip F32.sub (softmax (arm_conf_of zero_item))
           (one_hot (tensor_width (arm_conf_of zero_item)) (positive_mask fw.1 !!! 0)))
        (F32.of_Z 0) /\
  Forall (Forall (fun v => F32.is_finite v = false)) (arm_conf_deriv_ d) /\
  (* the block before the division, under the reference softmax *)
  tzip F32.sub (softmax_ref (arm_conf_of zero_item))
    (one_hot (tensor_width (arm_conf_of zero_item)) (positive_mask fw.1 !!! 0)) !!! 0
  = [f32_q (-1) 2; f32_q 1 2].
Proof.
  cbv zeta.
  assert (H0 : num_gt_boxes_of [no_box_item] = 0) by (vm_compute; reflexivity).
  assert (Hc : num_positive_anchors
                 (forwarding softmax log std_sort [zero_item] [no_box_item]).1 = [0%Z]).
  { rewrite forwarding_counts, H0. reflexivity. }
  assert (Hm : positive_mask
                 (forwarding softmax log std_sort [zero_item] [no_box_item]).1
               = [replicate 3000 0%Z]).
  { rewrite forwarding_masks, H0. cbn [length seq map].
    unfold match_anchors. cbn [seq foldl match_init positive_idx_set].
    rewrite make_positive_mask_empty, (proj1 create_anchors_length), num_anchors_eq.
    reflexivity. }
  assert (Hd : arm_conf_deriv_
                 (calcDerivative_item softmax log
                    (forwarding softmax log std_sort [zero_item] [no_box_item]).1
                    create_anchors zero_item 0)
               = divide_i
                   (tzip F32.sub (softmax (arm_conf_of zero_item))
                      (one_hot (tensor_width (arm_conf_of zero_item))
                         (positive_mask
                            (forwarding softmax log std_sort [zero_item] [no_box_item]).1
                          !!! 0)))
                   (F32.of_Z 0)).
  { unfold calcDerivative_item. cbv zeta. cbn [arm_conf_deriv_].
    rewrite Hc. reflexivity. }
  split; [exact Hc|]. split; [exact Hm|]. split; [|split; [exact Hd|split]].
  - unfold forwarding. cbv zeta. cbn [snd fst length seq foldl].
    unfold forwarding_step. cbn [fst snd].
    rewrite forwarding_item_no_positive; [reflexivity|].
    rewrite H0. reflexivity.
  - rewrite Hd. apply tmap_Forall. intros v. apply div_by_zero_not_finite.
  - rewrite Hm. change ([replicate 3000 0%Z] !!! 0) with (replicate 3000 0%Z).
    exact undivided_arm_conf_gradient.
Qed.

(** * Further properties of the forward pass *)

(** X1: an item whose positive count is zero adds nothing to the loss in
    the forward pass: each of the four loss terms is guarded by the count
    (lines 390, 400, 499 and 504). *)
Theorem forward_skips_item_without_positive
    (softmax : list (list spec_float) -> list (list spec_float))
    (log : spec_float -> spec_float)
    (std_sort : (nat * spec_float -> nat * spec_float -> bool) ->
                list (nat * spec_float) -> list (nat * spec_float))
    (num_gt_boxes : nat)
    (anchors : list (list spec_float) * list (list spec_float))
    (input_b gt_b : list (list spec_float)) (output : spec_float) :
  it_num_positive
    (forwarding_item softmax log std_sort num_gt_boxes anchors input_b gt_b output)
    = 0%Z ->
  it_output
    (forwarding_item softmax log std_sort num_gt_boxes anchors input_b gt_b output)
    = output.
Proof. apply forwarding_item_no_positive. Qed.

(** An item without boxes on top of a loss of 1. *)
Lemma forward_skips_item_without_positive_witness :
  it_output
    (forwarding_item softmax_ref (fun x => x) insertion_sort 0 create_anchors
       zero_item no_box_item F32.one)
  = F32.one.
Proof.
  apply (forward_skips_item_without_positive softmax_ref (fun x => x)
           insertion_sort 0 create_anchors zero_item no_box_item F32.one).
  reflexivity.
Defined.

(** X2: once at least one ground truth has been matched against the
    generated anchors, the positive set is not empty (the anchor of maximal
    IoU is inserted whatever its IoU, line 362), and it holds anchor
    indices only. *)
Theorem matching_marks_an_anchor (gt_yx_ gt_hw_ : list (list spec_float)) (k : nat) :
  let s := positive_idx_set (match_anchors (S k) create_anchors gt_yx_ gt_hw_) in
  1 <= size s /\ forall i, i ∈ s -> i < num_anchors.
Proof.
  cbv zeta. split; [apply match_anchors_positive|].
  intros i Hi. pose proof create_anchors_length as [Hl1 Hl2].
  rewrite <- Hl1.
  apply (match_anchors_set_bound create_anchors gt_yx_ gt_hw_ (S k) i
           create_anchors_nonempty); [congruence | exact Hi].
Qed.

(** X3: for an item processed on the generated anchors, the positive and
    the negative mask hold 0 or 1, no anchor is in both, and pos_neg_mask
    is their sum (line 465). *)
Theorem pos_neg_mask_is_disjoint_sum
    (softmax : list (list spec_float) -> list (list spec_float))
    (log : spec_float -> spec_float)
    (std_sort : (nat * spec_float -> nat * spec_float -> bool) ->
                list (nat * spec_float) -> list (nat * spec_float))
    (num_gt_boxes : nat) (input_b gt_b : list (list spec_float))
    (output : spec_float) (i : nat) :
  (forall cmp l, Permutation (std_sort cmp l) l) ->
  length input_b = num_anchors -> i < num_anchors ->
  let r := forwarding_item softmax log std_sort num_gt_boxes create_anchors
             input_b gt_b output in
  it_pos_neg_mask r !!! i = (it_positive_mask r !!! i + it_negative_mask r !!! i)%Z /\
  (it_positive_mask r !!! i = 0%Z \/ it_positive_mask r !!! i = 1%Z) /\
  (it_negative_mask r !!! i = 0%Z \/ it_negative_mask r !!! i = 1%Z) /\
  (it_positive_mask r !!! i = 0%Z \/ it_negative_mask r !!! i = 0%Z).
Proof.
  intros Hperm Hlen Hi.
  pose proof create_anchors_length as [Hl1 Hl2].
  destruct (forwarding_item_masks softmax log std_sort Hperm num_gt_boxes
              create_anchors input_b gt_b output create_anchors_nonempty)
    as (_ & _ & _ & H4).
  - congruence.
  - rewrite Hl1, num_anchors_eq. lia.
  - congruence.
  - cbv zeta. rewrite <- Hl1 in Hi.
    destruct (H4 i Hi) as (Hsum & Hpm & Hnm & Himp).
    split; [exact Hsum|]. split; [exact Hpm|]. split; [exact Hnm|].
    destruct Hpm as [Hp0|Hp1]; [left; exact Hp0|right].
    apply Himp. rewrite Hp1. discriminate.
Qed.

(** Anchor 7 of an item of zero predictions and an empty label. *)
Lemma pos_neg_mask_is_disjoint_sum_witness :
  let r := forwarding_item softmax_ref (fun x => x) insertion_sort 0 create_anchors
             zero_item no_box_item F32.zero in
  it_pos_neg_mask r !!! 7 = (it_positive_mask r !!! 7%nat + it_negative_mask r !!! 7%nat)%Z /\
  (it_positive_mask r !!! 7 = 0%Z \/ it_positive_mask r !!! 7 = 1%Z) /\
  (it_negative_mask r !!! 7 = 0%Z \/ it_negative_mask r !!! 7 = 1%Z) /\
  (it_positive_mask r !!! 7 = 0%Z \/ it_negative_mask r !!! 7 = 0%Z).
Proof.
  apply (pos_neg_mask_is_disjoint_sum softmax_ref (fun x => x) insertion_sort 0
           zero_item no_box_item F32.zero 7).
  - intros cmp l. apply insertion_sort_perm.
  - apply length_replicate.
  - rewrite num_anchors_eq. lia.
Defined.

(** * Shapes, matching, mining and gradients: further properties *)

(** * Shapes *)

Lemma has_width_lookup (w : nat) (t : list (list spec_float)) (i : nat)
    (r : list spec_float) :
  has_width w t -> t !! i = Some r -> length r = w.
Proof. intros Hw Hr. exact (Forall_lookup_1 _ _ _ _ Hw Hr). Qed.

Lemma cat_w_length (x y : list (list spec_float)) :
  length (cat_w x y) = min (length x) (length y).
Proof. unfold cat_w. apply length_zip_with. Qed.

Lemma cat_w_width (a b : nat) (x y : list (list spec_float)) :
  has_width a x -> has_width b y -> has_width (a + b) (cat_w x y).
Proof.
  intros Hx Hy. unfold has_width, cat_w. apply Forall_forall. intros r Hr.
  apply list_elem_of_lookup in Hr as [i Hi].
  apply lookup_zip_with_Some in Hi as (r1 & r2 & -> & H1 & H2).
  rewrite length_app, (has_width_lookup _ _ _ _ Hx H1), (has_width_lookup _ _ _ _ Hy H2).
  reflexivity.
Qed.

Lemma cat_w_shape (h a b : nat) (x y : list (list spec_float)) :
  has_shape h a x -> has_shape h b y -> has_shape h (a + b) (cat_w x y).
Proof.
  intros [Hl1 Hw1] [Hl2 Hw2]. split; [|by apply cat_w_width].
  rewrite cat_w_length. lia.
Qed.

Lemma split_w_width (off n w : nat) (t : list (list spec_float)) :
  has_width w t -> off + n <= w -> has_width n (split_w off n t).
Proof.
  intros Hw Hle. unfold has_width, split_w. apply Forall_forall. intros r Hr.
  apply list_elem_of_In, in_map_iff in Hr as (r' & <- & Hr').
  apply list_elem_of_In in Hr'.
  unfold has_width in Hw. rewrite Forall_forall in Hw. specialize (Hw _ Hr').
  rewrite length_take, length_drop. lia.
Qed.

Lemma split_w_shape (off n h w : nat) (t : list (list spec_float)) :
  has_shape h w t -> off + n <= w -> has_shape h n (split_w off n t).
Proof.
  intros [Hl Hw] Hle. split; [by rewrite split_w_length|].
  by apply (split_w_width off n w).
Qed.

Lemma tzip_shape (f : spec_float -> spec_float -> spec_float) (h w : nat)
    (x y : list (list spec_float)) :
  has_shape h w x -> has_shape h w y -> has_shape h w (tzip f x y).
Proof.
  intros [Hl1 Hw1] [Hl2 Hw2]. unfold tzip. split.
  - rewrite length_zip_with. lia.
  - apply Forall_forall. intros r Hr.
    apply list_elem_of_lookup in Hr as [i Hi].
    apply lookup_zip_with_Some in Hi as (r1 & r2 & -> & H1 & H2).
    rewrite length_zip_with, (has_width_lookup _ _ _ _ Hw1 H1),
      (has_width_lookup _ _ _ _ Hw2 H2). lia.
Qed.

Lemma tmap_has_shape (f : spec_float -> spec_float) (h w : nat)
    (t : list (list spec_float)) :
  has_shape h w t -> has_shape h w (tmap f t).
Proof.
  intros [Hl Hw]. destruct (tmap_shape f t w Hw) as [H1 H2].
  split; [congruence|exact H1].
Qed.

Lemma zero_rows_shape (mask : list Z) (h w : nat) (t : list (list spec_float)) :
  has_shape h w t -> has_shape h w (zero_rows mask t).
Proof.
  intros [Hl Hw]. unfold zero_rows. split; [by rewrite length_imap|].
  apply Forall_forall. intros r Hr.
  apply list_elem_of_lookup in Hr as [i Hi].
  rewrite list_lookup_imap in Hi.
  destruct (t !! i) as [r'|] eqn:Hr'; [|discriminate Hi].
  cbn in Hi. injection Hi as <-.
  pose proof (has_width_lookup _ _ _ _ Hw Hr') as Hlen.
  destruct (truthy (mask !!! i)); [exact Hlen|by rewrite length_map].
Qed.

Lemma one_hot_shape (w : nat) (l : list Z) : has_shape (length l) w (one_hot w l).
Proof.
  unfold one_hot. split; [apply length_map|].
  apply Forall_forall. intros r Hr.
  apply list_elem_of_In, in_map_iff in Hr as (v & <- & _).
  by rewrite length_insert, length_replicate.
Qed.

(** * The shape of the generated anchors *)

Lemma reshape_tensor4_width (n c h : nat) f :
  has_width 2 (reshape_rows (tensor4 n c h 2 f)).
Proof.
  unfold has_width, reshape_rows, tensor4.
  apply Forall_concat_blocks, Forall_concat_blocks.
  apply Forall_tabulate. intros i _. apply Forall_tabulate. intros j _.
  apply Forall_tabulate. intros k _. apply length_tabulate.
Qed.

Lemma create_anchors__width base stride fm :
  has_width 2 (create_anchors_ base stride fm).1 /\
  has_width 2 (create_anchors_ base stride fm).2.
Proof. unfold create_anchors_. cbv zeta. split; apply reshape_tensor4_width. Qed.

Lemma create_anchors_shape :
  has_shape num_anchors 2 create_anchors.1 /\ has_shape num_anchors 2 create_anchors.2.
Proof.
  pose proof create_anchors_length as [Hl1 Hl2].
  split.
  - split; [exact Hl1|].
    unfold create_anchors, has_width. cbv zeta. cbn [fst].
    rewrite !Forall_app.
    split; [exact (proj1 (create_anchors__width _ _ _))|].
    split; [exact (proj1 (create_anchors__width _ _ _))|].
    split; exact (proj1 (create_anchors__width _ _ _)).
  - split; [exact Hl2|].
    unfold create_anchors, has_width. cbv zeta. cbn [snd].
    rewrite !Forall_app.
    split; [exact (proj2 (create_anchors__width _ _ _))|].
    split; [exact (proj2 (create_anchors__width _ _ _))|].
    split; exact (proj2 (create_anchors__width _ _ _)).
Qed.

(** * The shape of the recorded targets *)

Lemma has_width_insert (w : nat) (t : list (list spec_float)) (i : nat)
    (r : list spec_float) :
  has_width w t -> length r = w -> has_width w (<[i := r]> t).
Proof. intros Hw Hr. unfold has_width. apply Forall_insert; assumption. Qed.

Lemma update_best_width g v yx hw st i :
  has_width 2 (label_yx st) /\ has_width 2 (label_hw st) ->
  has_width 2 (label_yx (update_best g v yx hw st i)) /\
  has_width 2 (label_hw (update_best g v yx hw st i)).
Proof.
  intros [H1 H2]. unfold update_best. destruct (F32.ltb _ _); [|by split].
  cbn [label_yx label_hw]. split; apply has_width_insert; auto.
Qed.

Lemma fold_update_best_width g v yx hw st l :
  has_width 2 (label_yx st) /\ has_width 2 (label_hw st) ->
  has_width 2 (label_yx (foldl (update_best g v yx hw) st l)) /\
  has_width 2 (label_hw (foldl (update_best g v yx hw) st l)).
Proof.
  revert st. induction l as [|i l IH]; intros st H; [exact H|].
  cbn [foldl]. apply IH, update_best_width, H.
Qed.

Lemma match_anchors_width anchors gt_yx_ gt_hw_ k :
  has_width 2 (label_yx (match_anchors k anchors gt_yx_ gt_hw_)) /\
  has_width 2 (label_hw (match_anchors k anchors gt_yx_ gt_hw_)).
Proof.
  induction k as [|k IH].
  - unfold match_anchors. cbn [seq foldl match_init label_yx label_hw].
    split; apply Forall_replicate; reflexivity.
  - rewrite match_anchors_S. unfold match_gt. cbv zeta.
    generalize num_anchors. intros n. cbn [label_yx label_hw].
    apply fold_update_best_width, IH.
Qed.

Lemma match_anchors_targets_shape anchors gt_yx_ gt_hw_ k :
  has_shape (length anchors.1) 2 (label_yx (match_anchors k anchors gt_yx_ gt_hw_)) /\
  has_shape (length anchors.1) 2 (label_hw (match_anchors k anchors gt_yx_ gt_hw_)).
Proof.
  destruct (match_anchors_sized anchors gt_yx_ gt_hw_ k) as (_ & _ & H3 & H4).
  destruct (match_anchors_width anchors gt_yx_ gt_hw_ k) as [W1 W2].
  split; [exact (conj H3 W1)|exact (conj H4 W2)].
Qed.

(** * The ODM mask and class labels *)

Lemma odm_labels_length (A : nat) (pm nm idx : list Z)
    (gt_class_ : list (list spec_float)) :
  length (odm_labels A pm nm idx gt_class_).1 = A /\
  length (odm_labels A pm nm idx gt_class_).2 = A.
Proof.
  unfold odm_labels.
  assert (H : forall l (st : list Z * list Z),
             length st.1 = A /\ length st.2 = A ->
             let st' := foldl (fun (st : list Z * list Z) i =>
               (<[i := wrap32 (pm !!! i + nm !!! i)]> st.1,
                if truthy (nm !!! i) then <[i := 0%Z]> st.2
                else <[i := Z.of_nat (max_element (gt_class_ !!! Z.to_nat (idx !!! i)))]>
                       st.2)) st l in
             length st'.1 = A /\ length st'.2 = A).
  { induction l as [|i l IH]; intros st Hst; [exact Hst|].
    cbn [foldl]. apply IH. cbn [fst snd]. destruct Hst as [H1 H2].
    split; [by rewrite length_insert|].
    destruct (truthy _); by rewrite length_insert. }
  apply H. cbn [fst snd]. by rewrite !length_replicate.
Qed.

Lemma tensor_width_shape (h w : nat) (t : list (list spec_float)) :
  has_shape h w t -> 0 < h -> tensor_width t = w.
Proof.
  intros [Hl Hw] Hh. unfold tensor_width.
  destruct (lookup_lt_is_Some_2 t 0 ltac:(lia)) as [r Hr].
  rewrite (list_lookup_total_correct _ _ _ Hr).
  exact (has_width_lookup _ _ _ _ Hw Hr).
Qed.

Section Shapes.
Variable softmax : list (list spec_float) -> list (list spec_float).
Variable log : spec_float -> spec_float.
Variable std_sort :
  (nat * spec_float -> nat * spec_float -> bool) ->
  list (nat * spec_float) -> list (nat * spec_float).

(** The vectors one batch item adds to the cache. *)
Lemma forwarding_item_shape (num_gt_boxes : nat)
    (anchors : list (list spec_float) * list (list spec_float))
    (input_b gt_b : list (list spec_float)) (output : spec_float) :
  anchors.1 <> [] -> length anchors.2 = length anchors.1 ->
  let r := forwarding_item softmax log std_sort num_gt_boxes anchors
             input_b gt_b output in
  length (it_positive_mask r) = length anchors.1 /\
  length (it_pos_neg_mask r) = length anchors.1 /\
  length (it_gt_class_labels r) = length anchors.1 /\
  has_shape (length anchors.1) 2 (it_label_yx r) /\
  has_shape (length anchors.1) 2 (it_label_hw r).
Proof.
  intros Hne Hlen. cbv zeta. unfold forwarding_item. cbv zeta.
  cbn [it_positive_mask it_pos_neg_mask it_gt_class_labels it_label_yx it_label_hw].
  set (m := match_anchors num_gt_boxes anchors _ _).
  assert (Hset : forall i, i ∈ positive_idx_set m -> i < length anchors.1).
  { intros i Hi. eapply match_anchors_set_bound; eauto. }
  destruct (make_positive_mask_spec (length anchors.1) (positive_idx_set m) Hset)
    as (Hpl & _).
  split; [exact Hpl|].
  split; [apply odm_labels_length|]. split; [apply odm_labels_length|].
  apply match_anchors_targets_shape.
Qed.

Lemma push_item_shape (B A : nat) (st : RefineDetLoss) (r : item_result) :
  cache_shape B A st ->
  length (it_positive_mask r) = A -> length (it_pos_neg_mask r) = A ->
  length (it_gt_class_labels r) = A ->
  has_shape A 2 (it_label_yx r) -> has_shape A 2 (it_label_hw r) ->
  cache_shape (S B) A (push_item st r).
Proof.
  intros ([H1 F1] & [H2 F2] & [H3 F3] & [H4 F4] & [H5 F5] & H6) R1 R2 R3 R4 R5.
  unfold cache_shape, push_item.
  cbn [positive_mask pos_neg_mask anchor_gt_label_yx anchor_gt_label_hw
       gt_class_labels num_positive_anchors].
  rewrite !length_app, !Forall_app, !Forall_singleton. cbn [length].
  split; [split; [lia|exact (conj F1 R1)]|].
  split; [split; [lia|exact (conj F2 R2)]|].
  split; [split; [lia|exact (conj F3 R4)]|].
  split; [split; [lia|exact (conj F4 R5)]|].
  split; [split; [lia|exact (conj F5 R3)]|lia].
Qed.

Lemma forwarding_fold_shape (n : nat) (input gt : list (list (list spec_float)))
    (k : nat) :
  cache_shape k num_anchors
    (foldl (forwarding_step softmax log std_sort n create_anchors input gt)
       (empty_state, F32.zero) (seq 0 k)).1.
Proof.
  induction k as [|k IH].
  - cbn [seq foldl fst]. unfold cache_shape, empty_state.
    cbn [positive_mask pos_neg_mask anchor_gt_label_yx anchor_gt_label_hw
         gt_class_labels num_positive_anchors length].
    repeat split; first [reflexivity | apply Forall_nil_2].
  - rewrite seq_S, foldl_app. cbn [foldl Nat.add].
    unfold forwarding_step at 1. cbn [fst snd].
    pose proof create_anchors_length as [Hl1 Hl2].
    destruct (forwarding_item_shape n create_anchors (input !!! k) (gt !!! k)
                (foldl (forwarding_step softmax log std_sort n create_anchors input gt)
                   (empty_state, F32.zero) (seq 0 k)).2
                create_anchors_nonempty ltac:(congruence))
      as (R1 & R2 & R3 & R4 & R5).
    rewrite Hl1 in R1, R2, R3, R4, R5.
    apply push_item_shape; assumption.
Qed.
End Shapes.

Section DerivativeShapes.
Variable softmax : list (list spec_float) -> list (list spec_float).
Variable log : spec_float -> spec_float.
Variable std_sort :
  (nat * spec_float -> nat * spec_float -> bool) ->
  list (nat * spec_float) -> list (nat * spec_float).
Hypothesis softmax_shape :
  forall h w x, has_shape h w x -> has_shape h w (softmax x).

Lemma cross_entropy_derivative_shape (h w : nat) (x : list (list spec_float))
    (l : list Z) (n : Z) :
  has_shape h w x -> 0 < h -> length l = h ->
  has_shape h w (cross_entropy_derivative softmax x l n).
Proof.
  intros Hx Hh Hl. unfold cross_entropy_derivative. cbv zeta.
  apply tmap_has_shape, tzip_shape; [by apply softmax_shape|].
  rewrite (tensor_width_shape h w x Hx Hh). rewrite <- Hl. apply one_hot_shape.
Qed.

Lemma cross_entropy_with_mask_derivative_shape (h w : nat)
    (x : list (list spec_float)) (mask l : list Z) (n : Z) :
  has_shape h w x -> 0 < h -> length l = h ->
  has_shape h w (cross_entropy_with_mask_derivative softmax x mask l n).
Proof.
  intros Hx Hh Hl. unfold cross_entropy_with_mask_derivative. cbv zeta.
  apply tmap_has_shape, zero_rows_shape, tzip_shape; [by apply softmax_shape|].
  rewrite (tensor_width_shape h w x Hx Hh). rewrite <- Hl. apply one_hot_shape.
Qed.

Lemma smooth_l1_derivative_shape (h : nat) (x y : list (list spec_float))
    (l : list Z) :
  has_shape h 4 x -> has_shape h 4 y -> 0 < h ->
  has_shape h 2 (smooth_l1_derivative x y l).1 /\
  has_shape h 2 (smooth_l1_derivative x y l).2.
Proof.
  intros [Hlx Hwx] [Hly Hwy] Hh.
  destruct (smooth_l1_derivative_lookup x y l 0 0 Hwx Hwy ltac:(lia) ltac:(lia)
              ltac:(lia)) as (_ & _ & L1 & L2 & W1 & W2).
  cbv zeta in L1, L2, W1, W2.
  split; split; first [congruence | assumption].
Qed.

Lemma box_derivatives_shape (h : nat) (arm_yxhw odm_yxhw gt_yxhw : list (list spec_float))
    (positive_mask_b : list Z) (num_positive : Z) :
  has_shape h 4 arm_yxhw -> has_shape h 4 odm_yxhw -> has_shape h 4 gt_yxhw ->
  0 < h ->
  let d := box_derivatives arm_yxhw odm_yxhw gt_yxhw positive_mask_b num_positive in
  has_shape h 2 d.1.1 /\ has_shape h 2 d.1.2 /\
  has_shape h 2 d.2.1 /\ has_shape h 2 d.2.2.
Proof.
  intros Ha Ho Hg Hh. cbv zeta. unfold box_derivatives. cbv zeta. cbn [fst snd].
  destruct (smooth_l1_derivative_shape h arm_yxhw gt_yxhw positive_mask_b Ha Hg Hh)
    as [A1 A2].
  destruct (smooth_l1_derivative_shape h odm_yxhw gt_yxhw positive_mask_b Ho Hg Hh)
    as [O1 O2].
  unfold divide_i, setZero.
  split; [by apply tmap_has_shape|]. split; [by apply tmap_has_shape|].
  split; [by apply tmap_has_shape|]. by apply tmap_has_shape, tmap_has_shape.
Qed.

(** The slice [calcDerivative] builds for one batch item has the shape of
    the item's input. *)
Lemma calcDerivative_item_shape (A : nat) (self : RefineDetLoss)
    (anchors : list (list spec_float) * list (list spec_float))
    (input_b : list (list spec_float)) (b : nat) :
  0 < A ->
  has_shape A 2 anchors.1 -> has_shape A 2 anchors.2 ->
  has_shape A (10 + num_classes) input_b ->
  length (positive_mask self !!! b) = A ->
  length (gt_class_labels self !!! b) = A ->
  has_shape A 2 (anchor_gt_label_yx self !!! b) ->
  has_shape A 2 (anchor_gt_label_hw self !!! b) ->
  has_shape A (10 + num_classes)
    (cat_item (calcDerivative_item softmax log self anchors input_b b)).
Proof.
  intros HA Ha1 Ha2 Hin Hpm Hcl Hyx Hhw.
  unfold calcDerivative_item. cbv zeta. unfold cat_item.
  cbn [arm_yx_deriv_ arm_hw_deriv_ arm_conf_deriv_ odm_yx_deriv_ odm_hw_deriv_
       odm_conf_deriv_].
  assert (Hgt : has_shape A 4
                  (cat_w (gt_yx_ratio anchors (anchor_gt_label_yx self !!! b))
                     (gt_hw_log' log anchors (anchor_gt_label_hw self !!! b)))).
  { apply (cat_w_shape A 2 2).
    - unfold gt_yx_ratio. by apply tzip_shape; [apply tzip_shape|].
    - unfold gt_hw_log'. by apply tmap_has_shape, tzip_shape. }
  assert (Harm : has_shape A 4 (cat_w (arm_yx_of input_b) (arm_hw_of input_b))).
  { apply (cat_w_shape A 2 2); eapply split_w_shape; eauto; cbn; lia. }
  assert (Hodm : has_shape A 4 (cat_w (odm_yx_of input_b) (odm_hw_of input_b))).
  { apply (cat_w_shape A 2 2); eapply split_w_shape; eauto; cbn; lia. }
  destruct (box_derivatives_shape A _ _ _ (positive_mask self !!! b)
              (num_positive_anchors self !!! b) Harm Hodm Hgt HA)
    as (B1 & B2 & B3 & B4).
  cbv zeta in B1, B2, B3, B4.
  apply (cat_w_shape A 10 num_classes).
  - apply (cat_w_shape A 8 2); [|exact B4].
    apply (cat_w_shape A 6 2); [|exact B3].
    apply (cat_w_shape A 4 2).
    + apply (cat_w_shape A 2 2); [exact B1|exact B2].
    + apply cross_entropy_derivative_shape; [|exact HA|exact Hpm].
      unfold arm_conf_of. eapply split_w_shape; eauto. cbn; lia.
  - apply cross_entropy_with_mask_derivative_shape; [|exact HA|exact Hcl].
    unfold odm_conf_of. eapply split_w_shape; eauto.
Qed.

(** X6: with a softmax that keeps the shape of its argument, the outgoing
    derivative computed from the cache of a forward pass on the same input
    has the shape of the input: one slice per batch item, each of
    num_anchors rows and 10 + num_classes columns. *)
Theorem calcDerivative_shape (input gt : list (list (list spec_float))) :
  Forall (has_shape num_anchors (10 + num_classes)) input ->
  let self := (forwarding softmax log std_sort input gt).1 in
  let d := calcDerivative softmax log self input in
  length d = length input /\
  Forall (has_shape num_anchors (10 + num_classes)) d.
Proof.
  intros Hin. cbv zeta. unfold calcDerivative. cbv zeta.
  split; [by rewrite length_map, length_seq|].
  apply Forall_forall. intros t Ht.
  apply list_elem_of_In, in_map_iff in Ht as (b & <- & Hb).
  apply in_seq in Hb. destruct Hb as [_ Hb]. cbn [Nat.add] in Hb.
  pose proof (forwarding_fold_shape softmax log std_sort (num_gt_boxes_of gt)
                input gt (length input)) as Hc.
  change (foldl _ _ _).1 with (forwarding softmax log std_sort input gt).1 in Hc.
  destruct Hc as ([H1 F1] & _ & [H3 F3] & [H4 F4] & [H5 F5] & _).
  set (self := (forwarding softmax log std_sort input gt).1) in *.
  destruct (lookup_lt_is_Some_2 input b Hb) as [x Hx].
  destruct (lookup_lt_is_Some_2 (positive_mask self) b ltac:(lia)) as [pm Hpm].
  destruct (lookup_lt_is_Some_2 (anchor_gt_label_yx self) b ltac:(lia)) as [yx Hyx].
  destruct (lookup_lt_is_Some_2 (anchor_gt_label_hw self) b ltac:(lia)) as [hw Hhw].
  destruct (lookup_lt_is_Some_2 (gt_class_labels self) b ltac:(lia)) as [cl Hcl].
  destruct create_anchors_shape as [Sa1 Sa2].
  apply (calcDerivative_item_shape num_anchors).
  - rewrite num_anchors_eq. lia.
  - exact Sa1.
  - exact Sa2.
  - rewrite (list_lookup_total_correct _ _ _ Hx).
    exact (Forall_lookup_1 _ _ _ _ Hin Hx).
  - rewrite (list_lookup_total_correct _ _ _ Hpm).
    exact (Forall_lookup_1 _ _ _ _ F1 Hpm).
  - rewrite (list_lookup_total_correct _ _ _ Hcl).
    exact (Forall_lookup_1 _ _ _ _ F5 Hcl).
  - rewrite (list_lookup_total_correct _ _ _ Hyx).
    exact (Forall_lookup_1 _ _ _ _ F3 Hyx).
  - rewrite (list_lookup_total_correct _ _ _ Hhw).
    exact (Forall_lookup_1 _ _ _ _ F4 Hhw).
Qed.
End DerivativeShapes.

(** * The positive set *)

Lemma fold_mark_positive_iff (v : list spec_float) (s : gset nat) (n i : nat) :
  i ∈ foldl (mark_positive v) s (seq 0 n)
  <-> i ∈ s \/ (i < n /\ gt_double (v !!! i) F64.lit_0_5 = true).
Proof.
  induction n as [|n IH].
  - cbn [seq foldl]. split; [by left|]. intros [H|[H _]]; [exact H|lia].
  - rewrite seq_S, foldl_app. cbn [foldl Nat.add].
    unfold mark_positive at 1.
    destruct (gt_double (v !!! n) F64.lit_0_5) eqn:Hn.
    + rewrite elem_of_union, elem_of_singleton, IH. split.
      * intros [->|[H|[H1 H2]]]; [right; split; [lia|exact Hn]|by left|].
        right. split; [lia|exact H2].
      * intros [H|[H1 H2]]; [right; by left|].
        destruct (decide (i = n)) as [->|Hne]; [by left|].
        right. right. split; [lia|exact H2].
    + rewrite IH. split.
      * intros [H|[H1 H2]]; [by left|]. right. split; [lia|exact H2].
      * intros [H|[H1 H2]]; [by left|].
        destruct (decide (i = n)) as [->|Hne]; [congruence|].
        right. split; [lia|exact H2].
Qed.

Lemma calc_iou_length (a1 a2 b1 b2 : list (list spec_float)) :
  length (calc_iou a1 a2 b1 b2) = min (length a1) (length a2).
Proof. unfold calc_iou. apply length_zip_with. Qed.

(** The set after one more ground truth. *)
Lemma match_gt_set (anchors : list (list spec_float) * list (list spec_float))
    (gt_yx_ gt_hw_ : list (list spec_float)) (st : match_state) (g i : nat) :
  i ∈ positive_idx_set (match_gt anchors gt_yx_ gt_hw_ st g)
  <-> i ∈ positive_idx_set st
      \/ i = max_element (calc_iou anchors.1 anchors.2 [gt_yx_ !!! g] [gt_hw_ !!! g])
      \/ (i < length anchors.1 /\
          gt_double (iou_at anchors gt_yx_ gt_hw_ g i) F64.lit_0_5 = true).
Proof.
  unfold match_gt, iou_at. cbv zeta. generalize num_anchors. intros n.
  cbn [positive_idx_set].
  rewrite fold_mark_positive_iff, elem_of_union, elem_of_singleton,
    fold_update_best_set.
  tauto.
Qed.

(** An anchor is positive exactly when it is the first anchor of largest
    IoU of a processed ground truth or has an IoU above 0.5 with one. *)
Lemma match_anchors_set (anchors : list (list spec_float) * list (list spec_float))
    (gt_yx_ gt_hw_ : list (list spec_float)) (k i : nat) :
  i ∈ positive_idx_set (match_anchors k anchors gt_yx_ gt_hw_)
  <-> exists j, j < k /\
        (i = max_element (calc_iou anchors.1 anchors.2 [gt_yx_ !!! j] [gt_hw_ !!! j])
         \/ (i < length anchors.1 /\
             gt_double (iou_at anchors gt_yx_ gt_hw_ j i) F64.lit_0_5 = true)).
Proof.
  induction k as [|k IH].
  - unfold match_anchors. cbn [seq foldl match_init positive_idx_set].
    split; [intros H; by apply not_elem_of_empty in H|].
    intros (j & Hj & _). lia.
  - rewrite match_anchors_S, match_gt_set, IH. split.
    + intros [(j & Hj & H)|H]; [exists j; split; [lia|exact H]|].
      exists k. split; [lia|exact H].
    + intros (j & Hj & H). destruct (decide (j = k)) as [->|Hne]; [by right|].
      left. exists j. split; [lia|exact H].
Qed.

(** * [std::max_element] returns a largest element *)

Lemma max_element_from_max (pre rest : list spec_float) (largest : nat)
    (lv : spec_float) :
  pre !! largest = Some lv ->
  (forall x, x ∈ pre -> F32.ltb lv x = false) ->
  let r := max_element_from largest lv (length pre) rest in
  exists rv, (pre ++ rest) !! r = Some rv /\
    forall x, x ∈ pre ++ rest -> F32.ltb rv x = false.
Proof.
  revert pre largest lv. induction rest as [|x rest IH]; intros pre largest lv Hl Hpre.
  - cbn [max_element_from]. cbv zeta. exists lv. rewrite app_nil_r. by split.
  - cbn [max_element_from]. cbv zeta.
    replace (pre ++ x :: rest) with ((pre ++ [x]) ++ rest) by (by rewrite <- app_assoc).
    replace (S (length pre)) with (length (pre ++ [x]))
      by (rewrite length_app; cbn; lia).
    destruct (F32.ltb lv x) eqn:Hlt.
    + apply IH.
      * rewrite lookup_app_r by lia. by rewrite Nat.sub_diag.
      * intros y Hy. apply elem_of_app in Hy as [Hy|Hy].
        -- destruct (F32.ltb x y) eqn:Hxy; [|reflexivity].
           rewrite <- (Hpre y Hy). symmetry. by apply (ltb_trans lv x y).
        -- apply list_elem_of_singleton in Hy as ->. apply ltb_irrefl.
    + apply IH.
      * rewrite lookup_app_l; [exact Hl|]. by apply lookup_lt_Some in Hl.
      * intros y Hy. apply elem_of_app in Hy as [Hy|Hy]; [by apply Hpre|].
        by apply list_elem_of_singleton in Hy as ->.
Qed.

Lemma max_element_max (v : list spec_float) (i : nat) :
  i < length v -> F32.ltb (v !!! max_element v) (v !!! i) = false.
Proof.
  intros Hi. destruct v as [|x rest]; [cbn in Hi; lia|].
  unfold max_element.
  destruct (max_element_from_max [x] rest 0 x eq_refl) as (rv & Hr & Hmax).
  { intros y Hy. apply list_elem_of_singleton in Hy as ->. apply ltb_irrefl. }
  cbn [length app] in Hr, Hmax.
  rewrite (list_lookup_total_correct _ _ _ Hr). apply Hmax.
  apply list_elem_of_lookup_total_2. exact Hi.
Qed.

(** Every processed ground truth has a positive anchor whose IoU with it
    no anchor exceeds. *)
Lemma match_anchors_best_positive
    (anchors : list (list spec_float) * list (list spec_float))
    (gt_yx_ gt_hw_ : list (list spec_float)) (k j : nat) :
  anchors.1 <> [] -> length anchors.2 = length anchors.1 -> j < k ->
  exists i, i < length anchors.1 /\
    i ∈ positive_idx_set (match_anchors k anchors gt_yx_ gt_hw_) /\
    forall i', i' < length anchors.1 ->
      F32.ltb (iou_at anchors gt_yx_ gt_hw_ j i) (iou_at anchors gt_yx_ gt_hw_ j i')
      = false.
Proof.
  intros Hne Hlen Hj.
  set (v := calc_iou anchors.1 anchors.2 [gt_yx_ !!! j] [gt_hw_ !!! j]).
  assert (Hv : length v = length anchors.1).
  { unfold v. rewrite calc_iou_length. lia. }
  assert (Hvne : v <> []).
  { intros Hnil. rewrite Hnil in Hv. destruct anchors.1; [done|discriminate]. }
  exists (max_element v). split; [rewrite <- Hv; by apply max_element_lt|].
  split.
  - apply match_anchors_set. exists j. split; [exact Hj|by left].
  - intros i' Hi'. unfold iou_at. fold v. apply max_element_max. lia.
Qed.

(** * Class labels *)

Lemma odm_labels_spec (A : nat) (pm nm idx : list Z)
    (gt_class_ : list (list spec_float)) (i : nat) :
  i < A ->
  (odm_labels A pm nm idx gt_class_).2 !!! i
  = if truthy (nm !!! i) then 0%Z
    else Z.of_nat (max_element (gt_class_ !!! Z.to_nat (idx !!! i))).
Proof.
  intros Hi. unfold odm_labels.
  set (f := fun (st : list Z * list Z) i =>
    (<[i := wrap32 (pm !!! i + nm !!! i)]> st.1,
     if truthy (nm !!! i) then <[i := 0%Z]> st.2
     else <[i := Z.of_nat (max_element (gt_class_ !!! Z.to_nat (idx !!! i)))]> st.2)).
  assert (H : forall n, n <= A ->
            let st := foldl f (replicate A 0%Z, replicate A 0%Z) (seq 0 n) in
            length st.2 = A /\
            forall i, i < n ->
              st.2 !!! i = if truthy (nm !!! i) then 0%Z
                           else Z.of_nat (max_element (gt_class_ !!! Z.to_nat (idx !!! i)))).
  { induction n as [|n IH]; intros Hn; cbv zeta.
    - cbn [seq foldl snd]. split; [apply length_replicate|]. intros j Hj. lia.
    - rewrite seq_S, foldl_app. cbn [foldl Nat.add].
      destruct (IH ltac:(lia)) as [Hl Hv]. cbv zeta in Hl, Hv.
      set (st := foldl f _ (seq 0 n)) in *.
      change ((f st n).2) with
        (if truthy (nm !!! n) then <[n := 0%Z]> st.2
         else <[n := Z.of_nat (max_element (gt_class_ !!! Z.to_nat (idx !!! n)))]> st.2).
      split; [destruct (truthy (nm !!! n)); by rewrite length_insert|].
      intros j Hj. destruct (decide (j = n)) as [->|Hne].
      + destruct (truthy (nm !!! n));
          by rewrite list_lookup_total_insert_eq by lia.
      + destruct (truthy (nm !!! n));
          (rewrite list_lookup_total_insert_ne by done; apply Hv; lia). }
  destruct (H A ltac:(lia)) as [_ Hv]. apply Hv, Hi.
Qed.

Lemma max_element_le (v : list spec_float) (n : nat) :
  length v <= n -> 0 < n -> max_element v < n.
Proof.
  intros Hv Hn. destruct v as [|x r]; [exact Hn|].
  pose proof (max_element_lt (x :: r) ltac:(discriminate)). lia.
Qed.

Lemma split_w_row_length (off n : nat) (t : list (list spec_float)) (j : nat) :
  length (split_w off n t !!! j) <= n.
Proof.
  unfold split_w. destruct (decide (j < length t)) as [Hj|Hj].
  - change (map ?f t) with (f <$> t).
    rewrite (list_lookup_total_fmap (fun r : list spec_float => take n (drop off r)))
      by done.
    rewrite length_take. lia.
  - rewrite list_lookup_total_alt, lookup_ge_None_2; [cbn; lia|].
    rewrite length_map. lia.
Qed.

Lemma recorded_index_range (anchors : list (list spec_float) * list (list spec_float))
    (gt_yx_ gt_hw_ : list (list spec_float)) (k i : nat) :
  i < length anchors.1 -> i < num_anchors ->
  (0 <= anchor_gt_label_idx (match_anchors k anchors gt_yx_ gt_hw_) !!! i
     < Z.of_nat (max 1 k))%Z.
Proof.
  intros Hi Hn.
  destruct (best_match anchors gt_yx_ gt_hw_ k i Hi Hn) as [_ Hcase].
  cbv zeta in Hcase.
  destruct Hcase as [[He _]|(j & Hj & He & _)].
  - apply (f_equal (fun e => e.1.1.1)) in He. cbn [entry entry_none fst] in He.
    rewrite He. lia.
  - apply (f_equal (fun e => e.1.1.1)) in He. cbn [entry entry_of_gt fst] in He.
    rewrite He. lia.
Qed.

Section Labels.
Variable softmax : list (list spec_float) -> list (list spec_float).
Variable log : spec_float -> spec_float.
Variable std_sort :
  (nat * spec_float -> nat * spec_float -> bool) ->
  list (nat * spec_float) -> list (nat * spec_float).

Lemma forwarding_item_labels (n : nat) (input_b gt_b : list (list spec_float))
    (output : spec_float) (i : nat) :
  i < num_anchors ->
  let r := forwarding_item softmax log std_sort n create_anchors input_b gt_b output in
  let m := match_anchors n create_anchors (gt_yx_of gt_b) (gt_hw_of gt_b) in
  let j := Z.to_nat (anchor_gt_label_idx m !!! i) in
  j < max 1 n /\
  it_gt_class_labels r !!! i
    = (if truthy (it_negative_mask r !!! i) then 0%Z
       else Z.of_nat (max_element (gt_class_of gt_b !!! j))) /\
  (0 <= it_gt_class_labels r !!! i < Z.of_nat num_classes)%Z.
Proof.
  intros Hi. cbv zeta.
  pose proof create_anchors_length as [Hl1 Hl2].
  pose proof (recorded_index_range create_anchors (gt_yx_of gt_b) (gt_hw_of gt_b)
                n i ltac:(rewrite Hl1; exact Hi) Hi) as Hidx.
  split.
  { revert Hidx. generalize (anchor_gt_label_idx
        (match_anchors n create_anchors (gt_yx_of gt_b) (gt_hw_of gt_b)) !!! i).
    intros z Hz. lia. }
  unfold forwarding_item. cbv zeta. cbn [it_gt_class_labels it_negative_mask].
  rewrite odm_labels_spec by (rewrite Hl1; exact Hi).
  split; [reflexivity|].
  destruct (truthy _); [unfold num_classes; lia|].
  pose proof (max_element_le
                (gt_class_of gt_b
                 !!! Z.to_nat (anchor_gt_label_idx
                                 (match_anchors n create_anchors (gt_yx_of gt_b)
                                    (gt_hw_of gt_b)) !!! i))
                num_classes (split_w_row_length _ _ _ _) ltac:(unfold num_classes; lia)).
  lia.
Qed.
End Labels.

(** * The miner removes a prefix of the sorted pairs *)

Lemma lookup_total_zero_step (l : list Z) (idx i : nat) :
  idx < length l ->
  (if truthy (l !!! idx) then <[idx := 0%Z]> l else l) !!! i
  = if decide (i = idx) then 0%Z else l !!! i.
Proof.
  intros Hlt. destruct (truthy (l !!! idx)) eqn:Ht.
  - destruct (decide (i = idx)) as [->|Hne].
    + by rewrite list_lookup_total_insert_eq.
    + by rewrite list_lookup_total_insert_ne.
  - apply truthy_false in Ht. destruct (decide (i = idx)) as [->|Hne]; done.
Qed.

Lemma mining_loop_prefix (np : Z) (sorted : list (nat * spec_float))
    (st : list Z * Z) :
  Forall (fun p => p.1 < length st.1) sorted ->
  exists p, p <= length sorted /\
    (forall i, (mining_loop np sorted st).1 !!! i
               = if decide (i ∈ (take p sorted).*1) then 0%Z else st.1 !!! i) /\
    (p = length sorted \/ ((mining_loop np sorted st).2 <= wrap32 (3 * np))%Z) /\
    (forall q, q < p ->
       (wrap32 (3 * np) < (mining_loop np (take q sorted) st).2)%Z).
Proof.
  intros Hall. revert st Hall.
  induction sorted as [|[idx x] rest IH]; intros st Hall.
  - exists 0. cbn [mining_loop take length fmap list_fmap].
    split; [lia|]. split.
    + intros i. rewrite decide_False; [reflexivity|]. apply not_elem_of_nil.
    + split; [by left|]. intros q Hq. lia.
  - cbn [mining_loop length]. apply Forall_cons in Hall as [Hidx Hall].
    cbn [fst] in Hidx.
    destruct (wrap32 (3 * np) <? st.2)%Z eqn:Hcond.
    + set (st1 := if truthy (st.1 !!! idx)
                  then (<[idx := 0%Z]> st.1, wrap32 (st.2 - 1)) else st).
      assert (H1 : forall i, st1.1 !!! i = if decide (i = idx) then 0%Z else st.1 !!! i).
      { intros i. rewrite <- lookup_total_zero_step by exact Hidx. unfold st1.
        destruct (truthy (st.1 !!! idx)); reflexivity. }
      assert (Hl1 : length st1.1 = length st.1).
      { unfold st1. destruct (truthy (st.1 !!! idx)); [apply length_insert|reflexivity]. }
      destruct (IH st1) as (p & Hp & Hmask & Hcap & Hmin).
      { rewrite Hl1. exact Hall. }
      exists (S p). split; [lia|]. split; [|split].
      * intros i. rewrite Hmask, H1. cbn [take fmap list_fmap fst].
        destruct (decide (i = idx)) as [->|Hne].
        -- rewrite (decide_True (P := idx ∈ idx :: _)) by (apply elem_of_cons; left; reflexivity).
           by destruct (decide _).
        -- destruct (decide (i ∈ (take p rest).*1)) as [Hin|Hnin].
           ++ rewrite decide_True; [reflexivity|]. apply elem_of_cons; by right.
           ++ rewrite decide_False; [reflexivity|].
              intros Hin. apply elem_of_cons in Hin as [Heq|Hin]; done.
      * destruct Hcap as [->|Hcap]; [by left|by right].
      * intros q Hq. destruct q as [|q].
        -- cbn [take mining_loop]. by apply Z.ltb_lt.
        -- cbn [take mining_loop]. rewrite Hcond. fold st1. apply Hmin. lia.
    + exists 0. split; [lia|]. split; [|split].
      * intros i. cbn [take fmap list_fmap]. rewrite decide_False; [reflexivity|].
        apply not_elem_of_nil.
      * right. by apply Z.ltb_ge.
      * intros q Hq. lia.
Qed.

Section Miner.
Variable softmax : list (list spec_float) -> list (list spec_float).
Variable log : spec_float -> spec_float.
Variable std_sort :
  (nat * spec_float -> nat * spec_float -> bool) ->
  list (nat * spec_float) -> list (nat * spec_float).

(** The test in front of the loop repeats the loop condition. *)
Lemma hard_negative_mining_loop (np : Z) (pm : list Z)
    (arm_conf_ : list (list spec_float)) (st : list Z * Z) :
  hard_negative_mining softmax log std_sort np pm arm_conf_ st
  = mining_loop np
      (std_sort (fun v1 v2 => F32.ltb v1.2 v2.2)
         (cross_entropy_per_anchor softmax log arm_conf_ pm)) st.
Proof.
  unfold hard_negative_mining. cbv zeta.
  destruct (wrap32 (3 * np) <? st.2)%Z eqn:Hcond; [reflexivity|].
  destruct (std_sort _ _) as [|[idx x] rest]; [reflexivity|].
  cbn [mining_loop]. by rewrite Hcond.
Qed.
End Miner.

(** * The clamp of the smooth-L1 derivative *)

Lemma ltb_asym (x y : spec_float) : F32.ltb x y = true -> F32.ltb y x = false.
Proof.
  intros H. destruct (F32.ltb y x) eqn:H'; [|reflexivity].
  pose proof (ltb_trans _ _ _ H H') as Hxx. by rewrite ltb_irrefl in Hxx.
Qed.

Lemma ltb_finite_between (lo hi v : spec_float) :
  F32.ltb lo v = true -> F32.ltb v hi = true -> F32.is_finite v = true.
Proof.
  intros H1 H2. destruct v as [s|[|]| |s m e]; try reflexivity.
  - (* -inf is below everything *)
    destruct lo as [?|[|]| |[|] ? ?]; discriminate H1.
  - destruct hi as [?|[|]| |[|] ? ?]; discriminate H2.
  - destruct lo; discriminate H1.
Qed.

(** X14: the element function of [smooth_l1_derivative] never returns an
    infinity or a NaN and never leaves [-1, 1]; a NaN difference is mapped
    to 0. *)
Theorem smooth_l1_derivative_elem_range (v : spec_float) :
  let r := smooth_l1_derivative_elem v in
  F32.is_finite r = true /\
  F32.ltb r (F32.of_Z (-1)) = false /\ F32.ltb (F32.of_Z 1) r = false /\
  smooth_l1_derivative_elem S754_nan = F32.zero.
Proof.
  cbv zeta.
  assert (Hnan : smooth_l1_derivative_elem S754_nan = F32.zero) by reflexivity.
  unfold smooth_l1_derivative_elem at 1 2 3.
  destruct (F32.ltb (F32.of_Z (-1)) v) eqn:H1; cbn [andb];
    [destruct (F32.ltb v (F32.of_Z 1)) eqn:H2|].
  - split; [exact (ltb_finite_between _ _ _ H1 H2)|].
    split; [exact (ltb_asym _ _ H1)|]. split; [exact (ltb_asym _ _ H2)|exact Hnan].
  - destruct (F32.ltb v F32.zero); [vm_compute; auto|].
    destruct (F32.ltb F32.zero v); vm_compute; auto.
  - destruct (F32.ltb v F32.zero); [vm_compute; auto|].
    destruct (F32.ltb F32.zero v); vm_compute; auto.
Qed.

(** * The regression loss reads the rows of the mask only *)

(** X11: [smooth_l1] reads the rows whose mask entry is not zero only:
    two calls whose predictions and targets agree on those rows return the
    same loss. *)
Theorem smooth_l1_masked (x x' y y' : list (list spec_float)) (l : list Z) :
  length x' = length x -> length y' = length y ->
  (forall i, i < length x -> l !!! i <> 0%Z ->
     x' !! i = x !! i /\ y' !! i = y !! i) ->
  smooth_l1 x' y' l = smooth_l1 x y l.
Proof.
  intros Hlx Hly Hrows. unfold smooth_l1. cbv zeta. f_equal.
  apply list_eq. intros i.
  rewrite !list_lookup_imap. unfold tmap, tzip.
  change (map ?f ?t) with (f <$> t).
  rewrite !list_lookup_fmap, !lookup_zip_with.
  destruct (x !! i) as [rx|] eqn:Hx.
  - pose proof (lookup_lt_Some _ _ _ Hx) as Hi.
    destruct (lookup_lt_is_Some_2 x' i ltac:(lia)) as [rx' Hx'].
    rewrite Hx'. cbn [option_bind mbind option_fmap fmap].
    destruct (y !! i) as [ry|] eqn:Hy.
    + pose proof (lookup_lt_Some _ _ _ Hy) as Hiy.
      destruct (lookup_lt_is_Some_2 y' i ltac:(lia)) as [ry' Hy'].
      rewrite Hy'. cbn.
      destruct (truthy (l !!! i)) eqn:Ht; [|reflexivity].
      apply truthy_spec in Ht. destruct (Hrows i Hi Ht) as [E1 E2].
      rewrite Hx, Hx' in E1. rewrite Hy, Hy' in E2.
      injection E1 as ->. injection E2 as ->. reflexivity.
    + rewrite (lookup_ge_None_2 y' i); [reflexivity|].
      apply lookup_ge_None_1 in Hy. lia.
  - rewrite (lookup_ge_None_2 x' i); [reflexivity|].
    apply lookup_ge_None_1 in Hx. lia.
Qed.

(** * Division of zero by a positive count *)

Lemma zero_quotient_table : forallb zero_quotient_okb (seq 0 3000) = true.
Proof. vm_compute. reflexivity. Qed.

Lemma div_zero_count (n : Z) :
  (1 <= n <= Z.of_nat num_anchors)%Z -> F32.div F32.zero (F32.of_Z n) = F32.zero.
Proof.
  rewrite num_anchors_eq. intros Hn.
  pose proof (forallb_seq_lt zero_quotient_okb 3000 (Z.to_nat n - 1)
                zero_quotient_table ltac:(lia)) as H.
  unfold zero_quotient_okb in H.
  replace (Z.of_nat (S (Z.to_nat n - 1))) with n in H by lia.
  destruct (F32.div F32.zero (F32.of_Z n)) as [[|]| | |]; try discriminate H.
  reflexivity.
Qed.

Section Masked.
Variable softmax : list (list spec_float) -> list (list spec_float).

(** Rows outside the mask are zero in the ODM confidence gradient. *)
Lemma cross_entropy_with_mask_derivative_masked (x : list (list spec_float))
    (mask l : list Z) (n : Z) (i : nat) :
  (1 <= n <= Z.of_nat num_anchors)%Z -> mask !!! i = 0%Z ->
  Forall (fun v => v = F32.zero)
    (cross_entropy_with_mask_derivative softmax x mask l n !!! i).
Proof.
  intros Hn Hm. unfold cross_entropy_with_mask_derivative. cbv zeta.
  set (t := tzip F32.sub (softmax x) (one_hot (tensor_width x) l)).
  unfold tmap, zero_rows. change (map ?f ?t) with (f <$> t).
  rewrite list_lookup_total_alt, list_lookup_fmap, list_lookup_imap.
  destruct (t !! i) as [r|]; [|constructor].
  cbn [option_fmap fmap default]. rewrite Hm. cbn [truthy Z.eqb negb].
  apply Forall_forall. intros v Hv.
  apply list_elem_of_fmap in Hv as (v' & -> & Hv').
  apply list_elem_of_fmap in Hv' as (v'' & -> & _).
  by apply div_zero_count.
Qed.
End Masked.

(** The box-regression entries of an anchor outside the positive mask. *)
Lemma masked_grad_zero (mask : list Z) (n : Z) (i : nat) (pred target : spec_float) :
  (1 <= n <= Z.of_nat num_anchors)%Z -> mask !!! i = 0%Z ->
  masked_grad mask n i pred target = F32.zero.
Proof.
  intros Hn Hm. unfold masked_grad. rewrite Hm. cbn [truthy Z.eqb negb].
  by apply div_zero_count.
Qed.

Lemma item_num_positive_bound (n : nat) (gt_b : list (list spec_float)) :
  (0 <= item_num_positive n gt_b <= Z.of_nat num_anchors)%Z.
Proof.
  unfold item_num_positive.
  set (m := match_anchors n create_anchors _ _).
  pose proof create_anchors_length as [Hl1 Hl2].
  assert (Hset : forall i, i ∈ positive_idx_set m -> i < num_anchors).
  { intros i Hi. rewrite <- Hl1.
    apply (match_anchors_set_bound create_anchors (gt_yx_of gt_b) (gt_hw_of gt_b) n i
             create_anchors_nonempty); [congruence|exact Hi]. }
  destruct (make_positive_mask_spec num_anchors (positive_idx_set m) Hset)
    as (Hpl & _ & Hpc & _).
  pose proof (count_nz_le (make_positive_mask num_anchors (positive_idx_set m))) as Hle.
  rewrite Hpl, Hpc in Hle.
  assert (H3 : (Z.of_nat num_anchors = 3000)%Z) by (rewrite num_anchors_eq; reflexivity).
  rewrite wrap32_small; lia.
Qed.

Section Unselected.
Variable softmax : list (list spec_float) -> list (list spec_float).
Variable log : spec_float -> spec_float.
Variable std_sort :
  (nat * spec_float -> nat * spec_float -> bool) ->
  list (nat * spec_float) -> list (nat * spec_float).

(** X13: after a forward pass, the gradient of an item with at least one
    positive anchor is zero at the anchors the forward pass left out: the
    four box blocks at the anchors outside the positive mask, the ODM
    confidence block at the anchors outside pos_neg_mask. *)
Theorem unselected_anchor_gradient (input gt : list (list (list spec_float)))
    (b i c : nat) :
  Forall (has_shape num_anchors (10 + num_classes)) input ->
  b < length input -> i < num_anchors -> c < 2 ->
  let self := (forwarding softmax log std_sort input gt).1 in
  let d := calcDerivative_item softmax log self create_anchors (input !!! b) b in
  (1 <= num_positive_anchors self !!! b)%Z ->
  ((positive_mask self !!! b) !!! i = 0%Z ->
     (arm_yx_deriv_ d !!! i) !!! c = F32.zero /\
     (arm_hw_deriv_ d !!! i) !!! c = F32.zero /\
     (odm_yx_deriv_ d !!! i) !!! c = F32.zero /\
     (odm_hw_deriv_ d !!! i) !!! c = F32.zero) /\
  ((pos_neg_mask self !!! b) !!! i = 0%Z ->
     Forall (fun v => v = F32.zero) (odm_conf_deriv_ d !!! i)).
Proof.
  intros Hin Hb Hi Hc. cbv zeta. intros Hpos.
  pose proof (forwarding_fold_shape softmax log std_sort (num_gt_boxes_of gt)
                input gt (length input)) as Hcs.
  change (foldl _ _ _).1 with (forwarding softmax log std_sort input gt).1 in Hcs.
  pose proof (forwarding_counts softmax log std_sort input gt) as Hcnt.
  set (self := (forwarding softmax log std_sort input gt).1) in *.
  destruct Hcs as (_ & _ & [H3 F3] & [H4 F4] & _ & _).
  assert (Hn : (1 <= num_positive_anchors self !!! b <= Z.of_nat num_anchors)%Z).
  { split; [exact Hpos|]. rewrite Hcnt.
    change (map ?f ?t) with (f <$> t).
    rewrite (list_lookup_total_fmap (fun b => item_num_positive (num_gt_boxes_of gt) (gt !!! b)))
      by (rewrite length_seq; exact Hb).
    apply item_num_positive_bound. }
  destruct (lookup_lt_is_Some_2 input b Hb) as [x Hx].
  destruct (lookup_lt_is_Some_2 (anchor_gt_label_yx self) b ltac:(lia)) as [yx Hyx].
  destruct (lookup_lt_is_Some_2 (anchor_gt_label_hw self) b ltac:(lia)) as [hw Hhw].
  pose proof (Forall_lookup_1 _ _ _ _ Hin Hx) as Sx.
  pose proof (Forall_lookup_1 _ _ _ _ F3 Hyx) as Syx.
  pose proof (Forall_lookup_1 _ _ _ _ F4 Hhw) as Shw.
  rewrite (list_lookup_total_correct _ _ _ Hx).
  destruct create_anchors_shape as [Sa1 Sa2].
  unfold calcDerivative_item. cbv zeta.
  cbn [arm_yx_deriv_ arm_hw_deriv_ odm_yx_deriv_ odm_hw_deriv_ odm_conf_deriv_].
  rewrite (list_lookup_total_correct _ _ _ Hyx), (list_lookup_total_correct _ _ _ Hhw).
  split.
  - intros Hm.
    assert (Hgt : has_shape num_anchors 4
                    (cat_w (gt_yx_ratio create_anchors yx)
                       (gt_hw_log' log create_anchors hw))).
    { apply (cat_w_shape num_anchors 2 2).
      - unfold gt_yx_ratio. by apply tzip_shape; [apply tzip_shape|].
      - unfold gt_hw_log'. by apply tmap_has_shape, tzip_shape. }
    assert (Harm : has_shape num_anchors 4 (cat_w (arm_yx_of x) (arm_hw_of x))).
    { apply (cat_w_shape num_anchors 2 2); eapply split_w_shape; eauto; cbn; lia. }
    assert (Hodm : has_shape num_anchors 4 (cat_w (odm_yx_of x) (odm_hw_of x))).
    { apply (cat_w_shape num_anchors 2 2); eapply split_w_shape; eauto; cbn; lia. }
    destruct Hgt as [Lg Wg], Harm as [La Wa], Hodm as [Lo Wo].
    destruct (box_derivatives_lookup _ _ _ (positive_mask self !!! b)
                (num_positive_anchors self !!! b) i c Wa Wo Wg
                ltac:(congruence) ltac:(congruence) ltac:(rewrite Lg; exact Hi) Hc)
      as (B1 & B2 & B3 & B4).
    cbv zeta in B1, B2, B3, B4.
    rewrite B1, B2, B3, B4, !masked_grad_zero by assumption.
    auto.
  - intros Hm. by apply cross_entropy_with_mask_derivative_masked.
Qed.
End Unselected.

(** * Corners to centre and size on pixel coordinates *)

Lemma conversion_exactb_spec (a b : nat) :
  conversion_exactb (a, F32.of_Z (Z.of_nat a)) (b, F32.of_Z (Z.of_nat b)) = true ->
  conversion_exact a b.
Proof.
  unfold conversion_exactb, conversion_exact, size_of. cbv zeta. cbn [fst snd].
  intros H.
  apply andb_true_iff in H as [H H4]. apply andb_true_iff in H as [H H3].
  apply andb_true_iff in H as [H1 H2].
  split; [exact H1|]. split; [exact H2|].
  split; apply Qeq_bool_iff; assumption.
Qed.

Lemma conversion_table :
  forallb (fun p => forallb (conversion_exactb p) pixel_floats) pixel_floats = true.
Proof. vm_cast_no_check (eq_refl true). Qed.

Lemma pixel_floats_In (a : nat) :
  a <= 224 -> In (a, F32.of_Z (Z.of_nat a)) pixel_floats.
Proof.
  intros Ha. unfold pixel_floats. apply in_map_iff. exists a.
  split; [reflexivity|]. apply in_seq. lia.
Qed.

Lemma conversion_exact_pixels (a b : nat) :
  a <= 224 -> b <= 224 -> conversion_exact a b.
Proof.
  intros Ha Hb. apply conversion_exactb_spec.
  pose proof conversion_table as H. rewrite forallb_forall in H.
  specialize (H _ (pixel_floats_In a Ha)). rewrite forallb_forall in H.
  exact (H _ (pixel_floats_In b Hb)).
Qed.

Lemma gt_box_rows (gt_b : list (list spec_float)) (j : nat)
    (flag y1 x1 y2 x2 : spec_float) (cls : list spec_float) :
  gt_b !! j = Some (flag :: y1 :: x1 :: y2 :: x2 :: cls) ->
  gt_yx_of gt_b !! j = Some [centre_of y1 y2; centre_of x1 x2] /\
  gt_hw_of gt_b !! j = Some [size_of y1 y2; size_of x1 x2].
Proof.
  intros Hj.
  assert (H1 : gt_yx_of gt_b !! j = Some [centre_of y1 y2; centre_of x1 x2]).
  { unfold gt_yx_of, tzip, split_w. change (map ?f ?t) with (f <$> t).
    rewrite lookup_zip_with, !list_lookup_fmap, Hj. reflexivity. }
  split; [exact H1|].
  unfold gt_hw_of, tzip. rewrite lookup_zip_with, H1.
  unfold split_w. change (map ?f ?t) with (f <$> t).
  rewrite list_lookup_fmap, Hj. reflexivity.
Qed.

(** * Counting the present boxes *)

Lemma count_gt_boxes_spec (flags : list spec_float) (idxs : list nat) :
  let n := count_gt_boxes flags idxs in
  n <= length idxs /\
  (forall k, k < n -> SFeqb (flags !!! (idxs !!! k)) F32.zero = false) /\
  (n < length idxs -> SFeqb (flags !!! (idxs !!! n)) F32.zero = true).
Proof.
  cbv zeta. induction idxs as [|i rest IH]; cbn [count_gt_boxes length].
  - split; [lia|]. split; intros; lia.
  - destruct (SFeqb (flags !!! i) F32.zero) eqn:Hz.
    + split; [lia|]. split; [intros k Hk; lia|]. intros _. exact Hz.
    + destruct IH as (H1 & H2 & H3). split; [lia|]. split.
      * intros [|k] Hk; [exact Hz|]. apply H2. lia.
      * intros Hn. apply H3. lia.
Qed.

Lemma flat_flag_lookup (item0 : list (list spec_float))
    (rest : list (list (list spec_float))) (w i : nat) :
  has_width (S w) item0 -> i < length item0 ->
  concat (concat (map gt_is_label_of (item0 :: rest))) !!! i = (item0 !!! i) !!! 0.
Proof.
  intros Hw Hi. cbn [map concat]. rewrite concat_app.
  assert (Hf : Forall (fun l : list spec_float => length l = 1) (gt_is_label_of item0)).
  { apply (split_w_width 0 1 (S w)); [exact Hw|lia]. }
  destruct (lookup_lt_is_Some_2 item0 i Hi) as [r Hr].
  pose proof (has_width_lookup _ _ _ _ Hw Hr) as Hlr.
  destruct r as [|f r]; [discriminate Hlr|].
  assert (Hrow : gt_is_label_of item0 !! i = Some [f]).
  { unfold gt_is_label_of, split_w. change (map ?g ?t) with (g <$> t).
    rewrite list_lookup_fmap, Hr. reflexivity. }
  pose proof (lookup_concat_blocks (gt_is_label_of item0) 1 i 0 [f] Hf Hrow ltac:(lia))
    as Hc.
  rewrite Nat.mul_1_r, Nat.add_0_r in Hc. cbn in Hc.
  rewrite (list_lookup_total_correct _ _ _ Hr). cbn.
  apply list_lookup_total_correct. rewrite lookup_app_l; [exact Hc|].
  rewrite (length_concat_blocks _ 1 Hf). unfold gt_is_label_of.
  rewrite split_w_length. lia.
Qed.

(** X15: the number of ground-truth boxes the matcher uses is the number
    of leading presence flags of batch item 0 that do not compare equal to
    zero; it never exceeds max_gt_boxes and does not depend on the other
    items. *)
Theorem num_gt_boxes_of_first_item (item0 : list (list spec_float))
    (rest : list (list (list spec_float))) :
  has_shape max_gt_boxes (5 + num_classes) item0 ->
  let n := num_gt_boxes_of (item0 :: rest) in
  n <= max_gt_boxes /\
  (forall k, k < n -> SFeqb ((item0 !!! k) !!! 0) F32.zero = false) /\
  (n < max_gt_boxes -> SFeqb ((item0 !!! n) !!! 0) F32.zero = true).
Proof.
  intros [Hl Hw]. cbv zeta. unfold num_gt_boxes_of.
  destruct (count_gt_boxes_spec
              (concat (concat (map gt_is_label_of (item0 :: rest))))
              (seq 0 max_gt_boxes)) as (H1 & H2 & H3).
  rewrite length_seq in H1, H3.
  set (n := count_gt_boxes _ _) in *.
  split; [exact H1|]. split.
  - intros k Hk. specialize (H2 k Hk).
    rewrite (lookup_total_seq_lt 0 max_gt_boxes k) in H2 by lia.
    rewrite (flat_flag_lookup item0 rest (4 + num_classes)) in H2 by
      (first [exact Hw | lia]).
    exact H2.
  - intros Hn. specialize (H3 Hn).
    rewrite (lookup_total_seq_lt 0 max_gt_boxes n) in H3 by lia.
    rewrite (flat_flag_lookup item0 rest (4 + num_classes)) in H3 by
      (first [exact Hw | lia]).
    exact H3.
Qed.

Lemma foldl_ext_in {A B} (f g : A -> B -> A) (a : A) (l : list B) :
  (forall a b, b ∈ l -> f a b = g a b) -> foldl f a l = foldl g a l.
Proof.
  revert a. induction l as [|b l IH]; intros a H; [reflexivity|].
  cbn [foldl]. rewrite H by (apply elem_of_cons; by left).
  apply IH. intros a' b' Hb'. apply H. apply elem_of_cons. by right.
Qed.

Section Losses.
Variable softmax : list (list spec_float) -> list (list spec_float).
Variable log : spec_float -> spec_float.

(** X16: [cross_entropy_with_mask] reads the labels of the anchors whose
    mask entry is not zero only: label vectors that agree on those anchors
    give the same loss. *)
Theorem cross_entropy_with_mask_labels (x : list (list spec_float))
    (mask l l' : list Z) :
  (forall a, a < length x -> mask !!! a <> 0%Z -> l' !!! a = l !!! a) ->
  cross_entropy_with_mask softmax log x mask l'
  = cross_entropy_with_mask softmax log x mask l.
Proof.
  intros H. unfold cross_entropy_with_mask. cbv zeta. f_equal.
  apply foldl_ext_in. intros loss a Ha.
  apply elem_of_seq in Ha. destruct (truthy (mask !!! a)) eqn:Ht; [|reflexivity].
  apply truthy_spec in Ht. rewrite (H a ltac:(lia) Ht). reflexivity.
Qed.

(** X17: with a mask that is non-zero at every anchor,
    [cross_entropy_with_mask] returns what [cross_entropy] returns. *)
Theorem cross_entropy_with_full_mask (x : list (list spec_float)) (mask l : list Z) :
  (forall a, a < length x -> mask !!! a <> 0%Z) ->
  cross_entropy_with_mask softmax log x mask l = cross_entropy softmax log x l.
Proof.
  intros H. unfold cross_entropy_with_mask, cross_entropy. cbv zeta. f_equal.
  apply foldl_ext_in. intros loss a Ha.
  apply elem_of_seq in Ha.
  destruct (truthy (mask !!! a)) eqn:Ht; [reflexivity|].
  apply truthy_false in Ht. by destruct (H a ltac:(lia)).
Qed.
End Losses.

(** * The recorded IoU *)

Lemma recorded_iou_sign (anchors : list (list spec_float) * list (list spec_float))
    (gt_yx_ gt_hw_ : list (list spec_float)) (k i : nat) :
  i < length anchors.1 -> i < num_anchors ->
  let v := anchor_gt_label_iou (match_anchors k anchors gt_yx_ gt_hw_) !!! i in
  v = F32.zero \/ F32.ltb F32.zero v = true.
Proof.
  intros Hi Hn. cbv zeta.
  destruct (best_match anchors gt_yx_ gt_hw_ k i Hi Hn) as [_ Hcase].
  cbv zeta in Hcase.
  destruct Hcase as [[He _]|(j & Hj & He & Hpos & _)].
  - apply (f_equal (fun e => e.1.1.2)) in He. cbn [entry entry_none fst snd] in He.
    left. exact He.
  - apply (f_equal (fun e => e.1.1.2)) in He. cbn [entry entry_of_gt fst snd] in He.
    right. rewrite He. exact Hpos.
Qed.

(** * Every generated anchor is a proper box *)

Lemma positive_pairb_spec (r : list spec_float) :
  positive_pairb r = true -> positive_pair r.
Proof.
  destruct r as [|a [|b [|? ?]]]; try discriminate. cbn [positive_pairb]. intros H.
  apply andb_true_iff in H as [H H4]. apply andb_true_iff in H as [H H3].
  apply andb_true_iff in H as [H1 H2]. exists a, b. auto.
Qed.

Lemma anchors_table :
  forallb positive_pairb create_anchors.1 && forallb positive_pairb create_anchors.2
  = true.
Proof. vm_cast_no_check (eq_refl true). Qed.

(** X19: every generated anchor has a finite centre with coordinates
    above zero and a finite size with height and width above zero, so the
    divisions by the anchor sizes in the regression targets never divide
    by zero. *)
Theorem anchors_positive (i : nat) :
  i < num_anchors ->
  positive_pair (create_anchors.1 !!! i) /\ positive_pair (create_anchors.2 !!! i).
Proof.
  intros Hi. pose proof create_anchors_length as [Hl1 Hl2].
  pose proof anchors_table as H. apply andb_true_iff in H as [H1 H2].
  rewrite forallb_forall in H1, H2.
  split; apply positive_pairb_spec.
  - apply H1, list_elem_of_In, list_elem_of_lookup_total_2. by rewrite Hl1.
  - apply H2, list_elem_of_In, list_elem_of_lookup_total_2. by rewrite Hl2.
Qed.

(** * Shapes of the concrete inputs *)

Lemma zero_item_shape : has_shape num_anchors (10 + num_classes) zero_item.
Proof.
  split; [rewrite num_anchors_eq; apply length_replicate|].
  apply Forall_replicate. reflexivity.
Qed.

Lemma one_box_item_shape : has_shape max_gt_boxes (5 + num_classes) one_box_item.
Proof.
  split; [reflexivity|]. unfold one_box_item. constructor; [reflexivity|].
  apply Forall_replicate. reflexivity.
Qed.

Lemma softmax_ref_shape (h w : nat) (x : list (list spec_float)) :
  has_shape h w x -> has_shape h w (softmax_ref x).
Proof.
  intros [Hl Hw]. unfold softmax_ref. split; [by rewrite length_map|].
  apply Forall_forall. intros r Hr.
  apply list_elem_of_In, in_map_iff in Hr as (r' & <- & Hr').
  unfold softmax_row. cbv zeta. rewrite !length_map.
  unfold has_width in Hw. rewrite Forall_forall in Hw. apply Hw.
  by apply list_elem_of_In.
Qed.

Lemma one_box_count : num_gt_boxes_of [one_box_item] = 1.
Proof. vm_compute. reflexivity. Qed.

(** X5: a forward pass leaves one cache entry per batch item in each of
    the six member vectors; the masks and class labels of an item have
    num_anchors entries and its target centres and sizes are num_anchors
    rows of two columns. *)
Theorem forwarding_cache_shape
    (softmax : list (list spec_float) -> list (list spec_float))
    (log : spec_float -> spec_float)
    (std_sort : (nat * spec_float -> nat * spec_float -> bool) ->
                list (nat * spec_float) -> list (nat * spec_float))
    (input gt : list (list (list spec_float))) :
  cache_shape (length input) num_anchors (forwarding softmax log std_sort input gt).1.
Proof. unfold forwarding. cbv zeta. cbn [fst]. apply forwarding_fold_shape. Qed.

(** A batch of one item of zero predictions and an empty label. *)
Lemma calcDerivative_shape_witness :
  let self := (forwarding softmax_ref (fun x => x) insertion_sort
                 [zero_item] [no_box_item]).1 in
  let d := calcDerivative softmax_ref (fun x => x) self [zero_item] in
  length d = length [zero_item] /\
  Forall (has_shape num_anchors (10 + num_classes)) d.
Proof.
  apply (calcDerivative_shape softmax_ref (fun x => x) insertion_sort
           softmax_ref_shape [zero_item] [no_box_item]).
  apply Forall_singleton. apply zero_item_shape.
Defined.

(** X7: after the first k ground truths an anchor is in the positive set
    exactly when, for one of them, it is the first anchor of largest IoU or
    its IoU exceeds 0.5. *)
Theorem positive_anchor_iff (gt_yx_ gt_hw_ : list (list spec_float)) (k i : nat) :
  i ∈ positive_idx_set (match_anchors k create_anchors gt_yx_ gt_hw_)
  <-> exists j, j < k /\
        (i = max_element (calc_iou create_anchors.1 create_anchors.2
                            [gt_yx_ !!! j] [gt_hw_ !!! j])
         \/ (i < num_anchors /\
             gt_double (iou_at create_anchors gt_yx_ gt_hw_ j i) F64.lit_0_5 = true)).
Proof.
  rewrite match_anchors_set. rewrite (proj1 create_anchors_length). reflexivity.
Qed.

(** X8: every processed ground truth has a positive anchor whose IoU
    with it no anchor exceeds. *)
Theorem best_anchor_is_positive (gt_yx_ gt_hw_ : list (list spec_float)) (k j : nat) :
  j < k ->
  exists i, i < num_anchors /\
    i ∈ positive_idx_set (match_anchors k create_anchors gt_yx_ gt_hw_) /\
    forall i', i' < num_anchors ->
      F32.ltb (iou_at create_anchors gt_yx_ gt_hw_ j i)
        (iou_at create_anchors gt_yx_ gt_hw_ j i') = false.
Proof.
  intros Hj. pose proof create_anchors_length as [Hl1 Hl2].
  destruct (match_anchors_best_positive create_anchors gt_yx_ gt_hw_ k j
              create_anchors_nonempty ltac:(congruence) Hj) as (i & Hi & Hin & Hmax).
  exists i. rewrite Hl1 in Hi. split; [exact Hi|]. split; [exact Hin|].
  intros i' Hi'. apply Hmax. rewrite Hl1. exact Hi'.
Qed.

(** One ground truth, the far box. *)
Lemma best_anchor_is_positive_witness :
  exists i, i < num_anchors /\
    i ∈ positive_idx_set (match_anchors 1 create_anchors far_gt_yx far_gt_hw) /\
    forall i', i' < num_anchors ->
      F32.ltb (iou_at create_anchors far_gt_yx far_gt_hw 0 i)
        (iou_at create_anchors far_gt_yx far_gt_hw 0 i') = false.
Proof. apply (best_anchor_is_positive far_gt_yx far_gt_hw 1 0). lia. Defined.

(** X9: the ground-truth index recorded for an anchor is below the
    number of processed ground truths (0 when there is none); the class
    label of the anchor is 0 when it is in the negative mask and otherwise
    the position of the first largest class entry of the recorded ground
    truth; it is always below num_classes. *)
Theorem class_labels_valid
    (softmax : list (list spec_float) -> list (list spec_float))
    (log : spec_float -> spec_float)
    (std_sort : (nat * spec_float -> nat * spec_float -> bool) ->
                list (nat * spec_float) -> list (nat * spec_float))
    (n : nat) (input_b gt_b : list (list spec_float)) (output : spec_float) (i : nat) :
  i < num_anchors ->
  let r := forwarding_item softmax log std_sort n create_anchors input_b gt_b output in
  let m := match_anchors n create_anchors (gt_yx_of gt_b) (gt_hw_of gt_b) in
  let j := Z.to_nat (anchor_gt_label_idx m !!! i) in
  j < max 1 n /\
  it_gt_class_labels r !!! i
    = (if truthy (it_negative_mask r !!! i) then 0%Z
       else Z.of_nat (max_element (gt_class_of gt_b !!! j))) /\
  (0 <= it_gt_class_labels r !!! i < Z.of_nat num_classes)%Z.
Proof. apply forwarding_item_labels. Qed.

(** Anchor 0 of an item with one present box. *)
Lemma class_labels_valid_witness :
  let r := forwarding_item softmax_ref (fun x => x) insertion_sort 1 create_anchors
             zero_item one_box_item F32.zero in
  let m := match_anchors 1 create_anchors (gt_yx_of one_box_item)
             (gt_hw_of one_box_item) in
  let j := Z.to_nat (anchor_gt_label_idx m !!! 0%nat) in
  j < max 1 1 /\
  it_gt_class_labels r !!! 0%nat
    = (if truthy (it_negative_mask r !!! 0%nat) then 0%Z
       else Z.of_nat (max_element (gt_class_of one_box_item !!! j))) /\
  (0 <= it_gt_class_labels r !!! 0%nat < Z.of_nat num_classes)%Z.
Proof.
  apply (class_labels_valid softmax_ref (fun x => x) insertion_sort 1 zero_item
           one_box_item F32.zero 0).
  rewrite num_anchors_eq. lia.
Defined.

(** X10: with a sort that permutes its input, the miner clears the
    negative mask exactly at the anchors of the first p pairs of the sorted
    per-anchor losses and leaves every other entry as it was; it stops at
    the first p for which the negative count is within three times the
    positive count, or at the end of the list. *)
Theorem mining_removes_sorted_prefix
    (softmax : list (list spec_float) -> list (list spec_float))
    (log : spec_float -> spec_float)
    (std_sort : (nat * spec_float -> nat * spec_float -> bool) ->
                list (nat * spec_float) -> list (nat * spec_float))
    (num_positive : Z) (positive_mask_b : list Z)
    (arm_conf_ : list (list spec_float)) (st : list Z * Z) :
  (forall cmp l, Permutation (std_sort cmp l) l) ->
  length positive_mask_b = length arm_conf_ -> length st.1 = length arm_conf_ ->
  let sorted :=
    std_sort (fun v1 v2 => F32.ltb v1.2 v2.2)
      (cross_entropy_per_anchor softmax log arm_conf_ positive_mask_b) in
  let st' := hard_negative_mining softmax log std_sort num_positive
               positive_mask_b arm_conf_ st in
  exists p, p <= length sorted /\
    (forall i, st'.1 !!! i
               = if decide (i ∈ (take p sorted).*1) then 0%Z else st.1 !!! i) /\
    (p = length sorted \/ (st'.2 <= wrap32 (3 * num_positive))%Z) /\
    (forall q, q < p ->
       (wrap32 (3 * num_positive) < (mining_loop num_positive (take q sorted) st).2)%Z).
Proof.
  intros Hperm Hlp Hls. cbv zeta. rewrite hard_negative_mining_loop.
  apply mining_loop_prefix.
  destruct (cross_entropy_per_anchor_indices softmax log arm_conf_ positive_mask_b Hlp)
    as [Hall _].
  rewrite Hls. apply Forall_forall. intros p Hp.
  rewrite Forall_forall in Hall. apply Hall.
  apply list_elem_of_In. apply list_elem_of_In in Hp.
  eapply Permutation_in; [apply Hperm|exact Hp].
Qed.

(** One anchor, in the negative mask, and no positive anchor. *)
Lemma mining_removes_sorted_prefix_witness :
  let sorted :=
    insertion_sort (fun v1 v2 => F32.ltb v1.2 v2.2)
      (cross_entropy_per_anchor softmax_ref (fun x => x)
         [[F32.zero; F32.zero]] [0%Z]) in
  let st' := hard_negative_mining softmax_ref (fun x => x) insertion_sort 0
               [0%Z] [[F32.zero; F32.zero]] ([1%Z], 1%Z) in
  exists p, p <= length sorted /\
    (forall i, st'.1 !!! i
               = if decide (i ∈ (take p sorted).*1) then 0%Z else [1%Z] !!! i) /\
    (p = length sorted \/ (st'.2 <= wrap32 (3 * 0))%Z) /\
    (forall q, q < p ->
       (wrap32 (3 * 0) < (mining_loop 0 (take q sorted) ([1%Z], 1%Z)).2)%Z).
Proof.
  apply (mining_removes_sorted_prefix softmax_ref (fun x => x) insertion_sort 0
           [0%Z] [[F32.zero; F32.zero]] ([1%Z], 1%Z)).
  - intros cmp l. apply insertion_sort_perm.
  - reflexivity.
  - reflexivity.
Defined.

(** Two anchors, the first outside the mask. *)
Lemma smooth_l1_masked_witness :
  smooth_l1 [[F32.of_Z 2]; [F32.of_Z 3]] [[F32.of_Z 7]; [F32.zero]] [0%Z; 1%Z]
  = smooth_l1 [[F32.of_Z 1]; [F32.of_Z 3]] [[F32.zero]; [F32.zero]] [0%Z; 1%Z].
Proof.
  apply (smooth_l1_masked [[F32.of_Z 1]; [F32.of_Z 3]] [[F32.of_Z 2]; [F32.of_Z 3]]
           [[F32.zero]; [F32.zero]] [[F32.of_Z 7]; [F32.zero]] [0%Z; 1%Z]).
  - reflexivity.
  - reflexivity.
  - intros [|[|i]] Hi Hm; cbn in Hi; [by destruct Hm|by split|lia].
Defined.

(** X12: for a label row whose corners are integer pixel coordinates
    between 0 and 224, the centre and size lines 302-305 compute are exact:
    the centre is (c1 + c2) / 2 and the size is c2 - c1 on both axes. *)
Theorem gt_box_conversion (gt_b : list (list spec_float)) (j : nat)
    (flag : spec_float) (y1 x1 y2 x2 : nat) (cls : list spec_float) :
  gt_b !! j = Some (flag :: F32.of_Z (Z.of_nat y1) :: F32.of_Z (Z.of_nat x1)
                      :: F32.of_Z (Z.of_nat y2) :: F32.of_Z (Z.of_nat x2) :: cls) ->
  y1 <= 224 -> x1 <= 224 -> y2 <= 224 -> x2 <= 224 ->
  gt_yx_of gt_b !! j
    = Some [centre_of (F32.of_Z (Z.of_nat y1)) (F32.of_Z (Z.of_nat y2));
            centre_of (F32.of_Z (Z.of_nat x1)) (F32.of_Z (Z.of_nat x2))] /\
  gt_hw_of gt_b !! j
    = Some [size_of (F32.of_Z (Z.of_nat y1)) (F32.of_Z (Z.of_nat y2));
            size_of (F32.of_Z (Z.of_nat x1)) (F32.of_Z (Z.of_nat x2))] /\
  conversion_exact y1 y2 /\ conversion_exact x1 x2.
Proof.
  intros Hj Hy1 Hx1 Hy2 Hx2.
  destruct (gt_box_rows gt_b j _ _ _ _ _ _ Hj) as [H1 H2].
  split; [exact H1|]. split; [exact H2|].
  split; by apply conversion_exact_pixels.
Qed.

(** The box of corners (50, 50) and (150, 150). *)
Lemma gt_box_conversion_witness :
  gt_yx_of one_box_item !! 0
    = Some [centre_of (F32.of_Z (Z.of_nat 50)) (F32.of_Z (Z.of_nat 150));
            centre_of (F32.of_Z (Z.of_nat 50)) (F32.of_Z (Z.of_nat 150))] /\
  gt_hw_of one_box_item !! 0
    = Some [size_of (F32.of_Z (Z.of_nat 50)) (F32.of_Z (Z.of_nat 150));
            size_of (F32.of_Z (Z.of_nat 50)) (F32.of_Z (Z.of_nat 150))] /\
  conversion_exact 50 150 /\ conversion_exact 50 150.
Proof.
  apply (gt_box_conversion one_box_item 0 (F32.of_Z 1) 50 50 150 150
           (<[1 := F32.of_Z 1]> (replicate 21 F32.zero))).
  - reflexivity.
  - lia.
  - lia.
  - lia.
  - lia.
Defined.

Lemma positive_set_size_bound (n : nat) (gt_yx_ gt_hw_ : list (list spec_float)) :
  size (positive_idx_set (match_anchors n create_anchors gt_yx_ gt_hw_)) <= num_anchors.
Proof.
  pose proof create_anchors_length as [Hl1 Hl2].
  assert (Hset : forall i, i ∈ positive_idx_set
                   (match_anchors n create_anchors gt_yx_ gt_hw_) -> i < num_anchors).
  { intros i Hi. rewrite <- Hl1.
    apply (match_anchors_set_bound create_anchors gt_yx_ gt_hw_ n i
             create_anchors_nonempty); [congruence|exact Hi]. }
  destruct (make_positive_mask_spec num_anchors _ Hset) as (Hpl & _ & Hpc & _).
  pose proof (count_nz_le (make_positive_mask num_anchors
                (positive_idx_set (match_anchors n create_anchors gt_yx_ gt_hw_))))
    as Hle.
  rewrite Hpl, Hpc in Hle. exact Hle.
Qed.

Lemma item_num_positive_ge (n : nat) (gt_b : list (list spec_float)) :
  (1 <= item_num_positive (S n) gt_b)%Z.
Proof.
  unfold item_num_positive.
  pose proof (positive_set_size_bound (S n) (gt_yx_of gt_b) (gt_hw_of gt_b)) as Hb.
  pose proof (match_anchors_positive create_anchors (gt_yx_of gt_b) (gt_hw_of gt_b) n)
    as Hp.
  rewrite num_anchors_eq in Hb.
  rewrite wrap32_small; lia.
Qed.

Lemma lookup_total_singleton_0 {A} `{Inhabited A} (a : A) : [a] !!! 0 = a.
Proof. reflexivity. Qed.

(** The item with one present box has a positive anchor. *)
Lemma one_box_positive
    (softmax : list (list spec_float) -> list (list spec_float))
    (log : spec_float -> spec_float)
    (std_sort : (nat * spec_float -> nat * spec_float -> bool) ->
                list (nat * spec_float) -> list (nat * spec_float)) :
  (1 <= num_positive_anchors
          (forwarding softmax log std_sort [zero_item] [one_box_item]).1 !!! 0%nat)%Z.
Proof.
  rewrite forwarding_counts, one_box_count. cbn [length seq map].
  rewrite lookup_total_singleton_0. apply item_num_positive_ge.
Qed.

(** Anchor 0 of an item with one present box. *)
Lemma unselected_anchor_gradient_witness :
  let self := (forwarding softmax_ref (fun x => x) insertion_sort
                 [zero_item] [one_box_item]).1 in
  let d := calcDerivative_item softmax_ref (fun x => x) self create_anchors
             ([zero_item] !!! 0) 0 in
  ((positive_mask self !!! 0) !!! 0 = 0%Z ->
     (arm_yx_deriv_ d !!! 0) !!! 0 = F32.zero /\
     (arm_hw_deriv_ d !!! 0) !!! 0 = F32.zero /\
     (odm_yx_deriv_ d !!! 0) !!! 0 = F32.zero /\
     (odm_hw_deriv_ d !!! 0) !!! 0 = F32.zero) /\
  ((pos_neg_mask self !!! 0) !!! 0 = 0%Z ->
     Forall (fun v => v = F32.zero) (odm_conf_deriv_ d !!! 0)).
Proof.
  apply (unselected_anchor_gradient softmax_ref (fun x => x) insertion_sort
           [zero_item] [one_box_item] 0 0 0).
  - apply Forall_singleton. apply zero_item_shape.
  - cbn [length]. lia.
  - rewrite num_anchors_eq. lia.
  - lia.
  - apply one_box_positive.
Defined.

(** A batch whose first item has one present box. *)
Lemma num_gt_boxes_of_first_item_witness :
  let n := num_gt_boxes_of (one_box_item :: [no_box_item]) in
  n <= max_gt_boxes /\
  (forall k, k < n -> SFeqb ((one_box_item !!! k) !!! 0) F32.zero = false) /\
  (n < max_gt_boxes -> SFeqb ((one_box_item !!! n) !!! 0) F32.zero = true).
Proof.
  apply (num_gt_boxes_of_first_item one_box_item [no_box_item]).
  apply one_box_item_shape.
Defined.

(** Two anchors with zero logits. *)
Lemma cross_entropy_with_mask_labels_witness :
  cross_entropy_with_mask softmax_ref (fun x => x)
    [[F32.zero; F32.zero]; [F32.zero; F32.zero]] [1%Z; 0%Z] [1%Z; 1%Z]
  = cross_entropy_with_mask softmax_ref (fun x => x)
      [[F32.zero; F32.zero]; [F32.zero; F32.zero]] [1%Z; 0%Z] [1%Z; 0%Z].
Proof.
  apply (cross_entropy_with_mask_labels softmax_ref (fun x => x)
           [[F32.zero; F32.zero]; [F32.zero; F32.zero]] [1%Z; 0%Z] [1%Z; 0%Z]
           [1%Z; 1%Z]).
  intros [|[|a]] Ha Hm; cbn in Ha; [reflexivity|by destruct Hm|lia].
Defined.

(** Two anchors with zero logits, both in the mask. *)
Lemma cross_entropy_with_full_mask_witness :
  cross_entropy_with_mask softmax_ref (fun x => x)
    [[F32.zero; F32.zero]; [F32.zero; F32.zero]] [1%Z; 1%Z] [1%Z; 0%Z]
  = cross_entropy softmax_ref (fun x => x)
      [[F32.zero; F32.zero]; [F32.zero; F32.zero]] [1%Z; 0%Z].
Proof.
  apply (cross_entropy_with_full_mask softmax_ref (fun x => x)
           [[F32.zero; F32.zero]; [F32.zero; F32.zero]] [1%Z; 1%Z] [1%Z; 0%Z]).
  intros [|[|a]] Ha; cbn in Ha; [discriminate|discriminate|lia].
Defined.

(** X18: after any number of processed ground truths the index recorded
    for an anchor is below that number (0 when there is none) and the
    recorded IoU is 0 or above 0: a NaN or negative IoU is never recorded. *)
Theorem recorded_match_range (gt_yx_ gt_hw_ : list (list spec_float)) (k i : nat) :
  i < num_anchors ->
  let m := match_anchors k create_anchors gt_yx_ gt_hw_ in
  (0 <= anchor_gt_label_idx m !!! i < Z.of_nat (max 1 k))%Z /\
  (anchor_gt_label_iou m !!! i = F32.zero
   \/ F32.ltb F32.zero (anchor_gt_label_iou m !!! i) = true).
Proof.
  intros Hi. cbv zeta. pose proof create_anchors_length as [Hl1 Hl2].
  split.
  - apply recorded_index_range; [rewrite Hl1; exact Hi|exact Hi].
  - apply recorded_iou_sign; [rewrite Hl1; exact Hi|exact Hi].
Qed.

(** Anchor 0 and the far box. *)
Lemma recorded_match_range_witness :
  let m := match_anchors 1 create_anchors far_gt_yx far_gt_hw in
  (0 <= anchor_gt_label_idx m !!! 0%nat < Z.of_nat (max 1 1))%Z /\
  (anchor_gt_label_iou m !!! 0 = F32.zero
   \/ F32.ltb F32.zero (anchor_gt_label_iou m !!! 0) = true).
Proof.
  apply (recorded_match_range far_gt_yx far_gt_hw 1 0).
  rewrite num_anchors_eq. lia.
Defined.

(** Anchor 0. *)
Lemma anchors_positive_witness :
  positive_pair (create_anchors.1 !!! 0) /\ positive_pair (create_anchors.2 !!! 0).
Proof. apply (anchors_positive 0). rewrite num_anchors_eq. lia. Defined.

(** * The blocks of the outgoing derivative *)

Lemma split_cat_w_l (h a b off n : nat) (x y : list (list spec_float)) :
  has_shape h a x -> has_shape h b y -> off + n <= a ->
  split_w off n (cat_w x y) = split_w off n x.
Proof.
  intros [Hlx Hwx] [Hly Hwy] Hle. revert h y Hlx Hly Hwy.
  induction Hwx as [|r x Hr Hwx IH]; intros h y Hlx Hly Hwy.
  - destruct y; reflexivity.
  - destruct Hwy as [|r' y Hr' Hwy]; [cbn in *; lia|].
    unfold split_w, cat_w in *. cbn [zip_with map]. f_equal.
    + rewrite drop_app_le by lia. rewrite take_app_le; [reflexivity|].
      rewrite length_drop. lia.
    + apply (IH (length x)); [reflexivity| |exact Hwy]. cbn in *. lia.
Qed.

Lemma split_cat_w_r (h a b n : nat) (x y : list (list spec_float)) :
  has_shape h a x -> has_shape h b y ->
  split_w a n (cat_w x y) = split_w 0 n y.
Proof.
  intros [Hlx Hwx] [Hly Hwy]. revert h y Hlx Hly Hwy.
  induction Hwx as [|r x Hr Hwx IH]; intros h y Hlx Hly Hwy.
  - destruct y; [reflexivity|cbn in *; lia].
  - destruct Hwy as [|r' y Hr' Hwy]; [cbn in *; lia|].
    unfold split_w, cat_w in *. cbn [zip_with map]. f_equal.
    + rewrite drop_app_length' by (symmetry; exact Hr). reflexivity.
    + apply (IH (length x)); [reflexivity| |exact Hwy]. cbn in *. lia.
Qed.

Lemma split_w_all (h w : nat) (x : list (list spec_float)) :
  has_shape h w x -> split_w 0 w x = x.
Proof.
  intros [_ Hw]. unfold split_w.
  transitivity (map (fun r : list spec_float => r) x); [|apply map_id].
  apply map_ext_in. intros r Hr. apply list_elem_of_In in Hr.
  unfold has_width in Hw. rewrite Forall_forall in Hw.
  rewrite drop_0. apply take_ge. rewrite (Hw _ Hr). lia.
Qed.

(** The six blocks of a slice are its fields. *)
Lemma cat_item_fields (h : nat) (d : item_derivative) :
  has_shape h 2 (arm_yx_deriv_ d) -> has_shape h 2 (arm_hw_deriv_ d) ->
  has_shape h 2 (arm_conf_deriv_ d) -> has_shape h 2 (odm_yx_deriv_ d) ->
  has_shape h 2 (odm_hw_deriv_ d) -> has_shape h num_classes (odm_conf_deriv_ d) ->
  arm_yx_of (cat_item d) = arm_yx_deriv_ d /\
  arm_hw_of (cat_item d) = arm_hw_deriv_ d /\
  arm_conf_of (cat_item d) = arm_conf_deriv_ d /\
  odm_yx_of (cat_item d) = odm_yx_deriv_ d /\
  odm_hw_of (cat_item d) = odm_hw_deriv_ d /\
  odm_conf_of (cat_item d) = odm_conf_deriv_ d.
Proof.
  intros S1 S2 S3 S4 S5 S6. unfold cat_item.
  pose proof (cat_w_shape h 2 2 _ _ S1 S2) as W2.
  pose proof (cat_w_shape h 4 2 _ _ W2 S3) as W3.
  pose proof (cat_w_shape h 6 2 _ _ W3 S4) as W4.
  pose proof (cat_w_shape h 8 2 _ _ W4 S5) as W5.
  unfold arm_yx_of, arm_hw_of, arm_conf_of, odm_yx_of, odm_hw_of, odm_conf_of.
  split; [|split; [|split; [|split; [|split]]]].
  - rewrite (split_cat_w_l h 10 num_classes 0 2) by (first [assumption | lia]).
    rewrite (split_cat_w_l h 8 2 0 2) by (first [assumption | lia]).
    rewrite (split_cat_w_l h 6 2 0 2) by (first [assumption | lia]).
    rewrite (split_cat_w_l h 4 2 0 2) by (first [assumption | lia]).
    rewrite (split_cat_w_l h 2 2 0 2) by (first [assumption | lia]).
    by apply (split_w_all h).
  - rewrite (split_cat_w_l h 10 num_classes 2 2) by (first [assumption | lia]).
    rewrite (split_cat_w_l h 8 2 2 2) by (first [assumption | lia]).
    rewrite (split_cat_w_l h 6 2 2 2) by (first [assumption | lia]).
    rewrite (split_cat_w_l h 4 2 2 2) by (first [assumption | lia]).
    rewrite (split_cat_w_r h 2 2 2) by assumption.
    by apply (split_w_all h).
  - rewrite (split_cat_w_l h 10 num_classes 4 2) by (first [assumption | lia]).
    rewrite (split_cat_w_l h 8 2 4 2) by (first [assumption | lia]).
    rewrite (split_cat_w_l h 6 2 4 2) by (first [assumption | lia]).
    rewrite (split_cat_w_r h 4 2 2) by assumption.
    by apply (split_w_all h).
  - rewrite (split_cat_w_l h 10 num_classes 6 2) by (first [assumption | lia]).
    rewrite (split_cat_w_l h 8 2 6 2) by (first [assumption | lia]).
    rewrite (split_cat_w_r h 6 2 2) by assumption.
    by apply (split_w_all h).
  - rewrite (split_cat_w_l h 10 num_classes 8 2) by (first [assumption | lia]).
    rewrite (split_cat_w_r h 8 2 2) by assumption.
    by apply (split_w_all h).
  - rewrite (split_cat_w_r h 10 num_classes num_classes) by assumption.
    by apply (split_w_all h).
Qed.

Lemma split_w_column (off n : nat) (t : list (list spec_float)) (i c : nat) :
  i < length t -> c < n ->
  (split_w off n t !!! i) !!! c = (t !!! i) !!! (off + c).
Proof.
  intros Hi Hc. rewrite split_w_lookup_total by exact Hi.
  rewrite lookup_total_take, decide_True by exact Hc. apply lookup_total_drop.
Qed.

Lemma cat_w_lookup_total (h a b : nat) (x y : list (list spec_float)) (i : nat) :
  has_shape h a x -> has_shape h b y -> i < h ->
  cat_w x y !!! i = x !!! i ++ y !!! i.
Proof.
  intros [Hlx _] [Hly _] Hi.
  destruct (lookup_lt_is_Some_2 x i ltac:(lia)) as [rx Hrx].
  destruct (lookup_lt_is_Some_2 y i ltac:(lia)) as [ry Hry].
  rewrite (list_lookup_total_correct _ _ _ Hrx), (list_lookup_total_correct _ _ _ Hry).
  apply list_lookup_total_correct. unfold cat_w.
  rewrite lookup_zip_with, Hrx, Hry. reflexivity.
Qed.

Lemma cat_w_column_l (h a b : nat) (x y : list (list spec_float)) (i c : nat) :
  has_shape h a x -> has_shape h b y -> i < h -> c < a ->
  (cat_w x y !!! i) !!! c = (x !!! i) !!! c.
Proof.
  intros Hx Hy Hi Hc. rewrite (cat_w_lookup_total h a b) by assumption.
  destruct Hx as [Hlx Hwx].
  destruct (lookup_lt_is_Some_2 x i ltac:(lia)) as [rx Hrx].
  rewrite (list_lookup_total_correct _ _ _ Hrx).
  apply lookup_total_app_l. rewrite (has_width_lookup _ _ _ _ Hwx Hrx). exact Hc.
Qed.

Lemma cat_w_column_r (h a b : nat) (x y : list (list spec_float)) (i c : nat) :
  has_shape h a x -> has_shape h b y -> i < h ->
  (cat_w x y !!! i) !!! (a + c) = (y !!! i) !!! c.
Proof.
  intros Hx Hy Hi. rewrite (cat_w_lookup_total h a b) by assumption.
  destruct Hx as [Hlx Hwx].
  destruct (lookup_lt_is_Some_2 x i ltac:(lia)) as [rx Hrx].
  rewrite (list_lookup_total_correct _ _ _ Hrx).
  rewrite lookup_total_app_r by (rewrite (has_width_lookup _ _ _ _ Hwx Hrx); lia).
  rewrite (has_width_lookup _ _ _ _ Hwx Hrx). f_equal. lia.
Qed.

Section Blocks.
Variable softmax : list (list spec_float) -> list (list spec_float).
Variable log : spec_float -> spec_float.
Variable std_sort :
  (nat * spec_float -> nat * spec_float -> bool) ->
  list (nat * spec_float) -> list (nat * spec_float).
Hypothesis softmax_shape :
  forall h w x, has_shape h w x -> has_shape h w (softmax x).

(** The shapes of the six blocks [calcDerivative] builds for one item. *)
Lemma calcDerivative_item_blocks (A : nat) (self : RefineDetLoss)
    (anchors : list (list spec_float) * list (list spec_float))
    (input_b : list (list spec_float)) (b : nat) :
  0 < A ->
  has_shape A 2 anchors.1 -> has_shape A 2 anchors.2 ->
  has_shape A (10 + num_classes) input_b ->
  length (positive_mask self !!! b) = A ->
  length (gt_class_labels self !!! b) = A ->
  has_shape A 2 (anchor_gt_label_yx self !!! b) ->
  has_shape A 2 (anchor_gt_label_hw self !!! b) ->
  let d := calcDerivative_item softmax log self anchors input_b b in
  has_shape A 2 (arm_yx_deriv_ d) /\ has_shape A 2 (arm_hw_deriv_ d) /\
  has_shape A 2 (arm_conf_deriv_ d) /\ has_shape A 2 (odm_yx_deriv_ d) /\
  has_shape A 2 (odm_hw_deriv_ d) /\ has_shape A num_classes (odm_conf_deriv_ d).
Proof.
  intros HA Ha1 Ha2 Hin Hpm Hcl Hyx Hhw. cbv zeta.
  unfold calcDerivative_item. cbv zeta.
  cbn [arm_yx_deriv_ arm_hw_deriv_ arm_conf_deriv_ odm_yx_deriv_ odm_hw_deriv_
       odm_conf_deriv_].
  assert (Hgt : has_shape A 4
                  (cat_w (gt_yx_ratio anchors (anchor_gt_label_yx self !!! b))
                     (gt_hw_log' log anchors (anchor_gt_label_hw self !!! b)))).
  { apply (cat_w_shape A 2 2).
    - unfold gt_yx_ratio. by apply tzip_shape; [apply tzip_shape|].
    - unfold gt_hw_log'. by apply tmap_has_shape, tzip_shape. }
  assert (Harm : has_shape A 4 (cat_w (arm_yx_of input_b) (arm_hw_of input_b))).
  { apply (cat_w_shape A 2 2); eapply split_w_shape; eauto; cbn; lia. }
  assert (Hodm : has_shape A 4 (cat_w (odm_yx_of input_b) (odm_hw_of input_b))).
  { apply (cat_w_shape A 2 2); eapply split_w_shape; eauto; cbn; lia. }
  destruct (box_derivatives_shape A _ _ _ (positive_mask self !!! b)
              (num_positive_anchors self !!! b) Harm Hodm Hgt HA)
    as (B1 & B2 & B3 & B4).
  cbv zeta in B1, B2, B3, B4.
  split; [exact B1|]. split; [exact B2|]. split; [|split; [exact B3|split; [exact B4|]]].
  - apply cross_entropy_derivative_shape; [exact softmax_shape| |exact HA|exact Hpm].
    unfold arm_conf_of. eapply split_w_shape; eauto. cbn; lia.
  - apply cross_entropy_with_mask_derivative_shape;
      [exact softmax_shape| |exact HA|exact Hcl].
    unfold odm_conf_of. eapply split_w_shape; eauto.
Qed.

Lemma calcDerivative_lookup (self : RefineDetLoss)
    (input : list (list (list spec_float))) (b : nat) :
  b < length input ->
  calcDerivative softmax log self input !!! b
  = cat_item (calcDerivative_item softmax log self create_anchors (input !!! b) b).
Proof.
  intros Hb. unfold calcDerivative. cbv zeta.
  change (map ?f ?t) with (f <$> t).
  rewrite (list_lookup_total_fmap
             (fun b => cat_item (calcDerivative_item softmax log self create_anchors
                                   (input !!! b) b)))
    by (rewrite length_seq; exact Hb).
  by rewrite lookup_total_seq_lt.
Qed.

(** The blocks built from the cache of a forward pass on the same input. *)
Lemma forward_blocks (input gt : list (list (list spec_float))) (b : nat) :
  Forall (has_shape num_anchors (10 + num_classes)) input ->
  b < length input ->
  let self := (forwarding softmax log std_sort input gt).1 in
  let d := calcDerivative_item softmax log self create_anchors (input !!! b) b in
  has_shape num_anchors 2 (arm_yx_deriv_ d) /\
  has_shape num_anchors 2 (arm_hw_deriv_ d) /\
  has_shape num_anchors 2 (arm_conf_deriv_ d) /\
  has_shape num_anchors 2 (odm_yx_deriv_ d) /\
  has_shape num_anchors 2 (odm_hw_deriv_ d) /\
  has_shape num_anchors num_classes (odm_conf_deriv_ d).
Proof.
  intros Hin Hb. cbv zeta.
  pose proof (forwarding_fold_shape softmax log std_sort (num_gt_boxes_of gt)
                input gt (length input)) as Hc.
  change (foldl _ _ _).1 with (forwarding softmax log std_sort input gt).1 in Hc.
  destruct Hc as ([H1 F1] & _ & [H3 F3] & [H4 F4] & [H5 F5] & _).
  set (self := (forwarding softmax log std_sort input gt).1) in *.
  destruct (lookup_lt_is_Some_2 input b Hb) as [x Hx].
  destruct (lookup_lt_is_Some_2 (positive_mask self) b ltac:(lia)) as [pm Hpm].
  destruct (lookup_lt_is_Some_2 (anchor_gt_label_yx self) b ltac:(lia)) as [yx Hyx].
  destruct (lookup_lt_is_Some_2 (anchor_gt_label_hw self) b ltac:(lia)) as [hw Hhw].
  destruct (lookup_lt_is_Some_2 (gt_class_labels self) b ltac:(lia)) as [cl Hcl].
  destruct create_anchors_shape as [Sa1 Sa2].
  apply (calcDerivative_item_blocks num_anchors).
  - rewrite num_anchors_eq. lia.
  - exact Sa1.
  - exact Sa2.
  - rewrite (list_lookup_total_correct _ _ _ Hx).
    exact (Forall_lookup_1 _ _ _ _ Hin Hx).
  - rewrite (list_lookup_total_correct _ _ _ Hpm).
    exact (Forall_lookup_1 _ _ _ _ F1 Hpm).
  - rewrite (list_lookup_total_correct _ _ _ Hcl).
    exact (Forall_lookup_1 _ _ _ _ F5 Hcl).
  - rewrite (list_lookup_total_correct _ _ _ Hyx).
    exact (Forall_lookup_1 _ _ _ _ F3 Hyx).
  - rewrite (list_lookup_total_correct _ _ _ Hhw).
    exact (Forall_lookup_1 _ _ _ _ F4 Hhw).
Qed.

Lemma forward_fields (input gt : list (list (list spec_float))) (b : nat) :
  Forall (has_shape num_anchors (10 + num_classes)) input ->
  b < length input ->
  let self := (forwarding softmax log std_sort input gt).1 in
  let out := calcDerivative softmax log self input !!! b in
  let d := calcDerivative_item softmax log self create_anchors (input !!! b) b in
  arm_yx_of out = arm_yx_deriv_ d /\
  arm_hw_of out = arm_hw_deriv_ d /\
  arm_conf_of out = arm_conf_deriv_ d /\
  odm_yx_of out = odm_yx_deriv_ d /\
  odm_hw_of out = odm_hw_deriv_ d /\
  odm_conf_of out = odm_conf_deriv_ d.
Proof.
  intros Hin Hb. cbv zeta. rewrite calcDerivative_lookup by exact Hb.
  destruct (forward_blocks input gt b Hin Hb) as (S1 & S2 & S3 & S4 & S5 & S6).
  by apply (cat_item_fields num_anchors).
Qed.

(** X4: with a softmax that keeps the shape of its argument, the slice of
    the outgoing derivative of a batch item, split into the six fields
    [forwarding] splits the input item into (widths 2, 2, 2, 2, 2 and
    num_classes), gives the six blocks [calcDerivative] built for the
    item, each at the columns of the prediction field it is the gradient
    of: ARM centre, ARM size, ARM confidence, ODM centre, ODM size, ODM
    confidence. *)
Theorem calcDerivative_fields (input gt : list (list (list spec_float))) (b : nat) :
  Forall (has_shape num_anchors (10 + num_classes)) input ->
  b < length input ->
  let self := (forwarding softmax log std_sort input gt).1 in
  let out := calcDerivative softmax log self input !!! b in
  let d := calcDerivative_item softmax log self create_anchors (input !!! b) b in
  arm_yx_of out = arm_yx_deriv_ d /\
  arm_hw_of out = arm_hw_deriv_ d /\
  arm_conf_of out = arm_conf_deriv_ d /\
  odm_yx_of out = odm_yx_deriv_ d /\
  odm_hw_of out = odm_hw_deriv_ d /\
  odm_conf_of out = odm_conf_deriv_ d.
Proof. apply forward_fields. Qed.

(** The regression targets [forwarding] stores for each item. *)
Lemma forwarding_fold_labels (n : nat) (input gt : list (list (list spec_float)))
    (k : nat) :
  let acc := foldl (forwarding_step softmax log std_sort n create_anchors input gt)
               (empty_state, F32.zero) (seq 0 k) in
  anchor_gt_label_yx acc.1
    = map (fun b => label_yx (match_anchors n create_anchors (gt_yx_of (gt !!! b))
                                (gt_hw_of (gt !!! b)))) (seq 0 k) /\
  anchor_gt_label_hw acc.1
    = map (fun b => label_hw (match_anchors n create_anchors (gt_yx_of (gt !!! b))
                                (gt_hw_of (gt !!! b)))) (seq 0 k).
Proof.
  cbv zeta. induction k as [|k [IH1 IH2]]; [split; reflexivity|].
  rewrite seq_S, foldl_app, !map_app. cbn [foldl map Nat.add].
  unfold forwarding_step at 1 3.
  cbn [fst snd push_item anchor_gt_label_yx anchor_gt_label_hw].
  rewrite IH1, IH2. split; f_equal.
Qed.

(** The columns of the box blocks in the outgoing derivative of a batch
    item: columns 0-1, 2-3 and 6-7 hold the gradients of the ARM centre, ARM
    size and ODM centre offsets, columns 8-9 hold zeros. *)
Lemma calcDerivative_box_columns (input gt : list (list (list spec_float)))
    (b i c : nat) :
  Forall (has_shape num_anchors (10 + num_classes)) input ->
  b < length input -> i < num_anchors -> c < 2 ->
  let self := (forwarding softmax log std_sort input gt).1 in
  let out := calcDerivative softmax log self input !!! b in
  let grad := masked_grad (positive_mask self !!! b)
                (num_positive_anchors self !!! b) i in
  let tyx := gt_yx_ratio create_anchors (anchor_gt_label_yx self !!! b) in
  let thw := gt_hw_log' log create_anchors (anchor_gt_label_hw self !!! b) in
  let x := (input !!! b) !!! i in
  (out !!! i) !!! c = grad (x !!! c) ((tyx !!! i) !!! c) /\
  (out !!! i) !!! (2 + c) = grad (x !!! (2 + c)) ((thw !!! i) !!! c) /\
  (out !!! i) !!! (6 + c) = grad (x !!! (6 + c)) ((tyx !!! i) !!! c) /\
  (out !!! i) !!! (8 + c) = F32.zero.
Proof.
  intros Hin Hb Hi Hc. cbv zeta.
  destruct (forward_fields input gt b Hin Hb)
    as (E1 & E2 & _ & E4 & E5 & _).
  destruct (forward_blocks input gt b Hin Hb)
    as ([L1 _] & _).
  pose proof (forwarding_fold_shape softmax log std_sort (num_gt_boxes_of gt)
                input gt (length input)) as Hcs.
  change (foldl _ _ _).1 with (forwarding softmax log std_sort input gt).1 in Hcs.
  cbv zeta in E1, E2, E4, E5, L1.
  set (self := (forwarding softmax log std_sort input gt).1) in *.
  set (out := calcDerivative softmax log self input !!! b) in *.
  destruct Hcs as (_ & _ & [H3 F3] & [H4 F4] & _ & _).
  assert (Hlo : i < length out).
  { rewrite <- E1 in L1. unfold arm_yx_of in L1. rewrite split_w_length in L1. lia. }
  pose proof (split_w_column 0 2 out i c Hlo Hc) as Q0.
  pose proof (split_w_column 2 2 out i c Hlo Hc) as Q2.
  pose proof (split_w_column 6 2 out i c Hlo Hc) as Q6.
  pose proof (split_w_column 8 2 out i c Hlo Hc) as Q8.
  fold (arm_yx_of out) in Q0. fold (arm_hw_of out) in Q2.
  fold (odm_yx_of out) in Q6. fold (odm_hw_of out) in Q8.
  rewrite E1 in Q0. rewrite E2 in Q2. rewrite E4 in Q6. rewrite E5 in Q8.
  cbn [Nat.add] in Q0, Q2, Q6, Q8 |- *.
  rewrite <- Q0, <- Q2, <- Q6, <- Q8.
  clear E1 E2 E4 E5 L1 Hlo Q0 Q2 Q6 Q8. clearbody self. clear out.
  destruct (lookup_lt_is_Some_2 input b Hb) as [x Hx].
  destruct (lookup_lt_is_Some_2 (anchor_gt_label_yx self) b ltac:(lia)) as [yx Hyx].
  destruct (lookup_lt_is_Some_2 (anchor_gt_label_hw self) b ltac:(lia)) as [hw Hhw].
  pose proof (Forall_lookup_1 _ _ _ _ Hin Hx) as Sx.
  pose proof (Forall_lookup_1 _ _ _ _ F3 Hyx) as Syx.
  pose proof (Forall_lookup_1 _ _ _ _ F4 Hhw) as Shw.
  rewrite (list_lookup_total_correct _ _ _ Hx).
  destruct create_anchors_shape as [Sa1 Sa2].
  unfold calcDerivative_item. cbv zeta.
  cbn [arm_yx_deriv_ arm_hw_deriv_ odm_yx_deriv_ odm_hw_deriv_].
  rewrite (list_lookup_total_correct _ _ _ Hyx), (list_lookup_total_correct _ _ _ Hhw).
  assert (Tyx : has_shape num_anchors 2 (gt_yx_ratio create_anchors yx)).
  { unfold gt_yx_ratio. by apply tzip_shape; [apply tzip_shape|]. }
  assert (Thw : has_shape num_anchors 2 (gt_hw_log' log create_anchors hw)).
  { unfold gt_hw_log'. by apply tmap_has_shape, tzip_shape. }
  assert (P1 : has_shape num_anchors 2 (arm_yx_of x)).
  { eapply split_w_shape; eauto; cbn; lia. }
  assert (P2 : has_shape num_anchors 2 (arm_hw_of x)).
  { eapply split_w_shape; eauto; cbn; lia. }
  assert (P3 : has_shape num_anchors 2 (odm_yx_of x)).
  { eapply split_w_shape; eauto; cbn; lia. }
  assert (P4 : has_shape num_anchors 2 (odm_hw_of x)).
  { eapply split_w_shape; eauto; cbn; lia. }
  pose proof (cat_w_shape num_anchors 2 2 _ _ Tyx Thw) as Hgt.
  pose proof (cat_w_shape num_anchors 2 2 _ _ P1 P2) as Harm.
  pose proof (cat_w_shape num_anchors 2 2 _ _ P3 P4) as Hodm.
  destruct Hgt as [Lg Wg], Harm as [La Wa], Hodm as [Lo Wo].
  destruct (box_derivatives_lookup _ _ _ (positive_mask self !!! b)
              (num_positive_anchors self !!! b) i c Wa Wo Wg
              ltac:(congruence) ltac:(congruence) ltac:(rewrite Lg; exact Hi) Hc)
    as (B1 & B2 & B3 & B4).
  cbv zeta in B1, B2, B3, B4.
  rewrite B1, B2, B3, B4.
  rewrite (cat_w_column_l num_anchors 2 2 (arm_yx_of x)) by assumption.
  rewrite (cat_w_column_l num_anchors 2 2 (odm_yx_of x)) by assumption.
  rewrite (cat_w_column_l num_anchors 2 2 (gt_yx_ratio create_anchors yx))
    by assumption.
  rewrite (cat_w_column_r num_anchors 2 2 (arm_yx_of x)) by assumption.
  rewrite (cat_w_column_r num_anchors 2 2 (gt_yx_ratio create_anchors yx))
    by assumption.
  assert (Hix : i < length x) by (destruct Sx as [-> _]; exact Hi).
  unfold arm_yx_of, arm_hw_of, odm_yx_of.
  rewrite !split_w_column by assumption.
  cbn [Nat.add]. auto.
Qed.
End Blocks.

(** * The row of a positive anchor in the outgoing derivative *)

Lemma tzip_lookup_total (f : spec_float -> spec_float -> spec_float)
    (x y : list (list spec_float)) (i : nat) :
  i < length x -> i < length y ->
  tzip f x y !!! i = zip_with f (x !!! i) (y !!! i).
Proof.
  intros Hx Hy.
  destruct (lookup_lt_is_Some_2 x i Hx) as [rx Hrx].
  destruct (lookup_lt_is_Some_2 y i Hy) as [ry Hry].
  rewrite (list_lookup_total_correct _ _ _ Hrx), (list_lookup_total_correct _ _ _ Hry).
  apply list_lookup_total_correct. unfold tzip.
  rewrite lookup_zip_with, Hrx, Hry. reflexivity.
Qed.

Lemma tmap_lookup_total (f : spec_float -> spec_float) (t : list (list spec_float))
    (i : nat) :
  i < length t -> tmap f t !!! i = map f (t !!! i).
Proof.
  intros Hi. unfold tmap. change (map (map f) t) with (map f <$> t).
  by rewrite (list_lookup_total_fmap (A:=list spec_float) (B:=list spec_float) (map f)).
Qed.

Lemma anchor_box_count : num_gt_boxes_of [anchor_box_item] = 1.
Proof. vm_compute. reflexivity. Qed.

Lemma probe_item_shape : has_shape num_anchors (10 + num_classes) probe_item.
Proof.
  destruct zero_item_shape as [Hl Hw]. unfold probe_item.
  split; [by rewrite length_insert|].
  apply Forall_insert; [exact Hw|reflexivity].
Qed.

Lemma probe_item_lookup : probe_item !!! 2966 = probe_row.
Proof.
  unfold probe_item. apply list_lookup_total_insert_eq.
  unfold zero_item. rewrite length_replicate. lia.
Qed.

(** The match of the anchors against the box of [anchor_box_item]: eleven
    positive anchors, anchor 2966 among them; the anchor is the box. *)
Lemma anchor_box_match :
  let m := match_anchors 1 create_anchors (gt_yx_of anchor_box_item)
             (gt_hw_of anchor_box_item) in
  item_num_positive 1 anchor_box_item = 11%Z /\
  make_positive_mask (length create_anchors.1) (positive_idx_set m) !!! 2966 = 1%Z /\
  label_yx m !!! 2966 = [F32.of_Z 80; F32.of_Z 80] /\
  label_hw m !!! 2966 = [F32.of_Z 128; F32.of_Z 128] /\
  create_anchors.1 !!! 2966 = [F32.of_Z 80; F32.of_Z 80] /\
  create_anchors.2 !!! 2966 = [F32.of_Z 128; F32.of_Z 128].
Proof.
  vm_cast_no_check
    (conj (@eq_refl Z 11%Z)
       (conj (@eq_refl Z 1%Z)
          (conj (@eq_refl (list spec_float) [F32.of_Z 80; F32.of_Z 80])
             (conj (@eq_refl (list spec_float) [F32.of_Z 128; F32.of_Z 128])
                (conj (@eq_refl (list spec_float) [F32.of_Z 80; F32.of_Z 80])
                   (@eq_refl (list spec_float) [F32.of_Z 128; F32.of_Z 128])))))).
Qed.

(** The predictions [probe_item] and the label [anchor_box_item]. *)
Lemma calcDerivative_fields_witness :
  let self := (forwarding softmax_ref (fun x => x) insertion_sort
                 [probe_item] [anchor_box_item]).1 in
  let out := calcDerivative softmax_ref (fun x => x) self [probe_item] !!! 0 in
  let d := calcDerivative_item softmax_ref (fun x => x) self create_anchors
             ([probe_item] !!! 0) 0 in
  arm_yx_of out = arm_yx_deriv_ d /\
  arm_hw_of out = arm_hw_deriv_ d /\
  arm_conf_of out = arm_conf_deriv_ d /\
  odm_yx_of out = odm_yx_deriv_ d /\
  odm_hw_of out = odm_hw_deriv_ d /\
  odm_conf_of out = odm_conf_deriv_ d.
Proof.
  apply (calcDerivative_fields softmax_ref (fun x => x) insertion_sort
           softmax_ref_shape [probe_item] [anchor_box_item] 0).
  - apply Forall_singleton. exact probe_item_shape.
  - cbn [length]. lia.
Defined.

(** The regression targets of an anchor that is the box recorded for it:
    the centre offsets are 0 and the size offsets are log 1. *)
Lemma anchor_box_targets (log : spec_float -> spec_float)
    (lab_yx lab_hw : list (list spec_float)) :
  log (F64.of_Z 1) = S754_zero false ->
  length lab_yx = num_anchors -> length lab_hw = num_anchors ->
  lab_yx !!! 2966 = [F32.of_Z 80; F32.of_Z 80] ->
  lab_hw !!! 2966 = [F32.of_Z 128; F32.of_Z 128] ->
  gt_yx_ratio create_anchors lab_yx !!! 2966 = [F32.zero; F32.zero] /\
  gt_hw_log' log create_anchors lab_hw !!! 2966 = [F32.zero; F32.zero].
Proof.
  intros Hlog Ly Lh Hyx Hhw.
  destruct anchor_box_match as (_ & _ & _ & _ & M5 & M6).
  destruct create_anchors_length as [La1 La2].
  assert (Hi : 2966 < num_anchors) by (rewrite num_anchors_eq; lia).
  split.
  - unfold gt_yx_ratio.
    rewrite tzip_lookup_total
      by (first [lia | unfold tzip; rewrite length_zip_with; lia]).
    rewrite tzip_lookup_total by lia.
    rewrite Hyx, M5, M6. vm_compute. reflexivity.
  - unfold gt_hw_log'.
    rewrite tmap_lookup_total by (unfold tzip; rewrite length_zip_with; lia).
    rewrite tzip_lookup_total by lia.
    rewrite Hhw, M6. cbn [zip_with map]. unfold log_eps.
    replace (F64.add (F64.of_float (F32.div (F32.of_Z 128) (F32.of_Z 128)))
               F64.lit_1e_20) with (F64.of_Z 1) by (vm_compute; reflexivity).
    rewrite Hlog. reflexivity.
Qed.

Section Probe.
Variable softmax : list (list spec_float) -> list (list spec_float).
Variable log : spec_float -> spec_float.
Variable std_sort :
  (nat * spec_float -> nat * spec_float -> bool) ->
  list (nat * spec_float) -> list (nat * spec_float).

(** What [forwarding] caches for batch item [b]. *)
Lemma forwarding_item_cache (input gt : list (list (list spec_float))) (b n : nat)
    (gt_b : list (list spec_float)) :
  b < length input -> num_gt_boxes_of gt = n -> gt !!! b = gt_b ->
  let self := (forwarding softmax log std_sort input gt).1 in
  let m := match_anchors n create_anchors (gt_yx_of gt_b) (gt_hw_of gt_b) in
  num_positive_anchors self !!! b = item_num_positive n gt_b /\
  positive_mask self !!! b
    = make_positive_mask (length create_anchors.1) (positive_idx_set m) /\
  anchor_gt_label_yx self !!! b = label_yx m /\
  anchor_gt_label_hw self !!! b = label_hw m /\
  length (label_yx m) = num_anchors /\ length (label_hw m) = num_anchors.
Proof.
  intros Hb <- <-. cbv zeta.
  destruct (match_anchors_targets_shape create_anchors (gt_yx_of (gt !!! b))
              (gt_hw_of (gt !!! b)) (num_gt_boxes_of gt)) as [[Ly _] [Lh _]].
  rewrite (proj1 create_anchors_length) in Ly, Lh.
  rewrite forwarding_counts, forwarding_masks.
  unfold forwarding. cbv zeta. cbn [fst].
  rewrite (proj1 (forwarding_fold_labels softmax log std_sort _ _ _ _)).
  rewrite (proj2 (forwarding_fold_labels softmax log std_sort _ _ _ _)).
  change (map ?f ?t) with (f <$> t).
  rewrite (list_lookup_total_fmap
             (fun b => item_num_positive (num_gt_boxes_of gt) (gt !!! b)))
    by (rewrite length_seq; exact Hb).
  rewrite (list_lookup_total_fmap
             (fun b => make_positive_mask (length create_anchors.1)
                         (positive_idx_set
                            (match_anchors (num_gt_boxes_of gt) create_anchors
                               (gt_yx_of (gt !!! b)) (gt_hw_of (gt !!! b))))))
    by (rewrite length_seq; exact Hb).
  rewrite (list_lookup_total_fmap
             (fun b => label_yx
                         (match_anchors (num_gt_boxes_of gt) create_anchors
                            (gt_yx_of (gt !!! b)) (gt_hw_of (gt !!! b)))))
    by (rewrite length_seq; exact Hb).
  rewrite (list_lookup_total_fmap
             (fun b => label_hw
                         (match_anchors (num_gt_boxes_of gt) create_anchors
                            (gt_yx_of (gt !!! b)) (gt_hw_of (gt !!! b)))))
    by (rewrite length_seq; exact Hb).
  rewrite lookup_total_seq_lt by exact Hb. cbn [Nat.add]. auto 10.
Qed.

(** The cache of a forward pass on the label [anchor_box_item]. *)
Lemma anchor_box_cache (input_b : list (list spec_float)) :
  let self := (forwarding softmax log std_sort [input_b] [anchor_box_item]).1 in
  num_positive_anchors self !!! 0 = 11%Z /\
  (positive_mask self !!! 0) !!! 2966 = 1%Z /\
  (anchor_gt_label_yx self !!! 0) !!! 2966 = [F32.of_Z 80; F32.of_Z 80] /\
  (anchor_gt_label_hw self !!! 0) !!! 2966 = [F32.of_Z 128; F32.of_Z 128] /\
  length (anchor_gt_label_yx self !!! 0) = num_anchors /\
  length (anchor_gt_label_hw self !!! 0) = num_anchors.
Proof.
  cbv zeta. destruct anchor_box_match as (M1 & M2 & M3 & M4 & _).
  assert (Hb : 0 < length [input_b]) by (cbn [length]; lia).
  destruct (forwarding_item_cache [input_b] [anchor_box_item] 0 1 anchor_box_item
              Hb anchor_box_count eq_refl) as (A1 & A2 & A3 & A4 & A5 & A6).
  split; [exact (eq_trans A1 M1)|].
  split; [exact (eq_trans (f_equal (fun l : list Z => l !!! 2966) A2) M2)|].
  pose proof (f_equal (fun l : list (list spec_float) => l !!! 2966) A3) as A3'.
  cbv beta in A3'.
  pose proof (f_equal (fun l : list (list spec_float) => l !!! 2966) A4) as A4'.
  cbv beta in A4'.
  split; [exact (eq_trans A3' M3)|]. split; [exact (eq_trans A4' M4)|].
  split.
  - exact (eq_trans (f_equal (fun l : list (list spec_float) => length l) A3) A5).
  - exact (eq_trans (f_equal (fun l : list (list spec_float) => length l) A4) A6).
Qed.
End Probe.

(** The row of a positive anchor with the predictions [probe_row], zero
    targets and eleven positive anchors, from the columns of the box
    blocks. *)
Lemma probe_row_gradients (mask : list Z) (n : Z) (tyx thw row : list spec_float) :
  n = 11%Z -> mask !!! 2966%nat = 1%Z ->
  tyx = [F32.zero; F32.zero] -> thw = [F32.zero; F32.zero] ->
  (forall c, c < 2 ->
     row !!! c = masked_grad mask n 2966 (probe_row !!! c) (tyx !!! c) /\
     row !!! (2 + c) = masked_grad mask n 2966 (probe_row !!! (2 + c)) (thw !!! c) /\
     row !!! (6 + c) = masked_grad mask n 2966 (probe_row !!! (6 + c)) (tyx !!! c) /\
     row !!! (8 + c) = F32.zero) ->
  n = 11%Z /\ mask !!! 2966%nat = 1%Z /\
  tyx = [F32.zero; F32.zero] /\ thw = [F32.zero; F32.zero] /\
  row !!! 0%nat = F32.div (f32_q 1 2) (F32.of_Z 11) /\
  row !!! 1%nat = F32.div (f32_q (-1) 2) (F32.of_Z 11) /\
  row !!! 2%nat = F32.div (F32.of_Z 1) (F32.of_Z 11) /\
  row !!! 3%nat = F32.div (F32.of_Z (-1)) (F32.of_Z 11) /\
  row !!! 6%nat = F32.div (f32_q 1 4) (F32.of_Z 11) /\
  row !!! 7%nat = F32.div (F32.of_Z 1) (F32.of_Z 11) /\
  smooth_l1_elem (F32.sub (probe_row !!! 8%nat) (thw !!! 0%nat)) = f32_q 5 2 /\
  smooth_l1_elem (F32.sub (probe_row !!! 9%nat) (thw !!! 1%nat)) = f32_q 5 2 /\
  masked_grad mask n 2966 (probe_row !!! 8%nat) (thw !!! 0%nat)
    = F32.div (F32.of_Z 1) (F32.of_Z 11) /\
  masked_grad mask n 2966 (probe_row !!! 9%nat) (thw !!! 1%nat)
    = F32.div (F32.of_Z (-1)) (F32.of_Z 11) /\
  F32.is_zero (F32.div (F32.of_Z 1) (F32.of_Z 11)) = false /\
  F32.is_zero (F32.div (F32.of_Z (-1)) (F32.of_Z 11)) = false /\
  row !!! 8%nat = F32.zero /\ row !!! 9%nat = F32.zero.
Proof.
  intros Hn Hm Hyx Hhw K.
  destruct (K 0 ltac:(lia)) as (K0 & K2 & K6 & K8).
  destruct (K 1 ltac:(lia)) as (K1 & K3 & K7 & K9).
  cbn [Nat.add] in K0, K1, K2, K3, K6, K7, K8, K9.
  split; [exact Hn|]. split; [exact Hm|]. split; [exact Hyx|]. split; [exact Hhw|].
  rewrite K0, K1, K2, K3, K6, K7, K8, K9. clear K K0 K1 K2 K3 K6 K7 K8 K9.
  unfold masked_grad. rewrite Hm. subst n tyx thw. clear.
  vm_compute. repeat split; reflexivity.
Qed.

(** C3 (the code diverges): a batch of one item whose label is the box of
    anchor 2966 and whose predictions at that anchor are [probe_row]. The
    forward pass finds eleven positive anchors, anchor 2966 among them, and
    its regression targets are all zero. In the outgoing derivative the row
    of anchor 2966 holds, at the columns of the ARM centre offsets, the ARM
    size offsets and the ODM centre offsets, the difference prediction minus
    target clamped to [-1, 1] and divided by the positive count 11. For the
    ODM size offsets 3 and -3 the same rule gives 1/11 and -1/11, and the
    forward pass charges the smooth-L1 term 5/2 for each of them, but
    columns 8 and 9 of the row hold zeros: the block is reset before it is
    joined to the others. *)
Theorem odm_size_gradient_reset
    (softmax : list (list spec_float) -> list (list spec_float))
    (log : spec_float -> spec_float)
    (std_sort : (nat * spec_float -> nat * spec_float -> bool) ->
                list (nat * spec_float) -> list (nat * spec_float)) :
  (forall h w x, has_shape h w x -> has_shape h w (softmax x)) ->
  log (F64.of_Z 1) = S754_zero false ->
  let self := (forwarding softmax log std_sort [probe_item] [anchor_box_item]).1 in
  let n := num_positive_anchors self !!! 0%nat in
  let mask := positive_mask self !!! 0%nat in
  let tyx := gt_yx_ratio create_anchors (anchor_gt_label_yx self !!! 0%nat) !!! 2966%nat in
  let thw :=
    gt_hw_log' log create_anchors (anchor_gt_label_hw self !!! 0%nat) !!! 2966%nat in
  let row := (calcDerivative softmax log self [probe_item] !!! 0%nat) !!! 2966%nat in
  (* forward: the positive count, the mask and the targets of anchor 2966 *)
  n = 11%Z /\ mask !!! 2966%nat = 1%Z /\
  tyx = [F32.zero; F32.zero] /\ thw = [F32.zero; F32.zero] /\
  (* backward: ARM centre, ARM size and ODM centre offsets *)
  row !!! 0%nat = F32.div (f32_q 1 2) (F32.of_Z 11) /\
  row !!! 1%nat = F32.div (f32_q (-1) 2) (F32.of_Z 11) /\
  row !!! 2%nat = F32.div (F32.of_Z 1) (F32.of_Z 11) /\
  row !!! 3%nat = F32.div (F32.of_Z (-1)) (F32.of_Z 11) /\
  row !!! 6%nat = F32.div (f32_q 1 4) (F32.of_Z 11) /\
  row !!! 7%nat = F32.div (F32.of_Z 1) (F32.of_Z 11) /\
  (* the ODM size offsets: what the forward pass charges, what the rule of
     the other blocks gives, and what is emitted *)
  smooth_l1_elem (F32.sub (probe_row !!! 8%nat) (thw !!! 0%nat)) = f32_q 5 2 /\
  smooth_l1_elem (F32.sub (probe_row !!! 9%nat) (thw !!! 1%nat)) = f32_q 5 2 /\
  masked_grad mask n 2966 (probe_row !!! 8%nat) (thw !!! 0%nat)
    = F32.div (F32.of_Z 1) (F32.of_Z 11) /\
  masked_grad mask n 2966 (probe_row !!! 9%nat) (thw !!! 1%nat)
    = F32.div (F32.of_Z (-1)) (F32.of_Z 11) /\
  F32.is_zero (F32.div (F32.of_Z 1) (F32.of_Z 11)) = false /\
  F32.is_zero (F32.div (F32.of_Z (-1)) (F32.of_Z 11)) = false /\
  row !!! 8%nat = F32.zero /\ row !!! 9%nat = F32.zero.
Proof.
  intros Hs Hlog. cbv zeta.
  destruct (anchor_box_cache softmax log std_sort probe_item)
    as (A1 & A2 & A3 & A4 & Ly & Lh).
  cbv zeta in A1, A2, A3, A4, Ly, Lh.
  destruct (anchor_box_targets log _ _ Hlog Ly Lh A3 A4) as [T1 T2].
  apply (probe_row_gradients _ _ _ _ _ A1 A2 T1 T2).
  intros c Hc.
  assert (Hin : Forall (has_shape num_anchors (10 + num_classes)) [probe_item])
    by (apply Forall_singleton; exact probe_item_shape).
  assert (Hb : 0 < length [probe_item]) by (cbn [length]; lia).
  assert (Hi : 2966 < num_anchors) by (rewrite num_anchors_eq; lia).
  pose proof (calcDerivative_box_columns softmax log std_sort Hs [probe_item]
                [anchor_box_item] 0 2966 c Hin Hb Hi Hc) as K.
  cbv zeta in K.
  assert (E : [probe_item] !!! 0 = probe_item) by reflexivity.
  rewrite E, probe_item_lookup in K. exact K.
Qed.

(** A reference softmax, a logarithm stand-in with log 1 = 0 and an
    insertion sort. *)
Lemma odm_size_gradient_reset_witness :
  let log := fun x => F64.sub x (F64.of_Z 1) in
  let self := (forwarding softmax_ref log insertion_sort
                 [probe_item] [anchor_box_item]).1 in
  let n := num_positive_anchors self !!! 0%nat in
  let mask := positive_mask self !!! 0%nat in
  let tyx := gt_yx_ratio create_anchors (anchor_gt_label_yx self !!! 0%nat) !!! 2966%nat in
  let thw :=
    gt_hw_log' log create_anchors (anchor_gt_label_hw self !!! 0%nat) !!! 2966%nat in
  let row := (calcDerivative softmax_ref log self [probe_item] !!! 0%nat) !!! 2966%nat in
  n = 11%Z /\ mask !!! 2966%nat = 1%Z /\
  tyx = [F32.zero; F32.zero] /\ thw = [F32.zero; F32.zero] /\
  row !!! 0%nat = F32.div (f32_q 1 2) (F32.of_Z 11) /\
  row !!! 1%nat = F32.div (f32_q (-1) 2) (F32.of_Z 11) /\
  row !!! 2%nat = F32.div (F32.of_Z 1) (F32.of_Z 11) /\
  row !!! 3%nat = F32.div (F32.of_Z (-1)) (F32.of_Z 11) /\
  row !!! 6%nat = F32.div (f32_q 1 4) (F32.of_Z 11) /\
  row !!! 7%nat = F32.div (F32.of_Z 1) (F32.of_Z 11) /\
  smooth_l1_elem (F32.sub (probe_row !!! 8%nat) (thw !!! 0%nat)) = f32_q 5 2 /\
  smooth_l1_elem (F32.sub (probe_row !!! 9%nat) (thw !!! 1%nat)) = f32_q 5 2 /\
  masked_grad mask n 2966 (probe_row !!! 8%nat) (thw !!! 0%nat)
    = F32.div (F32.of_Z 1) (F32.of_Z 11) /\
  masked_grad mask n 2966 (probe_row !!! 9%nat) (thw !!! 1%nat)
    = F32.div (F32.of_Z (-1)) (F32.of_Z 11) /\
  F32.is_zero (F32.div (F32.of_Z 1) (F32.of_Z 11)) = false /\
  F32.is_zero (F32.div (F32.of_Z (-1)) (F32.of_Z 11)) = false /\
  row !!! 8%nat = F32.zero /\ row !!! 9%nat = F32.zero.
Proof.
  exact (odm_size_gradient_reset softmax_ref (fun x => F64.sub x (F64.of_Z 1))
           insertion_sort softmax_ref_shape eq_refl).
Defined.

(** * The filter on concrete logits *)

Lemma background_probability_ref (x : list (list spec_float)) (i : nat) :
  i < length x ->
  background_probability softmax_ref x i = softmax_row (x !!! i) !!! 0.
Proof.
  intros Hi. unfold background_probability, softmax_ref.
  change (map softmax_row x) with (softmax_row <$> x).
  by rewrite (list_lookup_total_fmap softmax_row).
Qed.

Lemma probe_logits_length : length probe_logits = 3000.
Proof. unfold probe_logits. cbn [length]. by rewrite length_replicate. Qed.

(** The filter loop on [probe_logits] with no positive anchor. *)
Lemma negative_filter_probe :
  let st := negative_filter num_anchors 0 no_positive_mask probe_logits in
  st.1 !!! 0 = 0%Z /\ st.1 !!! 1 = 0%Z /\ st.1 !!! 2 = 1%Z /\
  count_nz st.1 = 1 /\ st.2 = 1%Z.
Proof.
  vm_cast_no_check
    (conj (@eq_refl Z 0%Z) (conj (@eq_refl Z 0%Z) (conj (@eq_refl Z 1%Z)
       (conj (@eq_refl nat 1) (@eq_refl Z 1%Z))))).
Qed.

(** The series at -5 lies between 0.006737946999 and 0.006737947, as e^-5
    (0.0067379469990...) does. *)
Lemma exp_series_minus_5 :
  F64.ltb (F64.div (F64.of_Z 6737946999) (F64.of_Z (10 ^ 12)))
    (exp_series (F64.of_Z (-5))) = true /\
  F64.ltb (exp_series (F64.of_Z (-5)))
    (F64.div (F64.of_Z 6737947000) (F64.of_Z (10 ^ 12))) = true.
Proof. vm_compute. split; reflexivity. Qed.

(** C2 (the code diverges): the filter of lines 408-417 on an item without
    positive anchors and the ARM logits [probe_logits]. The test of line 413
    reads the raw value of channel 1, the object class, and compares it
    with 0.99; no softmax is applied. Anchor 0 has logits (5, 5), so its
    background probability is 1/2, and it is removed. Anchor 1 has logits
    (0, 5): its background probability, 1 / (1 + e^5), is about 0.007, and
    it is removed. Anchor 2 has logits (5, 0): its background probability,
    e^5 / (1 + e^5), is about 0.993, above 0.99, and it is kept. Anchor 2 is
    the only anchor left in the negative mask and the negative count is 1.
    The reference softmax is exact at equal logits; at a difference of 5
    its thirty-term series gives e^-5 to twelve decimal places. *)
Theorem negative_filter_reads_object_logit :
  let st := negative_filter num_anchors 0 no_positive_mask probe_logits in
  (* anchor 0: probability 1/2, removed *)
  background_probability softmax_ref probe_logits 0 = f32_q 1 2 /\
  gt_double (getValue probe_logits (2 * 0 + 1)) F64.lit_0_99 = true /\
  st.1 !!! 0 = 0%Z /\
  (* anchor 1: not confidently background, removed *)
  gt_double (background_probability softmax_ref probe_logits 1) F64.lit_0_99 = false /\
  gt_double (getValue probe_logits (2 * 1 + 1)) F64.lit_0_99 = true /\
  st.1 !!! 1 = 0%Z /\
  (* anchor 2: confidently background, kept *)
  gt_double (background_probability softmax_ref probe_logits 2) F64.lit_0_99 = true /\
  gt_double (getValue probe_logits (2 * 2 + 1)) F64.lit_0_99 = false /\
  st.1 !!! 2 = 1%Z /\
  (* the mask and the count after the loop *)
  count_nz st.1 = 1 /\ st.2 = 1%Z.
Proof.
  cbv zeta. destruct negative_filter_probe as (S0 & S1 & S2 & Sc & Sn).
  cbv zeta in S0, S1, S2, Sc, Sn.
  rewrite !background_probability_ref by (rewrite probe_logits_length; lia).
  split; [vm_compute; reflexivity|]. split; [vm_compute; reflexivity|].
  split; [exact S0|].
  split; [vm_compute; reflexivity|]. split; [vm_compute; reflexivity|].
  split; [exact S1|].
  split; [vm_compute; reflexivity|]. split; [vm_compute; reflexivity|].
  split; [exact S2|]. split; [exact Sc|exact Sn].
Qed.
